(** * Wayback change detector: a shallow embedding of the TypeScript sources

    The development follows the source files one by one:
    - [utils/date.ts]          : [parseCalendarDate], [formatIdentifier], [createTimestamp];
    - [RateLimitedFetcher.ts]  : the rolling window, the retry loop;
    - [ContentAnalyser.ts]     : [fetchContent];
    - [WebScraper.ts]          : the capture index client, the backward scan,
                                 [shouldRecommendUpdate], [analyzeWebsiteHistory];
    - [index.ts]               : [analyzeWebsite], [analyzeBatch].

    JavaScript numbers that the program only ever uses as integers (calendar
    fields, millisecond time values, HTTP status codes, configuration values)
    are integers [Z] with an explicit [NaN]; similarity scores are IEEE-754
    binary64 values, Rocq's primitive [float].  The built-in [Date] follows
    the abstract operations of ECMA-262 (Day, TimeWithinDay, DayFromYear,
    YearFromTime, MakeDay, MakeTime, MakeDate, TimeClip, LocalTime, UTC),
    over a time zone given by its two offset functions, so that zones
    whose clocks are moved twice a year are covered.  Timers follow
    [setTimeout], which runs a delay outside 1 .. 2^31 - 1 ms as 1 ms.
    Effects are explicit: a state and exception monad over the clock, the
    transport and the fetcher's window.  The calls to [console] change
    nothing of that and are left out. *)

From Stdlib Require Import ZArith Znumtheory Lia List Bool Ascii String PrimFloat.
From Stdlib Require Import DecimalString DecimalPos.
From Stdlib Require Import Permutation Sorted.
Import ListNotations.
Open Scope Z_scope.
Set Warnings "-inexact-float".


(* ================================================================== *)
(** * JavaScript numbers and strings *)
(* ================================================================== *)

Module JS.

(** An integer-valued JavaScript number, or NaN. *)
Inductive number : Type :=
| Num (z : Z)
| NaN.

Definition lift2 (f : Z -> Z -> Z) (a b : number) : number :=
  match a, b with
  | Num x, Num y => Num (f x y)
  | _, _ => NaN
  end.

(** [Number.prototype.toString] on integers. *)
Definition toString (x : number) : string :=
  match x with
  | Num z => NilZero.string_of_int (Z.to_int z)
  | NaN => "NaN"%string
  end.

Fixpoint repeat0 (n : nat) : string :=
  match n with
  | O => EmptyString
  | S k => String "0"%char (repeat0 k)
  end.

(** [s.padStart(n, '0')]. *)
Definition padStart0 (n : nat) (s : string) : string :=
  (repeat0 (n - String.length s) ++ s)%string.

(** [s.slice(a, b)] and [s.slice(a)] for non-negative indices. *)
Definition slice (a b : nat) (s : string) : string :=
  String.substring a (b - a) s.

Definition sliceFrom (a : nat) (s : string) : string :=
  String.substring a (String.length s - a) s.

Definition isDigit (c : ascii) : bool :=
  let n := nat_of_ascii c in (48 <=? n)%nat && (n <=? 57)%nat.

Definition digitValue (c : ascii) : Z := Z.of_nat (nat_of_ascii c) - 48.

Definition isWhite (c : ascii) : bool :=
  let n := nat_of_ascii c in
  (n =? 32)%nat || ((9 <=? n)%nat && (n <=? 13)%nat).

Fixpoint trimStart (s : string) : string :=
  match s with
  | String c r => if isWhite c then trimStart r else s
  | EmptyString => EmptyString
  end.

(** The longest prefix of decimal digits, read as a number; [None] when the
    prefix is empty. *)
Fixpoint digitPrefix (acc : option Z) (s : string) : option Z :=
  match s with
  | String c r =>
      if isDigit c
      then digitPrefix (Some (10 * match acc with Some a => a | None => 0 end
                              + digitValue c)) r
      else acc
  | EmptyString => acc
  end.

(** [parseInt(s)] without a radix, on input without a [0x] prefix: leading
    white space is skipped, one sign is read, then the longest prefix of
    decimal digits; NaN when there is no digit. *)
Definition parseInt (s : string) : number :=
  match trimStart s with
  | String "-"%char r =>
      match digitPrefix None r with Some v => Num (- v) | None => NaN end
  | String "+"%char r =>
      match digitPrefix None r with Some v => Num v | None => NaN end
  | r => match digitPrefix None r with Some v => Num v | None => NaN end
  end.

End JS.

(* ================================================================== *)
(** * The built-in Date (ECMA-262, section "Date Objects") *)
(* ================================================================== *)

Module DateModel.

Import JS.

Definition msPerDay : Z := 86400000.
Definition msPerHour : Z := 3600000.
Definition msPerMinute : Z := 60000.
Definition msPerSecond : Z := 1000.

Definition Day (t : Z) : Z := t / msPerDay.
Definition TimeWithinDay (t : Z) : Z := t mod msPerDay.

Definition DaysInYear (y : Z) : Z :=
  if negb (y mod 4 =? 0) then 365
  else if negb (y mod 100 =? 0) then 366
  else if negb (y mod 400 =? 0) then 365
  else 366.

Definition DayFromYear (y : Z) : Z :=
  365 * (y - 1970) + (y - 1969) / 4 - (y - 1901) / 100 + (y - 1601) / 400.

(** The year of a day number: the largest [y] with [DayFromYear y <= d].
    The mean year has 146097/400 days, which puts the answer within one
    year of the estimate [y0]. *)
Definition YearFromDay (d : Z) : Z :=
  let y0 := 1970 + (d * 400) / 146097 in
  if DayFromYear (y0 + 1) <=? d then y0 + 1
  else if DayFromYear y0 <=? d then y0
  else y0 - 1.

Definition YearFromTime (t : Z) : Z := YearFromDay (Day t).

Definition InLeapYear (t : Z) : Z :=
  if DaysInYear (YearFromTime t) =? 366 then 1 else 0.

Definition DayWithinYear (t : Z) : Z :=
  Day t - DayFromYear (YearFromTime t).

(** The month table: the month (0 is January, 11 December) of the day
    [d] of a year, [l] being 1 in a leap year and 0 otherwise. *)
Definition monthOfDay (d l : Z) : Z :=
  if d <? 31 then 0
  else if d <? 59 + l then 1
  else if d <? 90 + l then 2
  else if d <? 120 + l then 3
  else if d <? 151 + l then 4
  else if d <? 181 + l then 5
  else if d <? 212 + l then 6
  else if d <? 243 + l then 7
  else if d <? 273 + l then 8
  else if d <? 304 + l then 9
  else if d <? 334 + l then 10
  else 11.

Definition MonthFromTime (t : Z) : Z :=
  monthOfDay (DayWithinYear t) (InLeapYear t).

(** Number of days of the year before month [m] (0-based), [l] being 1 in
    a leap year. *)
Definition daysBeforeMonth (m l : Z) : Z :=
  match m with
  | 0 => 0
  | 1 => 31
  | 2 => 59 + l
  | 3 => 90 + l
  | 4 => 120 + l
  | 5 => 151 + l
  | 6 => 181 + l
  | 7 => 212 + l
  | 8 => 243 + l
  | 9 => 273 + l
  | 10 => 304 + l
  | _ => 334 + l
  end.

Definition DateFromTime (t : Z) : Z :=
  DayWithinYear t - daysBeforeMonth (MonthFromTime t) (InLeapYear t) + 1.

Definition HourFromTime (t : Z) : Z := (t / msPerHour) mod 24.
Definition MinFromTime (t : Z) : Z := (t / msPerMinute) mod 60.
Definition SecFromTime (t : Z) : Z := (t / msPerSecond) mod 60.

Definition MakeTime (hour min sec ms : Z) : Z :=
  hour * msPerHour + min * msPerMinute + sec * msPerSecond + ms.

(** [MakeDay(year, month, date)]: the day number of the first of the month
    [month mod 12] of year [year + floor(month/12)], plus [date - 1]. *)
Definition MakeDay (year month date : Z) : Z :=
  let ym := year + month / 12 in
  let mn := month mod 12 in
  let l := if DaysInYear ym =? 366 then 1 else 0 in
  DayFromYear ym + daysBeforeMonth mn l + date - 1.

Definition MakeDate (day time : Z) : Z := day * msPerDay + time.

Definition TimeClip (t : Z) : number :=
  if Z.abs t <=? 8640000000000000 then Num t else NaN.

(** The time zone of the machine, as ECMA-262 sees it: [LocalTZA(t, true)],
    the offset in force at the instant [t], and [LocalTZA(t, false)], the
    offset by which the local time value [t] is read.  Where the clocks
    are moved, the two differ: a local time that the clocks skip is read
    with the offset in force before the change. *)
Record Zone : Type := mkZone {
  offsetAtUTC : Z -> Z;
  offsetAtLocal : Z -> Z
}.

(** A zone whose clocks are never moved. *)
Definition fixedZone (tza : Z) : Zone := mkZone (fun _ => tza) (fun _ => tza).

Section LocalTime.

Variable zone : Zone.

Definition LocalTime (t : Z) : Z := t + offsetAtUTC zone t.
Definition UTC (t : Z) : Z := t - offsetAtLocal zone t.

(** [new Date(year, month, day, hours, minutes, seconds).getTime()]. *)
Definition Date_ofFields (year month day hours minutes seconds : number)
  : number :=
  match year, month, day, hours, minutes, seconds with
  | Num y, Num m, Num dt, Num h, Num mi, Num s =>
      let yr := if (0 <=? y) && (y <=? 99) then 1900 + y else y in
      TimeClip (UTC (MakeDate (MakeDay yr m dt) (MakeTime h mi s 0)))
  | _, _, _, _, _, _ => NaN
  end.

(** [new Date(value)] for a number: the time value of the new object. *)
Definition Date_ofNumber (v : number) : number :=
  match v with
  | Num t => TimeClip t
  | NaN => NaN
  end.

Definition getFullYear (t : Z) : Z := YearFromTime (LocalTime t).
Definition getMonth (t : Z) : Z := MonthFromTime (LocalTime t).
Definition getDate (t : Z) : Z := DateFromTime (LocalTime t).
Definition getHours (t : Z) : Z := HourFromTime (LocalTime t).
Definition getMinutes (t : Z) : Z := MinFromTime (LocalTime t).
Definition getSeconds (t : Z) : Z := SecFromTime (LocalTime t).

(** [d.setFullYear(year)] on a valid date: the new time value. *)
Definition setFullYear (t : Z) (year : Z) : number :=
  let lt := LocalTime t in
  let newDate := MakeDay year (MonthFromTime lt) (DateFromTime lt) in
  TimeClip (UTC (MakeDate newDate (TimeWithinDay lt))).

End LocalTime.

End DateModel.

(* ================================================================== *)
(** * utils/date.ts *)
(* ================================================================== *)

Module DateUtils.

Import JS DateModel.

Definition parseCalendarDate (value : number) : number * number :=
  let valueStr := padStart0 4 (toString value) in
  let month := parseInt (slice 0 2 valueStr) in
  let day := parseInt (sliceFrom 2 valueStr) in
  (month, day).

Definition formatIdentifier (year month day : number) : string :=
  let formattedMonth := padStart0 2 (toString month) in
  let formattedDay := padStart0 2 (toString day) in
  (toString year ++ formattedMonth ++ formattedDay)%string.

(** The [reduce] of [createTimestamp]: character [i] of the identifier goes
    to the year for [i < 4], to the month for [i < 6], to the day after. *)
Fixpoint splitIdentifier (i : nat) (acc : string * string * string)
  (chars : string) : string * string * string :=
  match chars with
  | EmptyString => acc
  | String c rest =>
      let '(y, m, d) := acc in
      let c1 := String c EmptyString in
      let acc' :=
        if (i <? 4)%nat then ((y ++ c1)%string, m, d)
        else if (i <? 6)%nat then (y, (m ++ c1)%string, d)
        else (y, m, (d ++ c1)%string) in
      splitIdentifier (S i) acc' rest
  end.

Definition createTimestamp (zone : Zone) (date : string) (time : number)
  : number :=
  let timeStr := padStart0 6 (toString time) in
  let hours := parseInt (slice 0 2 timeStr) in
  let minutes := parseInt (slice 2 4 timeStr) in
  let seconds := parseInt (sliceFrom 4 timeStr) in
  let '(ys, ms, ds) :=
    splitIdentifier 0 (EmptyString, EmptyString, EmptyString) date in
  let year := parseInt ys in
  let month := parseInt ms in
  let day := parseInt ds in
  Date_ofFields zone year (lift2 Z.sub month (Num 1)) day hours minutes seconds.

End DateUtils.

(* ================================================================== *)
(** * The world the program runs in *)
(* ================================================================== *)

Module Runtime.

(** A response of the global [fetch]. *)
Record Response : Type := mkResponse {
  status : Z;
  retryAfter : option string;          (* the Retry-After header *)
  bodyText : string;                   (* what [response.text()] yields *)
  bodyItems : option (list (Z * Z * Z))
    (* the [items] of [response.json()]; [None] when the body is not such
       a JSON document *)
}.

Definition ok (r : Response) : bool :=
  (200 <=? status r) && (status r <=? 299).

(** The global [fetch] either resolves with a response or rejects. *)
Inductive outcome : Type :=
| Replied (r : Response)
| Rejected (cause : string).

(** The values the program throws. *)
Inductive Error : Type :=
| HttpError (status : Z)
    (* new Error(`HTTP error! status: ${response.status}`) *)
| NetworkError (cause : string)
    (* the rejection of the global fetch *)
| ExhaustedError (url : string) (attempts : Z)
    (* new Error(`Failed to fetch ${url} after ${n} attempts`) *)
| JsonError
    (* response.json() rejects, or data.items cannot be iterated *)
| TypeError (what : string).
    (* reading a property of undefined *)

(** What the program does not define itself. *)
Record Env : Type := mkEnv {
  zone : DateModel.Zone;               (* the time zone of the machine *)
  elapsed : nat -> nat;
    (* milliseconds that pass before the k-th reading of the clock *)
  transport : nat -> string -> outcome;
    (* the global fetch: outcome of the k-th call, for the url asked *)
  encodeURIComponent : string -> string;
  cleanHtml : string -> string;        (* ContentAnalyzer.cleanHtml *)
  compareTwoStrings : string -> string -> float
    (* the string-similarity package *)
}.

(** The mutable state: the clock, the fetcher's window, and two ghost
    logs (every issuance timestamp ever recorded and every timer ever
    awaited, most recent first). *)
Record World : Type := mkWorld {
  clock : Z;
  reads : nat;
  calls : nat;
  requestTimestamps : list Z;
  issued : list Z;
  timers : list Z
}.

Definition initialWorld (t0 : Z) : World :=
  mkWorld t0 0 0 [] [] [].

Inductive result (A : Type) : Type :=
| Ok (a : A)
| Throw (e : Error).

Arguments Ok {A} a.
Arguments Throw {A} e.

(** State and exceptions. *)
Definition M (A : Type) : Type := World -> result A * World.

Definition ret {A} (a : A) : M A := fun w => (Ok a, w).

Definition throw {A} (e : Error) : M A := fun w => (Throw e, w).

Definition bind {A B} (m : M A) (k : A -> M B) : M B :=
  fun w =>
    match m w with
    | (Ok a, w') => k a w'
    | (Throw e, w') => (Throw e, w')
    end.

(** [try { m } catch (error) { h error }]. *)
Definition tryCatch {A} (m : M A) (h : Error -> M A) : M A :=
  fun w =>
    match m w with
    | (Ok a, w') => (Ok a, w')
    | (Throw e, w') => h e w'
    end.

Declare Scope prog_scope.
Delimit Scope prog_scope with prog.
Notation "x <- m ;; k" := (bind m (fun x => k))
  (at level 61, m at next level, right associativity) : prog_scope.
Notation "m ;;; k" := (bind m (fun _ => k))
  (at level 61, right associativity) : prog_scope.
Open Scope prog_scope.

Section Primitives.

Variable env : Env.

(** [Date.now()], and the clock reading of [new Date()]. *)
Definition Date_now : M Z :=
  fun w =>
    let t := clock w + Z.of_nat (elapsed env (reads w)) in
    (Ok t, mkWorld t (S (reads w)) (calls w) (requestTimestamps w)
                   (issued w) (timers w)).

(** The delay a timer runs for: [setTimeout] takes a delay from 1 to
    2^31 - 1 ms as it is, and any other delay (zero, negative, NaN, or
    too large for a signed 32-bit integer) as 1 ms. *)
Definition TIMEOUT_MAX : Z := 2147483647.

Definition timerDelay (ms : Z) : Z :=
  if (1 <=? ms) && (ms <=? TIMEOUT_MAX) then ms else 1.

(** [await new Promise(resolve => setTimeout(resolve, ms))]: the clock
    moves by the delay the timer runs for; the log keeps the delay that
    was asked. *)
Definition sleep (ms : Z) : M unit :=
  fun w =>
    (Ok tt, mkWorld (clock w + timerDelay ms) (reads w) (calls w)
                    (requestTimestamps w) (issued w) (ms :: timers w)).

(** [await fetch(url, options)]. *)
Definition globalFetch (url : string) : M Response :=
  fun w =>
    let w' := mkWorld (clock w) (reads w) (S (calls w))
                      (requestTimestamps w) (issued w) (timers w) in
    match transport env (calls w) url with
    | Replied r => (Ok r, w')
    | Rejected c => (Throw (NetworkError c), w')
    end.

Definition getTimestamps : M (list Z) :=
  fun w => (Ok (requestTimestamps w), w).

Definition setTimestamps (l : list Z) : M unit :=
  fun w => (Ok tt, mkWorld (clock w) (reads w) (calls w) l
                           (issued w) (timers w)).

(** [this.requestTimestamps.push(t)]. *)
Definition pushTimestamp (t : Z) : M unit :=
  fun w => (Ok tt, mkWorld (clock w) (reads w) (calls w)
                           (requestTimestamps w ++ [t])
                           (t :: issued w) (timers w)).

End Primitives.

End Runtime.

(* ================================================================== *)
(** * RateLimitedFetcher.ts *)
(* ================================================================== *)

Module RateLimitedFetcher.

Import Runtime.

Record RateLimiterConfig : Type := mkConfig {
  maxRequestsPerMinute : Z;
  retryAttempts : Z;
  retryDelay : Z
}.

(** [Partial<RateLimiterConfig>]: each field may be absent. *)
Record PartialConfig : Type := mkPartial {
  maxRequestsPerMinute_opt : option Z;
  retryAttempts_opt : option Z;
  retryDelay_opt : option Z
}.

Definition orDefault (supplied : option Z) (default : Z) : Z :=
  match supplied with
  | Some v => v
  | None => default
  end.

(** The constructor: the defaults, then the spread of [config]. *)
Definition new (config : option PartialConfig) : RateLimiterConfig :=
  match config with
  | None => mkConfig 15 3 5000
  | Some c =>
      mkConfig (orDefault (maxRequestsPerMinute_opt c) 15)
               (orDefault (retryAttempts_opt c) 3)
               (orDefault (retryDelay_opt c) 5000)
  end.

(** How one pass through the [try] block of [fetch] ends: with
    [return response], or with [continue] after a 429. *)
Inductive completion : Type :=
| Returned (response : Response)
| Continued.

Section Fetcher.

Variable env : Env.
Variable config : RateLimiterConfig.

Definition waitForRateLimit : M unit :=
  now <- Date_now env ;;
  let oneMinuteAgo := now - 60000 in
  stamps <- getTimestamps ;;
  let kept := filter (fun timestamp => oneMinuteAgo <? timestamp) stamps in
  setTimestamps kept ;;;
  if Z.of_nat (List.length kept) >=? maxRequestsPerMinute config then
    now' <- Date_now env ;;
    match kept with
    | oldestTimestamp :: _ =>
        let waitTime := 60000 - (now' - oldestTimestamp) in
        if 0 <? waitTime then sleep waitTime else ret tt
    | [] => ret tt  (* oldestTimestamp is undefined: waitTime is NaN *)
    end
  else ret tt.

Definition calculateBackoff (attempt : Z) : Z :=
  retryDelay config * 2 ^ attempt.

Definition handleRateLimitResponse (response : Response) : M unit :=
  let waitTime :=
    match retryAfter response with
    | Some (String c s) =>
        JS.lift2 Z.mul (JS.parseInt (String c s)) (JS.Num 1000)
    | _ => JS.Num (retryDelay config)
    end in
  match waitTime with
  | JS.Num ms => sleep ms
  | JS.NaN => sleep 0   (* a NaN delay is taken as 1 ms, like 0 *)
  end.

(** The rate-governed admission that opens every attempt: wait for the
    window, then record the issuance timestamp. *)
Definition admission : M unit :=
  waitForRateLimit ;;;
  now <- Date_now env ;;
  pushTimestamp now.

(** The [try] block of one attempt. *)
Definition attemptBody (url : string) : M completion :=
  admission ;;;
  response <- globalFetch env url ;;
  if status response =? 429 then
    handleRateLimitResponse response ;;;
    ret Continued
  else if negb (ok response) then
    throw (HttpError (status response))
  else ret (Returned response).

(** The [catch] block of attempt [attempt]. *)
Definition attemptCatch (attempt : Z) : M unit :=
  if attempt <? retryAttempts config - 1
  then sleep (calculateBackoff attempt)
  else ret tt.

(** The [for] loop of [fetch] from attempt [attempt] on; [remaining]
    counts the iterations left, [retryAttempts - attempt] of them. *)
Fixpoint fetchFrom (url : string) (remaining : nat) (attempt : Z)
  (lastError : option Error) : M Response :=
  match remaining with
  | O =>
      throw (match lastError with
             | Some e => e
             | None => ExhaustedError url (retryAttempts config)
             end)
  | S rest =>
      r <- tryCatch
             (c <- attemptBody url ;; ret (inl c))
             (fun error => attemptCatch attempt ;;; ret (inr error)) ;;
      match r with
      | inl (Returned response) => ret response
      | inl Continued => fetchFrom url rest (attempt + 1) lastError
      | inr error => fetchFrom url rest (attempt + 1) (Some error)
      end
  end.

Definition fetch (url : string) : M Response :=
  fetchFrom url (Z.to_nat (retryAttempts config)) 0 None.

Definition fetchJson (url : string) : M (list (Z * Z * Z)) :=
  response <- fetch url ;;
  match bodyItems response with
  | Some items => ret items
  | None => throw JsonError
  end.

Definition fetchText (url : string) : M string :=
  response <- fetch url ;;
  ret (bodyText response).

End Fetcher.

End RateLimitedFetcher.


(* ================================================================== *)
(** * ContentAnalyser.ts *)
(* ================================================================== *)

Module ContentAnalyzer.

Import Runtime RateLimitedFetcher.

Section Analyzer.

Variable env : Env.

(** [fetchContent]: the cleaned text of the page, the empty string when
    the fetch throws. *)
Definition fetchContent (fetcher : RateLimiterConfig) (url : string)
  : M string :=
  tryCatch
    (html <- fetchText env fetcher url ;;
     ret (cleanHtml env html))
    (fun _ => ret EmptyString).

Definition compareSites (current historical : string) : float :=
  compareTwoStrings env current historical.

End Analyzer.

End ContentAnalyzer.

(* ================================================================== *)
(** * WebScraper.ts *)
(* ================================================================== *)

Module WaybackScraper.

Import JS DateModel DateUtils Runtime RateLimitedFetcher ContentAnalyzer.

Record Snapshot : Type := mkSnapshot {
  timestamp : number;
  url : string;
  content : option string;
  similarity : option float
}.

(** A [Date] object is its time value; NaN is the invalid date. *)
Definition Date : Type := number.

Record Change : Type := mkChange {
  date : Date;
  otherDate : Date;
  similarityDrop : float
}.

Record AnalysisResult : Type := mkResult {
  result_url : string;
  firstCapture : Date;
  lastCapture : Date;
  totalCaptures : Z;
  similarSince : option Date;
  similarityScore : float;
  significantChanges : list Change;
  recommendUpdate : bool
}.

Record Scraper : Type := mkScraper {
  target : string;                      (* this.url *)
  similarityThreshold : float;
  fetcher : RateLimiterConfig
}.

Definition baseUrl : string := "https://web.archive.org".

Definition new (url : string) (similarityThreshold : option float)
  (rateLimiterConfig : option PartialConfig) : Scraper :=
  mkScraper url
    (match similarityThreshold with Some t => t | None => 0.85%float end)
    (RateLimitedFetcher.new rateLimiterConfig).

(** JavaScript truthiness of a number: neither zero nor NaN. *)
Definition truthy (x : float) : bool :=
  negb (PrimFloat.eqb x 0%float) && negb (PrimFloat.is_nan x).

(** ** The backward scan of [analyzeWebsiteHistory] *)

Record ScanState : Type := mkScan {
  scan_changes : list Change;
  scan_similarSince : option Date;
  previousSimilarity : float;
  previousDate : Date
}.

Definition scanInit (now : Date) : ScanState :=
  mkScan [] None 1%float now.

(** One iteration of the [for] loop on [capture]. *)
Definition scanStep (threshold : float) (st : ScanState) (capture : Snapshot)
  : ScanState :=
  match similarity capture with
  | Some s =>
      if truthy s then
        let changes :=
          if PrimFloat.ltb 0.15%float (PrimFloat.sub (previousSimilarity st) s)
          then scan_changes st ++
               [mkChange (Date_ofNumber (timestamp capture))
                         (previousDate st)
                         (PrimFloat.sub (previousSimilarity st) s)]
          else scan_changes st in
        let since :=
          if PrimFloat.leb threshold s
          then Some (Date_ofNumber (timestamp capture))
          else scan_similarSince st in
        mkScan changes since s (Date_ofNumber (timestamp capture))
      else st
  | None => st
  end.

(** The loop runs from index [length - 1] down to index 0. *)
Definition scan (threshold : float) (now : Date)
  (analyzedCaptures : list Snapshot) : ScanState :=
  fold_left (scanStep threshold) (rev analyzedCaptures) (scanInit now).

Fixpoint floatOfNat (n : nat) : float :=
  match n with
  | O => 0%float
  | S k => PrimFloat.add (floatOfNat k) 1%float
  end.

(** [capture.similarity || 0]. *)
Definition similarityOrZero (capture : Snapshot) : float :=
  match similarity capture with
  | Some s => if truthy s then s else 0%float
  | None => 0%float
  end.

Definition averageSimilarity (analyzedCaptures : list Snapshot) : float :=
  PrimFloat.div
    (fold_left (fun sum capture => PrimFloat.add sum (similarityOrZero capture))
               analyzedCaptures 0%float)
    (floatOfNat (List.length analyzedCaptures)).

(** [a < b] on numbers: false when either is NaN. *)
Definition number_ltb (a b : number) : bool :=
  match a, b with
  | Num x, Num y => x <? y
  | _, _ => false
  end.

(** [twoYearsAgo] of [shouldRecommendUpdate]: the date [now] after
    [setFullYear(getFullYear() - 2)]. *)
Definition twoYearsAgo (zone : Zone) (now : Z) : Date :=
  setFullYear zone now (getFullYear zone now - 2).

(** [shouldRecommendUpdate], [now] being the time value of [new Date()]. *)
Definition recommendAt (zone : Zone) (now : Z) (similarSince : option Date)
  (averageSimilarity : float) : bool :=
  match similarSince with
  | None => false
  | Some since =>
      number_ltb since (twoYearsAgo zone now)
      && PrimFloat.ltb 0.85%float averageSimilarity
  end.

(** [Array.prototype.sort] with the comparator [a.timestamp - b.timestamp]:
    a stable sort; a NaN difference counts as zero. *)
Definition before (a b : Snapshot) : bool :=
  match timestamp a, timestamp b with
  | Num x, Num y => x - y <? 0
  | _, _ => false
  end.

Fixpoint insertSorted (x : Snapshot) (l : list Snapshot) : list Snapshot :=
  match l with
  | [] => [x]
  | y :: r => if before x y then x :: y :: r else y :: insertSorted x r
  end.

Definition sortByTimestamp (l : list Snapshot) : list Snapshot :=
  fold_left (fun acc x => insertSorted x acc) l [].

(** [Map.prototype.set] on an insertion-ordered map. *)
Fixpoint mapSet (key : string) (value : list Snapshot)
  (m : list (string * list Snapshot)) : list (string * list Snapshot) :=
  match m with
  | [] => [(key, value)]
  | (k, v) :: r =>
      if String.eqb k key then (k, value) :: r
      else (k, v) :: mapSet key value r
  end.

Section Scraper.

Variable env : Env.
Variable this : Scraper.

Definition encodeUrl : string := encodeURIComponent env (target this).

Definition createWaybackUrl (date : string) (time : number) : string :=
  let timeStr := padStart0 6 (toString time) in
  (baseUrl ++ "/web/" ++ date ++ timeStr ++ "/" ++ target this)%string.

Definition getDayCaptures (identifier : string) : M (list Snapshot) :=
  let timeUrl :=
    (baseUrl ++ "/__wb/calendarcaptures/2?url=" ++ encodeUrl
     ++ "&date=" ++ identifier)%string in
  tryCatch
    (items <- fetchJson env (fetcher this) timeUrl ;;
     ret (map (fun '(time, _, _) =>
                 mkSnapshot (createTimestamp (zone env) identifier (Num time))
                            (createWaybackUrl identifier (Num time))
                            None None)
              (filter (fun '(_, status, _) => status =? 200) items)))
    (fun _ => ret []).

(** The [for ... of data.items] loop of [getYearCaptures], with its
    [continue] and its [break]. *)
Fixpoint yearLoop (year maxYearlyCaptures : Z) (items : list (Z * Z * Z))
  (captures : list (string * list Snapshot))
  : M (list (string * list Snapshot)) :=
  match items with
  | [] => ret captures
  | (dateNum, status, count) :: rest =>
      if (status =? 301) || (count =? 0) then
        yearLoop year maxYearlyCaptures rest captures
      else
        let '(month, day) := parseCalendarDate (Num dateNum) in
        let identifier := formatIdentifier (Num year) month day in
        dayCaptures <- getDayCaptures identifier ;;
        if (0 <? List.length dayCaptures)%nat then
          let captures' := mapSet identifier dayCaptures captures in
          if Z.of_nat (List.length captures') >=? maxYearlyCaptures
          then ret captures'
          else yearLoop year maxYearlyCaptures rest captures'
        else yearLoop year maxYearlyCaptures rest captures
  end.

Definition getYearCaptures (year maxYearlyCaptures : Z)
  : M (list (string * list Snapshot)) :=
  let calendarUrl :=
    (baseUrl ++ "/__wb/calendarcaptures/2?url=" ++ encodeUrl
     ++ "&date=" ++ toString (Num year) ++ "&groupby=day")%string in
  tryCatch
    (items <- fetchJson env (fetcher this) calendarUrl ;;
     yearLoop year maxYearlyCaptures items [])
    (fun error => throw error).

(** The loop of [getAllCaptures] over the years [year], [year - 1], ...;
    [remaining] counts the years left, down to [startYear]. *)
Fixpoint yearsFrom (maxYearlyCaptures : Z) (remaining : nat) (year : Z)
  (allCaptures : list Snapshot) : M (list Snapshot) :=
  match remaining with
  | O => ret allCaptures
  | S rest =>
      more <- tryCatch
                (yearCaptures <- getYearCaptures year maxYearlyCaptures ;;
                 ret (List.concat (map snd yearCaptures)))
                (fun _ => ret []) ;;
      yearsFrom maxYearlyCaptures rest (year - 1) (allCaptures ++ more)
  end.

Definition getAllCaptures (yearRange maxYearlyCaptures : Z)
  : M (list Snapshot) :=
  now <- Date_now env ;;
  let currentYear := getFullYear (zone env) now in
  let startYear := currentYear - yearRange in
  allCaptures <- yearsFrom maxYearlyCaptures
                   (Z.to_nat (currentYear - startYear + 1)) currentYear [] ;;
  ret (sortByTimestamp allCaptures).

(** The first loop of [analyzeWebsiteHistory]. *)
Fixpoint analyzeCaptures (currentContent : string) (captures : list Snapshot)
  : M (list Snapshot) :=
  match captures with
  | [] => ret []
  | capture :: rest =>
      content <- fetchContent env (fetcher this) (url capture) ;;
      let similarity := compareSites env currentContent content in
      analyzed <- analyzeCaptures currentContent rest ;;
      ret (mkSnapshot (timestamp capture) (url capture)
                      (Some content) (Some similarity) :: analyzed)
  end.

Definition shouldRecommendUpdate (similarSince : option Date)
  (averageSimilarity : float) : M bool :=
  match similarSince with
  | None => ret false
  | Some _ =>
      now <- Date_now env ;;
      ret (recommendAt (zone env) now similarSince averageSimilarity)
  end.

(** [analyzeWebsiteHistory] once the current page's text is at hand. *)
Definition analyzeAgainst (currentContent : string)
  (yearRange maxYearlyCaptures : Z) : M AnalysisResult :=
  captures <- getAllCaptures yearRange maxYearlyCaptures ;;
  analyzedCaptures <- analyzeCaptures currentContent captures ;;
  now <- Date_now env ;;
  let st := scan (similarityThreshold this) (Num now) analyzedCaptures in
  match captures with
  | first :: _ =>
      let firstCapture := Date_ofNumber (timestamp first) in
      let lastCapture := Date_ofNumber (timestamp (last captures first)) in
      let averageSimilarity := averageSimilarity analyzedCaptures in
      recommend <- shouldRecommendUpdate (scan_similarSince st)
                                         averageSimilarity ;;
      ret (mkResult (target this) firstCapture lastCapture
                    (Z.of_nat (List.length captures))
                    (scan_similarSince st) averageSimilarity
                    (scan_changes st) recommend)
  | [] =>
      (* captures[0] is undefined: reading its timestamp throws *)
      throw (TypeError "Cannot read properties of undefined (reading 'timestamp')")
  end.

Definition analyzeWebsiteHistory (yearRange maxYearlyCaptures : Z)
  : M AnalysisResult :=
  currentContent <- fetchContent env (fetcher this) (target this) ;;
  analyzeAgainst currentContent yearRange maxYearlyCaptures.

End Scraper.

End WaybackScraper.

(* ================================================================== *)
(** * index.ts *)
(* ================================================================== *)

Module Index.

Import Runtime RateLimitedFetcher WaybackScraper.

(** [results.set(url, result)] on an insertion-ordered map. *)
Fixpoint resultsSet (key : string) (value : AnalysisResult)
  (m : list (string * AnalysisResult)) : list (string * AnalysisResult) :=
  match m with
  | [] => [(key, value)]
  | (k, v) :: r =>
      if String.eqb k key then (k, value) :: r
      else (k, v) :: resultsSet key value r
  end.

Section Index.

Variable env : Env.

(** [new WaybackScraper(url, 0.85, { maxRequestsPerMinute: 10,
    retryAttempts: 6, retryDelay: 5000 })]: the scraper gets a fetcher of
    its own, whose window starts empty. *)
Definition newScraper (url : string) : M Scraper :=
  setTimestamps [] ;;;
  ret (WaybackScraper.new url (Some 0.85%float)
         (Some (mkPartial (Some 10) (Some 6) (Some 5000)))).

Definition analyzeWebsite (url : string) (yearRange maxYearlyCaptures : Z)
  : M AnalysisResult :=
  scraper <- newScraper url ;;
  startTime <- Date_now env ;;
  tryCatch
    (analysis <- analyzeWebsiteHistory env scraper yearRange
                                       maxYearlyCaptures ;;
     _ <- Date_now env ;;          (* the "Analysis Time" line *)
     ret analysis)
    (fun error => throw error).

(** The [for ... of urls] loop of [analyzeBatch]. *)
Fixpoint batchLoop (yearRange : Z) (urls : list string)
  (results : list (string * AnalysisResult))
  : M (list (string * AnalysisResult)) :=
  match urls with
  | [] => ret results
  | url :: rest =>
      results' <- tryCatch
                    (result <- analyzeWebsite url yearRange 1 ;;
                     ret (resultsSet url result results))
                    (fun _ => ret results) ;;
      batchLoop yearRange rest results'
  end.

Definition analyzeBatch (urls : list string) (yearRange : Z)
  : M (list (string * AnalysisResult)) :=
  batchLoop yearRange urls [].

End Index.

End Index.

(* ================================================================== *)
(** * Vocabulary of the statements *)
(* ================================================================== *)

Import JS DateModel DateUtils Runtime RateLimitedFetcher ContentAnalyzer.
Import WaybackScraper Index.

(** ** Calendar dates and times of day *)

(** Days of month [m] (1 to 12) of year [y]. *)
Definition DaysInMonth (y m : Z) : Z :=
  match m with
  | 1 => 31
  | 2 => if DaysInYear y =? 366 then 29 else 28
  | 3 => 31
  | 4 => 30
  | 5 => 31
  | 6 => 30
  | 7 => 31
  | 8 => 31
  | 9 => 30
  | 10 => 31
  | 11 => 30
  | 12 => 31
  | _ => 0
  end.

(** A date the identifier format YYYYMMDD can carry. *)
Definition validDate (y m d : Z) : Prop :=
  1000 <= y <= 9999 /\ 1 <= m <= 12 /\ 1 <= d <= DaysInMonth y m.

Definition validTime (h mi s : Z) : Prop :=
  0 <= h <= 23 /\ 0 <= mi <= 59 /\ 0 <= s <= 59.

(** The compact encodings of the capture index: MMDD and HHMMSS. *)
Definition compactDate (m d : Z) : Z := m * 100 + d.
Definition timeCode (h mi s : Z) : Z := h * 10000 + mi * 100 + s.

(** ** Finite checks by enumeration *)

(** The integers from [lo] to [hi], both included. *)
Definition zrange (lo hi : Z) : list Z :=
  map (fun k => lo + Z.of_nat k) (seq 0 (Z.to_nat (hi - lo + 1))).

Definition number_eqb (a b : number) : bool :=
  match a, b with
  | Num x, Num y => x =? y
  | NaN, NaN => true
  | _, _ => false
  end.

Definition checkCompact (m d : Z) : bool :=
  let '(m', d') := parseCalendarDate (Num (compactDate m d)) in
  number_eqb m' (Num m) && number_eqb d' (Num d).

Definition checkYear (y : Z) : bool :=
  (String.length (toString (Num y)) =? 4)%nat
  && number_eqb (parseInt (toString (Num y))) (Num y).

Definition checkTwoDigits (n : Z) : bool :=
  let s := padStart0 2 (toString (Num n)) in
  (String.length s =? 2)%nat && number_eqb (parseInt s) (Num n).

Definition checkTime (h mi s : Z) : bool :=
  let timeStr := padStart0 6 (toString (Num (timeCode h mi s))) in
  number_eqb (parseInt (slice 0 2 timeStr)) (Num h)
  && number_eqb (parseInt (slice 2 4 timeStr)) (Num mi)
  && number_eqb (parseInt (sliceFrom 4 timeStr)) (Num s).

(** ** The change-detection scan *)

(** The capture [c] once scored with [s]. *)
Definition withScore (c : Snapshot) (s : float) : Snapshot :=
  mkSnapshot (timestamp c) (url c) (content c) (Some s).

Definition dateOf (c : Snapshot) : Date := Date_ofNumber (timestamp c).

(** The step of the walk as the specification words it: every snapshot
    with a defined score, whatever the score, is compared with the previous
    one, may set [similarSince], and becomes the previous one. *)
Definition specStep (threshold : float) (st : ScanState) (capture : Snapshot)
  : ScanState :=
  match similarity capture with
  | Some s =>
      let drop := PrimFloat.sub (previousSimilarity st) s in
      mkScan (if PrimFloat.ltb 0.15%float drop
              then scan_changes st ++ [mkChange (dateOf capture)
                                                (previousDate st) drop]
              else scan_changes st)
             (if PrimFloat.leb threshold s then Some (dateOf capture)
              else scan_similarSince st)
             s (dateOf capture)
  | None => st
  end.

(** The guard of the loop body, [if (capture.similarity)]. *)
Definition passesGuard (c : Snapshot) : bool :=
  match similarity c with
  | Some s => truthy s
  | None => false
  end.

(** A snapshot whose score meets the threshold, as the specification words
    it, and as the guard of the loop has it: the score is also truthy. *)
Definition meetsThreshold (threshold : float) (c : Snapshot) : bool :=
  match similarity c with
  | Some s => PrimFloat.leb threshold s
  | None => false
  end.

Definition qualifies (threshold : float) (c : Snapshot) : bool :=
  match similarity c with
  | Some s => truthy s && PrimFloat.leb threshold s
  | None => false
  end.

(** [a <= b] on numbers: false when either is NaN. *)
Definition number_leb (a b : number) : bool :=
  match a, b with
  | Num x, Num y => x <=? y
  | _, _ => false
  end.

(** The list is sorted by time, oldest first, no timestamp being NaN. *)
Fixpoint ascendingFrom (lo : Z) (l : list Snapshot) : Prop :=
  match l with
  | [] => True
  | c :: r =>
      match timestamp c with
      | Num t => lo <= t /\ ascendingFrom t r
      | NaN => False
      end
  end.

Definition ascending (l : list Snapshot) : Prop :=
  match l with
  | [] => True
  | c :: r =>
      match timestamp c with
      | Num t => ascendingFrom t r
      | NaN => False
      end
  end.

(** [r] is the date of the oldest snapshot of [l] that satisfies [meets],
    or nothing when no snapshot does. *)
Definition oldestMeeting (meets : Snapshot -> bool) (l : list Snapshot)
  (r : option Date) : Prop :=
  (exists c0,
      In c0 l /\ meets c0 = true
      /\ (forall c, In c l -> meets c = true ->
                    number_leb (timestamp c0) (timestamp c) = true)
      /\ r = Some (dateOf c0))
  \/ ((forall c, In c l -> meets c = false) /\ r = None).

(** The worked example of the specification: four captures scored 0.95,
    0.78, 0.60 and 0.90, oldest first. *)
Definition workedExample (c1 c2 c3 c4 : Snapshot) : list Snapshot :=
  [withScore c1 0.95%float; withScore c2 0.78%float;
   withScore c3 0.60%float; withScore c4 0.90%float].

(** What the specification expects of the worked example: one event,
    between the third and the second capture, of drop 0.18, and
    [similarSince] at the first capture. *)
Definition workedExampleExpected (c1 c2 c3 c4 : Snapshot) (st : ScanState)
  : Prop :=
  (exists e,
      scan_changes st = [e]
      /\ ((date e = dateOf c3 /\ otherDate e = dateOf c2)
          \/ (date e = dateOf c2 /\ otherDate e = dateOf c3))
      /\ similarityDrop e = 0.18%float)
  /\ scan_similarSince st = Some (dateOf c1).

Definition capturedAt (t : Z) : Snapshot :=
  mkSnapshot (Num t) EmptyString None None.

(** ** The retry loop *)

(** An attempt fails when the transport rejects or answers with a status
    that is not a success (429 included). *)
Definition failing (o : outcome) : Prop :=
  match o with
  | Rejected _ => True
  | Replied r => ok r = false
  end.

(** The error an attempt leaves in [lastError]: none on a 429, which
    [continue]s without passing through the [catch] block. *)
Definition causeOf (o : outcome) : option Error :=
  match o with
  | Rejected c => Some (NetworkError c)
  | Replied r =>
      if status r =? 429 then None
      else if ok r then None
      else Some (HttpError (status r))
  end.

(** The last cause captured over the [n] transport calls from the
    [first]-th on, [acc] being the one captured before. *)
Fixpoint lastCause (env : Env) (url : string) (first n : nat)
  (acc : option Error) : option Error :=
  match n with
  | O => acc
  | S k =>
      lastCause env url (S first) k
                (match causeOf (transport env first url) with
                 | Some e => Some e
                 | None => acc
                 end)
  end.

(** What [fetch] throws once the attempts are used up. *)
Definition exhaustedWith (config : RateLimiterConfig) (url : string)
  (cause : option Error) : Error :=
  match cause with
  | Some e => e
  | None => ExhaustedError url (retryAttempts config)
  end.

(** A computation that returns, and leaves the count of transport calls
    as it was. *)
Definition quiet (m : M unit) : Prop :=
  forall w, exists w', m w = (Ok tt, w') /\ calls w' = calls w.

(** ** Sample worlds *)

Definition sampleResponse (status : Z) (items : list (Z * Z * Z)) : Response :=
  mkResponse status None "<html>page</html>" (Some items).

Definition sampleSimilarity (a b : string) : float :=
  if String.eqb a b then 1%float else 0.5%float.

(** A world in UTC where one millisecond passes between two readings of
    the clock, with the transport given. *)
Definition sampleEnv (transport : nat -> string -> outcome) : Env :=
  mkEnv (fixedZone 0) (fun _ => 1%nat) transport (fun s => s) (fun s => s)
        sampleSimilarity.

(** The first [k] calls are rejected, the later ones answered with [r]. *)
Definition flakyTransport (k : nat) (r : Response) (n : nat) (_ : string)
  : outcome :=
  if (n <? k)%nat then Rejected "ECONNRESET" else Replied r.

Definition deadTransport (_ : nat) (_ : string) : outcome :=
  Rejected "ENOTFOUND".

(** ** The rolling window *)

(** [x] lies in the trailing window of 60000 ms that ends at [t]. *)
Definition inWindow (t x : Z) : bool := (t - 60000 <? x) && (x <=? t).

(** Number of timestamps of [l] within the window that ends at [t]. *)
Definition countIn (t : Z) (l : list Z) : nat :=
  List.length (filter (inWindow t) l).

(** The worlds one fetcher can be in: fresh; after an admission; after
    anything else that lets time pass and leaves the window alone (a
    transport call, a timer, a reading of the clock). *)
Inductive Reachable (env : Env) (config : RateLimiterConfig)
  : World -> Prop :=
| reach_fresh t0 : Reachable env config (initialWorld t0)
| reach_admission w w' :
    Reachable env config w ->
    admission env config w = (Ok tt, w') ->
    Reachable env config w'
| reach_idle w w' :
    Reachable env config w ->
    clock w <= clock w' ->
    requestTimestamps w' = requestTimestamps w ->
    issued w' = issued w ->
    Reachable env config w'.

(** What the window keeps at time [now]. *)
Definition keptAt (now : Z) (stamps : list Z) : list Z :=
  filter (fun timestamp => now - 60000 <? timestamp) stamps.

(** The invariant of the window: nothing recorded lies in the future; the
    window holds every recorded timestamp that is less than 60000 ms old;
    no trailing window of the timeline holds more than [max] timestamps. *)
Definition WindowInv (max : Z) (w : World) : Prop :=
  (forall x, In x (issued w) -> x <= clock w)
  /\ (forall x, In x (requestTimestamps w) -> x <= clock w)
  /\ (forall p : Z -> bool,
         (forall x, p x = true -> clock w - 60000 < x) ->
         List.length (filter p (issued w))
         = List.length (filter p (requestTimestamps w)))
  /\ (forall t, Z.of_nat (countIn t (issued w)) <= max).

(** A computation that lets time pass and leaves the window alone. *)
Definition idle {A} (m : M A) : Prop :=
  forall w r w',
    m w = (r, w') ->
    clock w <= clock w'
    /\ requestTimestamps w' = requestTimestamps w
    /\ issued w' = issued w.

(** The index answers every query with one capture: for a year, the first
    of January with 5 captures; for a day, one capture at 00:01:01. *)
Definition oneCapture : Response := sampleResponse 200 [(101, 200, 5)].

(** The index answers every query with no capture at all. *)
Definition emptyIndex (_ : nat) (_ : string) : outcome :=
  Replied (sampleResponse 200 []).

(** 2023-11-14T22:13:20Z. *)
Definition sampleStart : World := initialWorld 1700000000000.

Definition sampleScraper : Scraper :=
  WaybackScraper.new "https://example.com" None None.

Definition undefinedTimestamp : Error :=
  TypeError "Cannot read properties of undefined (reading 'timestamp')".

(* ================================================================== *)
(** * Vocabulary of the further properties *)
(* ================================================================== *)

(** A computation that never throws. *)
Definition total {A} (m : M A) : Prop :=
  forall w, exists a w', m w = (Ok a, w').

(** An attempt that ends in the [catch] block: the transport rejects, or
    answers with a status that is neither a success nor 429. *)
Definition hardFailing (o : outcome) : Prop :=
  match o with
  | Rejected _ => True
  | Replied r => (status r =? 429) = false /\ ok r = false
  end.

(** The errors [fetch] can throw for [url]. *)
Definition fetchError (config : RateLimiterConfig) (url : string) (e : Error)
  : Prop :=
  match e with
  | NetworkError _ => True
  | HttpError s => s <> 429 /\ ~ (200 <= s <= 299)
  | ExhaustedError u n => u = url /\ n = retryAttempts config
  | JsonError => False
  | TypeError _ => False
  end.

(** The timers of the exponential backoff, most recent first: one after
    every attempt but the last. *)
Definition backoffSchedule (config : RateLimiterConfig) : list Z :=
  rev (map (calculateBackoff config) (zrange 0 (retryAttempts config - 2))).

(** ** The capture index *)

(** The entries of a day's answer that [getDayCaptures] keeps. *)
Definition is200 (item : Z * Z * Z) : bool :=
  let '(_, status, _) := item in status =? 200.

(** The entries of a year's answer that [getYearCaptures] passes over. *)
Definition skipped (item : Z * Z * Z) : bool :=
  let '(_, status, count) := item in (status =? 301) || (count =? 0).

(** The day identifier [getYearCaptures] makes of an entry. *)
Definition identifierOf (year : Z) (item : Z * Z * Z) : string :=
  let '(dateNum, _, _) := item in
  let '(month, day) := parseCalendarDate (Num dateNum) in
  formatIdentifier (Num year) month day.

Definition dayUrl (env : Env) (this : Scraper) (identifier : string)
  : string :=
  (baseUrl ++ "/__wb/calendarcaptures/2?url=" ++ encodeUrl env this
   ++ "&date=" ++ identifier)%string.

Definition yearUrl (env : Env) (this : Scraper) (year : Z) : string :=
  (baseUrl ++ "/__wb/calendarcaptures/2?url=" ++ encodeUrl env this
   ++ "&date=" ++ toString (Num year) ++ "&groupby=day")%string.

(** The snapshot [getDayCaptures] makes of an entry. *)
Definition snapshotOf (env : Env) (this : Scraper) (identifier : string)
  (item : Z * Z * Z) : Snapshot :=
  let '(time, _, _) := item in
  mkSnapshot (createTimestamp (zone env) identifier (Num time))
             (createWaybackUrl this identifier (Num time)) None None.

(** What the loop of [getYearCaptures] keeps true of the map: distinct
    keys, made of entries that are not passed over; no empty day. *)
Definition yearMapInv (year : Z) (items : list (Z * Z * Z))
  (captures : list (string * list Snapshot)) : Prop :=
  NoDup (map fst captures)
  /\ Forall (fun kv => snd kv <> []) captures
  /\ forall key, In key (map fst captures) ->
                 exists item, In item items /\ skipped item = false
                              /\ key = identifierOf year item.

(** The timestamp is a number, not NaN. *)
Definition hasTime (c : Snapshot) : Prop :=
  match timestamp c with
  | Num _ => True
  | NaN => False
  end.

(** [a] is not after [b]. *)
Definition notAfter (a b : Snapshot) : Prop :=
  number_leb (timestamp a) (timestamp b) = true.

(** Every call of the transport fails. *)
Definition networkDown (env : Env) : Prop :=
  forall k url, failing (transport env k url).

(** ** The result of the analysis *)

(** What holds of every significant change that the walk over [l]
    records: its drop is above the threshold of 0.15; it is dated at a
    capture that passes the guard; its other date is [now] or the date of
    such a capture. *)
Definition changeOk (now : Date) (l : list Snapshot) (e : Change) : Prop :=
  PrimFloat.ltb 0.15%float (similarityDrop e) = true
  /\ (exists c, In c l /\ passesGuard c = true /\ date e = dateOf c)
  /\ (otherDate e = now
      \/ exists c, In c l /\ passesGuard c = true /\ otherDate e = dateOf c).

(** ** The batch of index.ts *)

(** What holds of every entry of the map that [analyzeBatch] returns: the
    result stored under a key is the analysis of that very URL, over at
    least one capture. *)
Definition entryOk (entry : string * AnalysisResult) : Prop :=
  result_url (snd entry) = fst entry /\ 1 <= totalCaptures (snd entry).

(** The number of calls of the transport that one URL costs when every
    call fails: the live page and each year, six attempts each. *)
Definition attemptsPerUrl (yearRange : Z) : nat :=
  ((1 + Z.to_nat (yearRange + 1)) * 6)%nat.

(** ** Calendar order *)

(** The fourteen digits YYYYMMDDhhmmss of a capture, read as one number. *)
Definition stamp14 (y m d h mi s : Z) : Z :=
  (y * 10000 + compactDate m d) * 1000000 + timeCode h mi s.

(** [parseCalendarDate] on a value of at most four digits. *)
Definition checkFourDigits (n : Z) : bool :=
  let '(month, day) := parseCalendarDate (Num n) in
  number_eqb month (Num (n / 100)) && number_eqb day (Num (n mod 100)).

(** The 29th of February, in the fields of [getMonth] and [getDate]. *)
Definition isLeapDay (month date : Z) : bool :=
  (month =? 1) && (date =? 29).

(** ** The order of the window *)

(** The window and the timeline are in the order of time: the window
    oldest first, the timeline newest first; nothing in them lies in the
    future; and the window holds recorded timestamps only. *)
Definition Chronological (w : World) : Prop :=
  StronglySorted Z.le (requestTimestamps w)
  /\ StronglySorted Z.ge (issued w)
  /\ (forall x, In x (requestTimestamps w) -> x <= clock w)
  /\ (forall x, In x (issued w) -> x <= clock w)
  /\ incl (requestTimestamps w) (issued w).

(** Three admissions at once under a budget of two, in the sample world. *)
Definition thirdAdmission : World :=
  let config := mkConfig 2 3 5000 in
  let env := sampleEnv deadTransport in
  snd (admission env config
         (snd (admission env config
                 (snd (admission env config (initialWorld 0)))))).

(** ** The first loop of the analysis *)


(** ** Local time *)

(** The local time value of calendar components: what
    [new Date(y, m - 1, d, h, mi, s)] has before it is turned into an
    instant. *)
Definition localInstant (y m d h mi s : Z) : Z :=
  MakeDate (MakeDay y (m - 1) d) (MakeTime h mi s 0).

(** The local time value [L] is one that the clocks of the zone show:
    the instant it is read as shows [L] again.  A local time that the
    clocks skip when they are moved forward is not. *)
Definition existsLocally (zone : Zone) (L : Z) : Prop :=
  LocalTime zone (UTC zone L) = L.

(** Europe/Copenhagen in 2024: one hour east of UTC, two hours from
    2024-03-31T01:00Z to 2024-10-27T01:00Z.  The local times from 02:00 to
    03:00 on the 31st of March are skipped and read with the offset of
    one hour; those from 02:00 to 03:00 on the 27th of October come twice
    and are read with the offset of two hours. *)
Definition copenhagen : Zone :=
  mkZone
    (fun t => if (1711846800000 <=? t) && (t <? 1729990800000)
              then 7200000 else 3600000)
    (fun L => if (1711846800000 + 7200000 <=? L)
                 && (L <? 1729990800000 + 7200000)
              then 7200000 else 3600000).

(** The days from a date of the year [y - 2] to the same date of the year
    [y], for a date in the month [m] (0 is January): the days of the two
    years between, with the 29th of February of [y] in when the date comes
    after it, and the one of [y - 2] out when the date comes after it. *)
Definition leapDays (y : Z) : Z := if DaysInYear y =? 366 then 1 else 0.

Definition twoYearsOfDays (y m : Z) : Z :=
  DaysInYear (y - 2) + DaysInYear (y - 1)
  + (if 2 <=? m then leapDays y - leapDays (y - 2) else 0).

(** The local time of [now], two calendar years earlier: the same time of
    day of the same date, as many days back as the two years have. *)
Definition twoYearsBack (zone : Zone) (now : Z) : Z :=
  LocalTime zone now
  - twoYearsOfDays (getFullYear zone now) (getMonth zone now) * msPerDay.

(* ================================================================== *)
(** * The calendar *)
(* ================================================================== *)

Ltac zdiv := Z.to_euclidean_division_equations; lia.

Ltac eval_dbm :=
  repeat match goal with
         | |- context [daysBeforeMonth ?a ?b] =>
             let v := eval vm_compute in (daysBeforeMonth a b) in
             change (daysBeforeMonth a b) with v
         end.

Ltac split_ltb :=
  repeat match goal with
         | |- context [?a <? ?b] =>
             destruct (Z.ltb_spec a b); try (exfalso; lia)
         end.

Section Calendar.

Lemma leap_step_4 y :
  (y + 1 - 1969) / 4
  = (y - 1969) / 4 + (if Z.modulo y 4 =? 0 then 1 else 0).
Proof. destruct (Z.eqb_spec (Z.modulo y 4) 0); zdiv. Qed.

Lemma leap_step_100 y :
  (y + 1 - 1901) / 100
  = (y - 1901) / 100 + (if Z.modulo y 100 =? 0 then 1 else 0).
Proof. destruct (Z.eqb_spec (Z.modulo y 100) 0); zdiv. Qed.

Lemma leap_step_400 y :
  (y + 1 - 1601) / 400
  = (y - 1601) / 400 + (if Z.modulo y 400 =? 0 then 1 else 0).
Proof. destruct (Z.eqb_spec (Z.modulo y 400) 0); zdiv. Qed.

(** A year is as long as [DaysInYear] says. *)
Lemma DayFromYear_step y :
  DayFromYear (y + 1) = DayFromYear y + DaysInYear y.
Proof.
  unfold DayFromYear, DaysInYear.
  rewrite leap_step_4, leap_step_100, leap_step_400.
  assert (H4 : Z.modulo y 4 = Z.modulo (Z.modulo y 100) 4)
    by (symmetry; apply Z.mod_mod_divide; exists 25; lia).
  assert (H100 : Z.modulo y 100 = Z.modulo (Z.modulo y 400) 100)
    by (symmetry; apply Z.mod_mod_divide; exists 4; lia).
  destruct (Z.eqb_spec (Z.modulo y 4) 0) as [E4|E4];
    destruct (Z.eqb_spec (Z.modulo y 100) 0) as [E100|E100];
    destruct (Z.eqb_spec (Z.modulo y 400) 0) as [E400|E400];
    cbn [negb]; try lia;
    try (rewrite E400, Zmod_0_l in H100; lia);
    try (rewrite E100, Zmod_0_l in H4; lia).
Qed.

Lemma DaysInYear_range y : 365 <= DaysInYear y <= 366.
Proof. unfold DaysInYear. repeat (destruct (_ =? _); cbn [negb]); lia. Qed.

(** [DayFromYear] stays within 1.5 days of the mean-year line. *)
Lemma DayFromYear_estimate y :
  146097 * (y - 1970) - 600 <= 400 * DayFromYear y
  <= 146097 * (y - 1970) + 600.
Proof. unfold DayFromYear. zdiv. Qed.

Lemma DayFromYear_grows (n : nat) y :
  DayFromYear y + 365 * Z.of_nat n <= DayFromYear (y + Z.of_nat n).
Proof.
  induction n as [|n IH].
  - change (Z.of_nat 0) with 0. replace (y + 0) with y by lia. lia.
  - replace (y + Z.of_nat (S n)) with (y + Z.of_nat n + 1) by lia.
    rewrite DayFromYear_step.
    pose proof (DaysInYear_range (y + Z.of_nat n)). lia.
Qed.

Lemma DayFromYear_mono a b : a <= b -> DayFromYear a <= DayFromYear b.
Proof.
  intros Hab.
  pose proof (DayFromYear_grows (Z.to_nat (b - a)) a) as H.
  replace (a + Z.of_nat (Z.to_nat (b - a))) with b in H by lia. lia.
Qed.

(** [YearFromDay d] is the year that contains day [d]. *)
Lemma YearFromDay_bounds d :
  DayFromYear (YearFromDay d) <= d < DayFromYear (YearFromDay d + 1).
Proof.
  unfold YearFromDay.
  set (y0 := 1970 + d * 400 / 146097).
  pose proof (DayFromYear_estimate (y0 - 1)) as Em.
  pose proof (DayFromYear_estimate (y0 + 2)) as Ep.
  pose proof (DayFromYear_step y0) as S0.
  pose proof (DayFromYear_step (y0 + 1)) as S1.
  pose proof (DayFromYear_step (y0 - 1)) as Sm.
  replace (y0 - 1 + 1) with y0 in Sm by lia.
  replace (y0 + 1 + 1) with (y0 + 2) in S1 by lia.
  assert (Hq : 146097 * (y0 - 1970) <= d * 400
               < 146097 * (y0 - 1970) + 146097)
    by (subst y0; zdiv).
  destruct (Z.leb_spec (DayFromYear (y0 + 1)) d).
  - replace (y0 + 1 + 1) with (y0 + 2) by lia. lia.
  - destruct (Z.leb_spec (DayFromYear y0) d).
    + lia.
    + replace (y0 - 1 + 1) with y0 by lia. lia.
Qed.

Lemma YearFromDay_unique y d :
  DayFromYear y <= d < DayFromYear (y + 1) -> YearFromDay d = y.
Proof.
  intros [Hlo Hhi].
  pose proof (YearFromDay_bounds d) as [Blo Bhi].
  destruct (Z.lt_trichotomy (YearFromDay d) y) as [Hlt | [Heq | Hgt]]; auto.
  - pose proof (DayFromYear_mono (YearFromDay d + 1) y ltac:(lia)). lia.
  - pose proof (DayFromYear_mono (y + 1) (YearFromDay d) ltac:(lia)). lia.
Qed.

Lemma Day_MakeDate D T : 0 <= T < msPerDay -> Day (MakeDate D T) = D.
Proof. unfold Day, MakeDate, msPerDay. intros. zdiv. Qed.

Lemma TimeWithinDay_MakeDate D T :
  0 <= T < msPerDay -> TimeWithinDay (MakeDate D T) = T.
Proof. unfold TimeWithinDay, MakeDate, msPerDay. intros. zdiv. Qed.

(** The month table inverts [daysBeforeMonth]. *)
Lemma monthOfDay_spec (b : bool) (m d : Z) :
  1 <= m <= 12 ->
  1 <= d <= match m with
            | 1 => 31 | 2 => if b then 29 else 28 | 3 => 31 | 4 => 30
            | 5 => 31 | 6 => 30 | 7 => 31 | 8 => 31 | 9 => 30 | 10 => 31
            | 11 => 30 | 12 => 31 | _ => 0 end ->
  let l := if b then 1 else 0 in
  let dw := daysBeforeMonth (m - 1) l + d - 1 in
  monthOfDay dw l = m - 1 /\ 0 <= dw < 365 + l.
Proof.
  intros Hm Hd l dw. subst l dw.
  assert (Hc : m = 1 \/ m = 2 \/ m = 3 \/ m = 4 \/ m = 5 \/ m = 6 \/ m = 7
               \/ m = 8 \/ m = 9 \/ m = 10 \/ m = 11 \/ m = 12) by lia.
  clear Hm. unfold monthOfDay.
  destruct b; decompose [or] Hc; subst m; eval_dbm; cbn iota in Hd.
  all: split_ltb.
  all: lia.
Qed.

(** The calendar fields of the day [MakeDay y (m - 1) d] are [y], [m - 1]
    and [d], whatever the time within the day. *)
Lemma civil_roundtrip y m d T :
  1 <= m <= 12 -> 1 <= d <= DaysInMonth y m -> 0 <= T < msPerDay ->
  let t := MakeDate (MakeDay y (m - 1) d) T in
  YearFromTime t = y /\ MonthFromTime t = m - 1 /\ DateFromTime t = d.
Proof.
  intros Hm Hd HT t.
  assert (HD : Day t = MakeDay y (m - 1) d) by (apply Day_MakeDate; exact HT).
  assert (Hq : (m - 1) / 12 = 0) by zdiv.
  assert (Hr : Z.modulo (m - 1) 12 = m - 1) by zdiv.
  pose proof (DayFromYear_step y) as Hs.
  destruct (monthOfDay_spec (DaysInYear y =? 366) m d Hm Hd) as [HM HR].
  cbv zeta in HM, HR.
  set (l := if DaysInYear y =? 366 then 1 else 0) in *.
  assert (Hl : DaysInYear y = 365 + l).
  { pose proof (DaysInYear_range y). subst l.
    destruct (Z.eqb_spec (DaysInYear y) 366); lia. }
  assert (HMD : MakeDay y (m - 1) d
                = DayFromYear y + (daysBeforeMonth (m - 1) l + d - 1)).
  { unfold MakeDay. rewrite Hq, Hr, Z.add_0_r. fold l. lia. }
  assert (HY : YearFromTime t = y).
  { unfold YearFromTime. rewrite HD. apply YearFromDay_unique.
    rewrite HMD, Hs. lia. }
  assert (HW : DayWithinYear t = daysBeforeMonth (m - 1) l + d - 1).
  { unfold DayWithinYear. rewrite HD, HY, HMD. lia. }
  assert (HL : InLeapYear t = l).
  { unfold InLeapYear. rewrite HY. reflexivity. }
  split; [exact HY | split].
  - unfold MonthFromTime. rewrite HW, HL. exact HM.
  - unfold DateFromTime, MonthFromTime. rewrite HW, HL, HM. lia.
Qed.

(** The clock fields of a time value are those [MakeTime] was given. *)
Lemma clock_roundtrip D h mi s :
  validTime h mi s ->
  let t := MakeDate D (MakeTime h mi s 0) in
  HourFromTime t = h /\ MinFromTime t = mi /\ SecFromTime t = s.
Proof.
  unfold validTime, HourFromTime, MinFromTime, SecFromTime, MakeDate,
    MakeTime, msPerDay, msPerHour, msPerMinute, msPerSecond.
  intros (Hh & Hmi & Hs). cbv zeta.
  repeat split; zdiv.
Qed.

Lemma MakeTime_range h mi s :
  validTime h mi s -> 0 <= MakeTime h mi s 0 < msPerDay.
Proof.
  unfold validTime, MakeTime, msPerDay, msPerHour, msPerMinute, msPerSecond.
  lia.
Qed.

End Calendar.

(* ================================================================== *)
(** * utils/date.ts: the encodings *)
(* ================================================================== *)

Example parseCalendarDate_1231 :
  parseCalendarDate (Num 1231) = (Num 12, Num 31).
Proof. reflexivity. Qed.

Example parseCalendarDate_105 :
  parseCalendarDate (Num 105) = (Num 1, Num 5).
Proof. reflexivity. Qed.

Example formatIdentifier_sample :
  formatIdentifier (Num 2024) (Num 3) (Num 7) = "20240307"%string.
Proof. reflexivity. Qed.

Example createTimestamp_epoch :
  createTimestamp (fixedZone 0) "19700101" (Num 0) = Num 0.
Proof. reflexivity. Qed.

Example createTimestamp_sample :
  (* 2024-02-29T12:34:56Z *)
  createTimestamp (fixedZone 0) "20240229" (Num 123456) = Num 1709210096000.
Proof. vm_compute. reflexivity. Qed.

(** A year of three digits does not survive the identifier: the [reduce]
    takes the first four characters for the year. *)
Example createTimestamp_year_999 :
  formatIdentifier (Num 999) (Num 12) (Num 31) = "9991231"%string
  /\ splitIdentifier 0 (EmptyString, EmptyString, EmptyString) "9991231"
     = ("9991", "23", "1")%string.
Proof. split; reflexivity. Qed.

Section Encoding.

Lemma zrange_complete lo hi x :
  lo <= x <= hi -> In x (zrange lo hi).
Proof.
  intros H. unfold zrange. apply in_map_iff.
  exists (Z.to_nat (x - lo)). split; [lia | apply in_seq; lia].
Qed.

Lemma forallb_zrange (f : Z -> bool) lo hi :
  forallb f (zrange lo hi) = true ->
  forall x, lo <= x <= hi -> f x = true.
Proof.
  intros H x Hx. rewrite forallb_forall in H.
  apply H, zrange_complete, Hx.
Qed.

Lemma number_eqb_eq a b : number_eqb a b = true -> a = b.
Proof.
  destruct a, b; simpl; intros H; try discriminate; try reflexivity.
  apply Z.eqb_eq in H. now subst.
Qed.

Lemma checkCompact_all :
  forallb (fun m => forallb (checkCompact m) (zrange 1 31)) (zrange 1 12)
  = true.
Proof. vm_compute. reflexivity. Qed.

Lemma checkYear_all : forallb checkYear (zrange 1000 9999) = true.
Proof. vm_compute. reflexivity. Qed.

Lemma checkTwoDigits_all : forallb checkTwoDigits (zrange 0 99) = true.
Proof. vm_compute. reflexivity. Qed.

Lemma checkTime_all :
  forallb (fun h =>
    forallb (fun mi => forallb (checkTime h mi) (zrange 0 59)) (zrange 0 59))
    (zrange 0 23) = true.
Proof. vm_compute. reflexivity. Qed.

(** MMDD decodes to the month and the day it was built from. *)
Lemma parseCalendarDate_compact m d :
  1 <= m <= 12 -> 1 <= d <= 31 ->
  parseCalendarDate (Num (compactDate m d)) = (Num m, Num d).
Proof.
  intros Hm Hd.
  pose proof (forallb_zrange _ _ _ checkCompact_all m ltac:(lia)) as H.
  cbv beta in H.
  pose proof (forallb_zrange _ _ _ H d ltac:(lia)) as H'.
  unfold checkCompact in H'.
  destruct (parseCalendarDate (Num (compactDate m d))) as [m' d'].
  apply andb_true_iff in H' as [H1 H2].
  apply number_eqb_eq in H1, H2. now subst.
Qed.

Lemma toString_year y :
  1000 <= y <= 9999 ->
  String.length (toString (Num y)) = 4%nat
  /\ parseInt (toString (Num y)) = Num y.
Proof.
  intros Hy.
  pose proof (forallb_zrange _ _ _ checkYear_all y ltac:(lia)) as H.
  unfold checkYear in H. apply andb_true_iff in H as [H1 H2].
  split; [now apply Nat.eqb_eq | now apply number_eqb_eq].
Qed.

Lemma padStart_twoDigits n :
  0 <= n <= 99 ->
  String.length (padStart0 2 (toString (Num n))) = 2%nat
  /\ parseInt (padStart0 2 (toString (Num n))) = Num n.
Proof.
  intros Hn.
  pose proof (forallb_zrange _ _ _ checkTwoDigits_all n ltac:(lia)) as H.
  unfold checkTwoDigits in H. cbv zeta in H.
  apply andb_true_iff in H as [H1 H2].
  split; [now apply Nat.eqb_eq | now apply number_eqb_eq].
Qed.

Lemma timeCode_fields h mi s :
  validTime h mi s ->
  let timeStr := padStart0 6 (toString (Num (timeCode h mi s))) in
  parseInt (slice 0 2 timeStr) = Num h
  /\ parseInt (slice 2 4 timeStr) = Num mi
  /\ parseInt (sliceFrom 4 timeStr) = Num s.
Proof.
  intros (Hh & Hmi & Hs).
  pose proof (forallb_zrange _ _ _ checkTime_all h ltac:(lia)) as H1.
  cbv beta in H1.
  pose proof (forallb_zrange _ _ _ H1 mi ltac:(lia)) as H2.
  cbv beta in H2.
  pose proof (forallb_zrange _ _ _ H2 s ltac:(lia)) as H3.
  unfold checkTime in H3. cbv zeta in *.
  apply andb_true_iff in H3 as [H3 Hc].
  apply andb_true_iff in H3 as [Ha Hb].
  repeat split; now apply number_eqb_eq.
Qed.

Lemma append_assoc_char (a : string) (c : ascii) (b : string) :
  ((a ++ String c EmptyString) ++ b = a ++ String c b)%string.
Proof. induction a as [|x a IH]; simpl; [reflexivity | now rewrite IH]. Qed.

Lemma append_empty_r (a : string) : (a ++ EmptyString)%string = a.
Proof. induction a as [|x a IH]; simpl; [reflexivity | now rewrite IH]. Qed.

(** From index 6 on, every character goes to the day. *)
Lemma splitIdentifier_tail chars i ys ms ds :
  (6 <= i)%nat ->
  splitIdentifier i (ys, ms, ds) chars = (ys, ms, (ds ++ chars)%string).
Proof.
  revert i ds. induction chars as [|c chars IH]; intros i ds Hi; simpl.
  - now rewrite append_empty_r.
  - destruct (Nat.ltb_spec i 4); [lia |].
    destruct (Nat.ltb_spec i 6); [lia |].
    rewrite IH by lia. now rewrite append_assoc_char.
Qed.

(** The [reduce] of [createTimestamp] cuts a year of four characters and
    a month of two off the identifier. *)
Lemma splitIdentifier_concat (ys ms ds : string) :
  String.length ys = 4%nat -> String.length ms = 2%nat ->
  splitIdentifier 0 (EmptyString, EmptyString, EmptyString)
                  (ys ++ ms ++ ds)%string
  = (ys, ms, ds).
Proof.
  intros Hy Hm.
  destruct ys as [|y1 [|y2 [|y3 [|y4 [|]]]]]; try discriminate.
  destruct ms as [|m1 [|m2 [|]]]; try discriminate.
  cbn -[splitIdentifier].
  cbn [splitIdentifier Nat.ltb Nat.leb String.append].
  now rewrite splitIdentifier_tail by lia.
Qed.

Lemma DaysInMonth_le_31 y m : DaysInMonth y m <= 31.
Proof.
  unfold DaysInMonth.
  destruct m as [|p|p]; try lia.
  do 4 (try destruct p as [p|p|]; try lia);
    destruct (DaysInYear y =? 366); lia.
Qed.

(** The time value [createTimestamp] builds from an identifier made by
    [formatIdentifier] and an HHMMSS code. *)
Lemma createTimestamp_formatIdentifier zone y m d h mi s :
  validDate y m d -> validTime h mi s ->
  createTimestamp zone (formatIdentifier (Num y) (Num m) (Num d))
                  (Num (timeCode h mi s))
  = TimeClip (UTC zone (MakeDate (MakeDay y (m - 1) d) (MakeTime h mi s 0))).
Proof.
  intros (Hy & Hm & Hd) Ht.
  pose proof (DaysInMonth_le_31 y m) as H31.
  destruct (toString_year y Hy) as [Ly Py].
  destruct (padStart_twoDigits m ltac:(lia)) as [Lm Pm].
  destruct (padStart_twoDigits d ltac:(lia)) as [Ld Pd].
  destruct (timeCode_fields h mi s Ht) as (Ph & Pmi & Ps).
  cbv zeta in Ph, Pmi, Ps.
  unfold createTimestamp, formatIdentifier.
  rewrite splitIdentifier_concat by assumption.
  rewrite Ph, Pmi, Ps, Py, Pm, Pd.
  unfold Date_ofFields, lift2.
  destruct (Z.leb_spec y 99); [lia |].
  now rewrite andb_false_r.
Qed.

Lemma DayFromYear_four_digits y :
  1000 <= y <= 9999 -> -354286 <= DayFromYear y <= 2932897.
Proof. intros Hy. unfold DayFromYear. zdiv. Qed.

End Encoding.

(** C9 as amended. For every date [(y, m, d)] that the YYYYMMDD identifier
    can carry and every time of day [(h, mi, s)]: [parseCalendarDate]
    decodes the compact MMDD value [m * 100 + d] to exactly [(m, d)];
    and when these components are a local time that the clocks of the
    zone show (one that no change of the clocks skips), read with an
    offset of at most a day, [createTimestamp], applied to the identifier
    [formatIdentifier y m d] and the HHMMSS code, yields the instant of
    that local time, whose local year, month, day, hours, minutes and
    seconds are [y], [m], [d], [h], [mi] and [s]. *)
Theorem date_encoding_roundtrip zone y m d h mi s :
  validDate y m d -> validTime h mi s ->
  Z.abs (offsetAtLocal zone (localInstant y m d h mi s)) <= msPerDay ->
  existsLocally zone (localInstant y m d h mi s) ->
  parseCalendarDate (Num (compactDate m d)) = (Num m, Num d)
  /\ exists ts,
       createTimestamp zone (formatIdentifier (Num y) (Num m) (Num d))
                       (Num (timeCode h mi s)) = Num ts
       /\ ts = UTC zone (localInstant y m d h mi s)
       /\ getFullYear zone ts = y
       /\ getMonth zone ts + 1 = m
       /\ getDate zone ts = d
       /\ getHours zone ts = h
       /\ getMinutes zone ts = mi
       /\ getSeconds zone ts = s.
Proof.
  intros Hdate Htime Htz Hex.
  pose proof Hdate as (Hy & Hm & Hd).
  pose proof (DaysInMonth_le_31 y m) as H31.
  split; [apply parseCalendarDate_compact; lia |].
  pose proof (MakeTime_range h mi s Htime) as HT.
  pose proof (civil_roundtrip y m d _ Hm Hd HT) as (HY & HM & HD).
  pose proof (clock_roundtrip (MakeDay y (m - 1) d) h mi s Htime)
    as (Hh & Hmi & Hs).
  pose proof (Day_MakeDate (MakeDay y (m - 1) d) _ HT) as Hday.
  rewrite (createTimestamp_formatIdentifier zone y m d h mi s Hdate Htime).
  cbv zeta in HY, HM, HD, Hh, Hmi, Hs.
  unfold existsLocally, localInstant in *.
  revert HY HM HD Hh Hmi Hs Hday Htz Hex.
  generalize (MakeDate (MakeDay y (m - 1) d) (MakeTime h mi s 0)).
  intros t HY HM HD Hh Hmi Hs Hday Htz Hloc.
  exists (UTC zone t).
  unfold getFullYear, getMonth, getDate, getHours, getMinutes, getSeconds.
  rewrite Hloc.
  split; [| split; [reflexivity | repeat split; first [assumption | lia]]].
  unfold TimeClip.
  assert (Hbound : DayFromYear y <= Day t < DayFromYear (y + 1)).
  { pose proof (YearFromDay_bounds (Day t)) as B.
    unfold YearFromTime in HY. rewrite HY in B. exact B. }
  pose proof (DayFromYear_four_digits y Hy) as B1.
  pose proof (DayFromYear_step y) as B2.
  pose proof (DaysInYear_range y) as B3.
  assert (Ht : -354286 * 86400000 <= t < 2933264 * 86400000).
  { clear - Hbound B1 B2 B3. unfold Day, msPerDay in Hbound. zdiv. }
  destruct (Z.leb_spec (Z.abs (UTC zone t)) 8640000000000000) as [_ | Hbig];
    [reflexivity |].
  clear - Hbig Ht Htz. unfold UTC, msPerDay in *. lia.
Qed.

(** The round trip in Copenhagen on the 15th of July 2024, at 12:34:56,
    under summer time. *)
Lemma date_encoding_roundtrip_witness :
  parseCalendarDate (Num (compactDate 7 15)) = (Num 7, Num 15)
  /\ exists ts,
       createTimestamp copenhagen
                       (formatIdentifier (Num 2024) (Num 7) (Num 15))
                       (Num (timeCode 12 34 56)) = Num ts
       /\ ts = UTC copenhagen (localInstant 2024 7 15 12 34 56)
       /\ getFullYear copenhagen ts = 2024
       /\ getMonth copenhagen ts + 1 = 7
       /\ getDate copenhagen ts = 15
       /\ getHours copenhagen ts = 12
       /\ getMinutes copenhagen ts = 34
       /\ getSeconds copenhagen ts = 56.
Proof.
  apply (date_encoding_roundtrip copenhagen 2024 7 15 12 34 56).
  - unfold validDate. vm_compute. intuition discriminate.
  - unfold validTime. lia.
  - vm_compute. discriminate.
  - vm_compute. reflexivity.
Defined.

(** C9 as stated fails where the clocks are moved forward: in Copenhagen
    the 31st of March 2024 has no 02:30:00.  [createTimestamp] reads these
    components with the offset in force before the change, which gives
    the instant 01:30:00Z, and that instant is 03:30:00 on the local
    clock: the hour that comes back is 3, not 2. *)
Lemma date_encoding_gap_counterexample :
  validDate 2024 3 31 /\ validTime 2 30 0
  /\ createTimestamp copenhagen
                     (formatIdentifier (Num 2024) (Num 3) (Num 31))
                     (Num (timeCode 2 30 0)) = Num 1711848600000
  /\ getHours copenhagen 1711848600000 = 3
  /\ ~ (exists ts,
          createTimestamp copenhagen
                          (formatIdentifier (Num 2024) (Num 3) (Num 31))
                          (Num (timeCode 2 30 0)) = Num ts
          /\ getHours copenhagen ts = 2).
Proof.
  assert (Hts : createTimestamp copenhagen
                  (formatIdentifier (Num 2024) (Num 3) (Num 31))
                  (Num (timeCode 2 30 0)) = Num 1711848600000)
    by (vm_compute; reflexivity).
  split; [unfold validDate; vm_compute; intuition discriminate |].
  split; [unfold validTime; lia |].
  split; [exact Hts |].
  split; [vm_compute; reflexivity |].
  intros (ts & H1 & H2). rewrite Hts in H1.
  assert (Heq : ts = 1711848600000) by congruence.
  rewrite Heq in H2. vm_compute in H2. discriminate H2.
Qed.

(* ================================================================== *)
(** * RateLimitedFetcher.ts: the constructor *)
(* ================================================================== *)

(** C10. A fetcher built with no configuration uses 15 requests per
    minute, 3 attempts and a delay of 5000 ms; built with a partial
    configuration, every field that is supplied overrides its default and
    every field that is not keeps it. *)
Theorem constructor_defaults :
  RateLimitedFetcher.new None = mkConfig 15 3 5000
  /\ forall c : PartialConfig,
       let cfg := RateLimitedFetcher.new (Some c) in
       maxRequestsPerMinute cfg
       = match maxRequestsPerMinute_opt c with Some v => v | None => 15 end
       /\ retryAttempts cfg
          = match retryAttempts_opt c with Some v => v | None => 3 end
       /\ retryDelay cfg
          = match retryDelay_opt c with Some v => v | None => 5000 end.
Proof.
  split; [reflexivity |].
  intros [m a d]; cbn. repeat split; destruct m, a, d; reflexivity.
Qed.

Example constructor_as_index_ts :
  RateLimitedFetcher.new (Some (mkPartial (Some 10) (Some 6) (Some 5000)))
  = mkConfig 10 6 5000.
Proof. reflexivity. Qed.

Example constructor_partial :
  RateLimitedFetcher.new (Some (mkPartial None (Some 6) None))
  = mkConfig 15 6 5000.
Proof. reflexivity. Qed.

(* ================================================================== *)
(** * WebScraper.ts: the backward scan *)
(* ================================================================== *)

Section Scan.

Variable threshold : float.

Lemma scan_app now l c :
  scan threshold now (c :: l)
  = scanStep threshold (scan threshold now l) c.
Proof.
  unfold scan. cbn [rev]. now rewrite fold_left_app.
Qed.

Lemma scan_nil now : scan threshold now [] = scanInit now.
Proof. reflexivity. Qed.

(** On a truthy score the loop body is the step of the specification. *)
Lemma scanStep_truthy st c s :
  similarity c = Some s -> truthy s = true ->
  scanStep threshold st c = specStep threshold st c.
Proof.
  intros Hs Ht. unfold scanStep, specStep, dateOf. rewrite Hs, Ht.
  reflexivity.
Qed.

(** On a falsy score (zero, NaN) and on a missing one the loop body does
    nothing. *)
Lemma scanStep_falsy st c :
  match similarity c with Some s => truthy s = false | None => True end ->
  scanStep threshold st c = st.
Proof.
  unfold scanStep. destruct (similarity c) as [s|]; [| reflexivity].
  now intros ->.
Qed.

(** The walk of the code is the walk of the specification over the
    captures that pass the guard. *)
Lemma scan_specStep_filter now l :
  scan threshold now l
  = fold_left (specStep threshold) (rev (filter passesGuard l))
              (scanInit now).
Proof.
  induction l as [|c l IH]; [reflexivity |].
  rewrite scan_app, IH. cbn [filter]. unfold passesGuard at 2.
  destruct (similarity c) as [s|] eqn:Es.
  - destruct (truthy s) eqn:Et.
    + cbn [rev]. rewrite fold_left_app. cbn [fold_left].
      now apply scanStep_truthy with (s := s).
    + apply scanStep_falsy. now rewrite Es.
  - apply scanStep_falsy. now rewrite Es.
Qed.

Lemma scanStep_since st c :
  scan_similarSince (scanStep threshold st c)
  = if qualifies threshold c then Some (dateOf c) else scan_similarSince st.
Proof.
  unfold scanStep, qualifies, dateOf.
  destruct (similarity c) as [s|]; [| reflexivity].
  destruct (truthy s); [| reflexivity].
  cbn. destruct (PrimFloat.leb threshold s); reflexivity.
Qed.

(** The walk ends with the first snapshot, in list order, that passes the
    guard and meets the threshold: the last write wins. *)
Lemma scan_similarSince_find now l :
  scan_similarSince (scan threshold now l)
  = option_map dateOf (find (qualifies threshold) l).
Proof.
  induction l as [|c l IH].
  - reflexivity.
  - rewrite scan_app, scanStep_since. cbn [find].
    destruct (qualifies threshold c); [reflexivity | exact IH].
Qed.

Lemma ascendingFrom_weaken lo lo' l :
  lo' <= lo -> ascendingFrom lo l -> ascendingFrom lo' l.
Proof.
  destruct l as [|c l]; cbn; [trivial |].
  destruct (timestamp c); [| trivial]. intros; intuition lia.
Qed.

Lemma ascendingFrom_In lo l c :
  ascendingFrom lo l -> In c l -> number_leb (Num lo) (timestamp c) = true.
Proof.
  revert lo. induction l as [|x l IH]; intros lo Ha Hin; [destruct Hin |].
  cbn in Ha. destruct (timestamp x) as [t|] eqn:Et; [| contradiction].
  destruct Ha as [Hlo Ha]. destruct Hin as [-> | Hin].
  - rewrite Et. cbn. now apply Z.leb_le.
  - apply IH; [| exact Hin]. eapply ascendingFrom_weaken; eauto.
Qed.

Lemma ascending_tail c l : ascending (c :: l) -> ascending l.
Proof.
  cbn. destruct (timestamp c) as [t|]; [| contradiction].
  destruct l as [|x l]; cbn; [trivial |].
  destruct (timestamp x); intuition.
Qed.

Lemma ascending_head c l x :
  ascending (c :: l) -> In x (c :: l) ->
  number_leb (timestamp c) (timestamp x) = true.
Proof.
  cbn [ascending]. destruct (timestamp c) as [t|] eqn:Et; [| contradiction].
  intros Ha [<- | Hin].
  - rewrite Et. cbn. apply Z.leb_refl.
  - eapply ascendingFrom_In; eauto.
Qed.

Lemma find_oldest (meets : Snapshot -> bool) l :
  ascending l -> oldestMeeting meets l (option_map dateOf (find meets l)).
Proof.
  induction l as [|c l IH]; intros Ha.
  - right. split; [intros c [] | reflexivity].
  - cbn [find]. destruct (meets c) eqn:Ec.
    + left. exists c. repeat split; [now left | exact Ec |].
      intros x Hx _. now apply (ascending_head c l).
    + destruct (IH (ascending_tail _ _ Ha))
        as [(c0 & Hin & Hm & Hmin & Hr) | (Hnone & Hr)].
      * left. exists c0. repeat split; [now right | exact Hm | | exact Hr].
        intros x [<- | Hx] Hmx; [congruence | now apply Hmin].
      * right. split; [| exact Hr].
        intros x [<- | Hx]; [exact Ec | now apply Hnone].
Qed.

End Scan.

(** C4. The walk from the newest to the oldest capture does what the claim
    says on every capture whose score is truthy: there the step of the
    loop is the step that the claim describes.  On a capture whose score
    is 0 it does not: the guard [if (capture.similarity)] takes the score
    0 for a missing one, and the step leaves the state of the walk as it
    was, where the claim has the capture become the previous one, with
    [previousSimilarity = 0], and has the event recorded when the drop
    from the previous similarity is above 0.15. *)
Theorem scan_step_skips_zero_score threshold st c :
  (forall s, similarity c = Some s -> truthy s = true ->
             scanStep threshold st c = specStep threshold st c)
  /\ (similarity c = Some 0%float ->
      scanStep threshold st c = st
      /\ previousSimilarity (specStep threshold st c) = 0%float
      /\ previousDate (specStep threshold st c) = dateOf c
      /\ (PrimFloat.ltb 0.15%float
                        (PrimFloat.sub (previousSimilarity st) 0%float)
          = true ->
          scan_changes (specStep threshold st c)
          = scan_changes st
            ++ [mkChange (dateOf c) (previousDate st)
                         (PrimFloat.sub (previousSimilarity st) 0%float)])).
Proof.
  split.
  - intros s Hs Ht. exact (scanStep_truthy threshold st c s Hs Ht).
  - intros Hs. split.
    + apply scanStep_falsy. rewrite Hs. reflexivity.
    + unfold specStep. rewrite Hs. cbn [previousSimilarity previousDate
                                         scan_changes].
      repeat split. intros ->. reflexivity.
Qed.

(** After a capture scored 0.9 at 4000, a capture scored 0 at 3000: a drop
    of 0.9, which the claim has recorded; the loop records nothing and
    keeps 0.9 and 4000 as the previous score and date. *)
Lemma scan_step_skips_zero_score_witness :
  let st := mkScan [] None 0.9%float (Num 4000) in
  let c := withScore (capturedAt 3000) 0%float in
  scanStep 0.85%float st c = st
  /\ scan_changes (scanStep 0.85%float st c) = []
  /\ previousSimilarity (scanStep 0.85%float st c) = 0.9%float
  /\ previousSimilarity (specStep 0.85%float st c) = 0%float
  /\ scan_changes (specStep 0.85%float st c)
     = [mkChange (Num 3000) (Num 4000) 0.9%float].
Proof.
  cbv zeta.
  destruct (proj2 (scan_step_skips_zero_score 0.85%float
                     (mkScan [] None 0.9%float (Num 4000))
                     (withScore (capturedAt 3000) 0%float)) eq_refl)
    as (Hskip & Hprev & _ & Hrec).
  split; [exact Hskip |]. rewrite Hskip.
  split; [reflexivity |]. split; [reflexivity |].
  split; [exact Hprev |]. exact (Hrec eq_refl).
Defined.

(** C5. A capture scored 0 never sets [similarSince]: with such a capture
    as the oldest of the list, [similarSince] after the walk is what it
    is without that capture.  When the threshold is 0 or less, the
    capture does meet the threshold, and the step that the claim
    describes sets [similarSince] to its date: the loop misses the
    oldest capture that meets the threshold, through the same guard
    [if (capture.similarity)]. *)
Theorem similarSince_skips_zero_score threshold now c rest :
  similarity c = Some 0%float ->
  scan_similarSince (scan threshold now (c :: rest))
  = scan_similarSince (scan threshold now rest)
  /\ (PrimFloat.leb threshold 0%float = true ->
      meetsThreshold threshold c = true
      /\ scan_similarSince (specStep threshold (scan threshold now rest) c)
         = Some (dateOf c)).
Proof.
  intros Hs. split.
  - rewrite scan_app.
    rewrite (scanStep_falsy threshold (scan threshold now rest) c);
      [reflexivity |].
    rewrite Hs. reflexivity.
  - intros Hle. split.
    + unfold meetsThreshold. rewrite Hs. exact Hle.
    + unfold specStep. rewrite Hs. cbn [scan_similarSince]. rewrite Hle.
      reflexivity.
Qed.

(** Threshold 0, a capture scored 0 at 1000 and one scored 0.5 at 2000:
    both meet the threshold, the oldest is the one at 1000, and the walk
    ends with [similarSince] at 2000. *)
Lemma similarSince_skips_zero_score_witness :
  let c := withScore (capturedAt 1000) 0%float in
  let rest := [withScore (capturedAt 2000) 0.5%float] in
  ascending (c :: rest)
  /\ meetsThreshold 0%float c = true
  /\ scan_similarSince (scan 0%float (Num 5000) (c :: rest))
     = Some (Num 2000)
  /\ scan_similarSince (specStep 0%float (scan 0%float (Num 5000) rest) c)
     = Some (Num 1000).
Proof.
  cbv zeta.
  destruct (similarSince_skips_zero_score 0%float (Num 5000)
              (withScore (capturedAt 1000) 0%float)
              [withScore (capturedAt 2000) 0.5%float] eq_refl)
    as (Hcode & Hspec).
  destruct (Hspec eq_refl) as (Hmeets & Hclaim).
  split; [cbn; lia |]. split; [exact Hmeets |].
  split; [rewrite Hcode; reflexivity | exact Hclaim].
Defined.

Lemma workedExample_scan_value c1 c2 c3 c4 now :
  let st := scan 0.85%float now (workedExample c1 c2 c3 c4) in
  scan_changes st
  = [mkChange (dateOf c3) (dateOf c4) (PrimFloat.sub 0.90%float 0.60%float)]
  /\ scan_similarSince st = Some (dateOf c1).
Proof.
  cbv zeta. unfold workedExample.
  rewrite !scan_app, scan_nil.
  unfold scanStep at 4. cbn [similarity withScore].
  change (truthy 0.90%float) with true. cbv iota.
  cbn [previousSimilarity scanInit scan_changes scan_similarSince previousDate].
  change (PrimFloat.ltb 0.15%float (PrimFloat.sub 1%float 0.90%float))
    with false.
  change (PrimFloat.leb 0.85%float 0.90%float) with true. cbv iota.
  unfold scanStep at 3. cbn [similarity withScore].
  change (truthy 0.60%float) with true. cbv iota.
  cbn [previousSimilarity scanInit scan_changes scan_similarSince previousDate].
  change (PrimFloat.ltb 0.15%float (PrimFloat.sub 0.90%float 0.60%float))
    with true.
  change (PrimFloat.leb 0.85%float 0.60%float) with false. cbv iota.
  unfold scanStep at 2. cbn [similarity withScore].
  change (truthy 0.78%float) with true. cbv iota.
  cbn [previousSimilarity scanInit scan_changes scan_similarSince previousDate].
  change (PrimFloat.ltb 0.15%float (PrimFloat.sub 0.60%float 0.78%float))
    with false.
  change (PrimFloat.leb 0.85%float 0.78%float) with false. cbv iota.
  unfold scanStep. cbn [similarity withScore].
  change (truthy 0.95%float) with true. cbv iota.
  cbn [previousSimilarity scanInit scan_changes scan_similarSince previousDate].
  change (PrimFloat.ltb 0.15%float (PrimFloat.sub 0.78%float 0.95%float))
    with false.
  change (PrimFloat.leb 0.85%float 0.95%float) with true. cbv iota.
  cbn [scan_changes scan_similarSince app timestamp withScore].
  split; reflexivity.
Qed.

(** The drop of the one event, 0.90 - 0.60 in binary64. *)
Example workedExample_drop :
  PrimFloat.sub 0.90%float 0.60%float = 0.30000000000000004%float.
Proof. reflexivity. Qed.

(** C3 as amended. On the captures scored 0.95, 0.78, 0.60 and 0.90,
    oldest first, with the threshold 0.85, the walk reports exactly one
    significant change: its date is that of the third capture, its other
    date that of the fourth (the newer neighbour, scored 0.90), its drop
    is 0.90 - 0.60; [similarSince] is the date of the first capture. *)
Theorem worked_example_scan c1 c2 c3 c4 now :
  let st := scan 0.85%float now (workedExample c1 c2 c3 c4) in
  (exists e,
      scan_changes st = [e]
      /\ date e = dateOf c3
      /\ otherDate e = dateOf c4
      /\ similarityDrop e = PrimFloat.sub 0.90%float 0.60%float)
  /\ scan_similarSince st = Some (dateOf c1).
Proof.
  cbv zeta.
  destruct (workedExample_scan_value c1 c2 c3 c4 now) as [Hc Hs].
  split; [| exact Hs].
  eexists. split; [exact Hc |]. repeat split.
Qed.

(** C3 as stated fails: with captures at 1000, 2000, 3000 and 4000 the one
    event lies between the captures at 3000 and 4000, not between those
    at 3000 and 2000. *)
Lemma worked_example_counterexample :
  ~ workedExampleExpected
      (capturedAt 1000) (capturedAt 2000) (capturedAt 3000) (capturedAt 4000)
      (scan 0.85%float (Num 5000)
            (workedExample (capturedAt 1000) (capturedAt 2000)
                           (capturedAt 3000) (capturedAt 4000))).
Proof.
  intros [(e & He & Hbetween & _) _].
  rewrite (proj1 (workedExample_scan_value
                    (capturedAt 1000) (capturedAt 2000)
                    (capturedAt 3000) (capturedAt 4000) (Num 5000))) in He.
  injection He as <-.
  destruct Hbetween as [[_ H] | [H _]]; vm_compute in H; discriminate H.
Qed.

(* ================================================================== *)
(** * WebScraper.ts: shouldRecommendUpdate *)
(* ================================================================== *)

Section Recommend.

Lemma monthOfDay_range dw l :
  (l = 0 \/ l = 1) -> 0 <= dw < 365 + l ->
  0 <= monthOfDay dw l <= 11
  /\ 1 <= dw - daysBeforeMonth (monthOfDay dw l) l + 1.
Proof.
  intros Hl Hdw. unfold monthOfDay.
  destruct Hl; subst l; split_ltb; eval_dbm; lia.
Qed.

(** The local calendar fields of any time value are a month from 0 to 11
    and a day from 1 on. *)
Lemma fields_range t :
  0 <= MonthFromTime t <= 11 /\ 1 <= DateFromTime t.
Proof.
  unfold DateFromTime, MonthFromTime.
  pose proof (YearFromDay_bounds (Day t)) as B.
  pose proof (DayFromYear_step (YearFromTime t)) as S.
  pose proof (DaysInYear_range (YearFromTime t)) as R.
  unfold YearFromTime in *.
  apply monthOfDay_range.
  - unfold InLeapYear. destruct (_ =? _); auto.
  - unfold DayWithinYear, InLeapYear, YearFromTime.
    destruct (Z.eqb_spec (DaysInYear (YearFromDay (Day t))) 366); lia.
Qed.

Lemma MakeDay_civil y m d :
  1 <= m <= 12 ->
  MakeDay y (m - 1) d
  = DayFromYear y
    + (daysBeforeMonth (m - 1) (if DaysInYear y =? 366 then 1 else 0)
       + d - 1).
Proof.
  intros Hm.
  assert (Hq : (m - 1) / 12 = 0) by zdiv.
  assert (Hr : Z.modulo (m - 1) 12 = m - 1) by zdiv.
  unfold MakeDay. rewrite Hq, Hr, Z.add_0_r. lia.
Qed.

Lemma monthOfDay_upper (b : bool) dw :
  let l := if b then 1 else 0 in
  0 <= dw < 365 + l ->
  dw - daysBeforeMonth (monthOfDay dw l) l + 1
  <= match monthOfDay dw l with
     | 0 => 31 | 1 => if b then 29 else 28 | 2 => 31 | 3 => 30
     | 4 => 31 | 5 => 30 | 6 => 31 | 7 => 31 | 8 => 30 | 9 => 31
     | 10 => 30 | _ => 31 end.
Proof.
  intros l Hdw. subst l. unfold monthOfDay.
  destruct b; split_ltb; eval_dbm; cbn iota; lia.
Qed.

Lemma DaysInMonth_succ y m :
  0 <= m <= 11 ->
  DaysInMonth y (m + 1)
  = match m with
    | 0 => 31 | 1 => if DaysInYear y =? 366 then 29 else 28 | 2 => 31
    | 3 => 30 | 4 => 31 | 5 => 30 | 6 => 31 | 7 => 31 | 8 => 30 | 9 => 31
    | 10 => 30 | _ => 31 end.
Proof.
  intros Hm.
  assert (Hc : m = 0 \/ m = 1 \/ m = 2 \/ m = 3 \/ m = 4 \/ m = 5 \/ m = 6
               \/ m = 7 \/ m = 8 \/ m = 9 \/ m = 10 \/ m = 11) by lia.
  decompose [or] Hc; subst m; reflexivity.
Qed.

(** The day of the month of a time value exists in its month. *)
Lemma date_within_month t :
  DateFromTime t <= DaysInMonth (YearFromTime t) (MonthFromTime t + 1).
Proof.
  destruct (fields_range t) as [Hm _].
  rewrite (DaysInMonth_succ _ _ Hm).
  unfold DateFromTime, MonthFromTime, InLeapYear.
  apply (monthOfDay_upper (DaysInYear (YearFromTime t) =? 366)).
  pose proof (YearFromDay_bounds (Day t)) as B.
  pose proof (DayFromYear_step (YearFromTime t)) as S.
  pose proof (DaysInYear_range (YearFromTime t)) as R.
  unfold DayWithinYear, YearFromTime in *.
  destruct (Z.eqb_spec (DaysInYear (YearFromDay (Day t))) 366); lia.
Qed.

(** ** Leap years *)

Lemma leap_mod4 y : DaysInYear y = 366 -> Z.modulo y 4 = 0.
Proof.
  intros H. unfold DaysInYear in H.
  destruct (Z.eqb_spec (Z.modulo y 4) 0); [assumption |].
  cbn [negb] in H. lia.
Qed.

Lemma common_not_mod4 y : Z.modulo y 4 <> 0 -> DaysInYear y = 365.
Proof.
  intros H. unfold DaysInYear.
  destruct (Z.eqb_spec (Z.modulo y 4) 0); [contradiction | reflexivity].
Qed.

Lemma leap_not_two_before y :
  DaysInYear y = 366 -> DaysInYear (y - 2) = 365.
Proof.
  intros H. apply leap_mod4 in H. apply common_not_mod4. zdiv.
Qed.

Lemma DaysInYear_leapDays y : DaysInYear y = 365 + leapDays y.
Proof.
  unfold leapDays. pose proof (DaysInYear_range y).
  destruct (Z.eqb_spec (DaysInYear y) 366); lia.
Qed.

Lemma leapDays_range y : 0 <= leapDays y <= 1.
Proof. unfold leapDays. destruct (_ =? _); lia. Qed.

(** Of two years in a row, or two years apart, at most one is leap. *)
Lemma leapDays_near y k :
  1 <= k <= 2 -> leapDays y + leapDays (y - k) <= 1.
Proof.
  intros Hk. unfold leapDays.
  destruct (Z.eqb_spec (DaysInYear y) 366) as [H |]; [| destruct (_ =? _); lia].
  destruct (Z.eqb_spec (DaysInYear (y - k)) 366) as [H' |]; [| lia].
  apply leap_mod4 in H, H'. exfalso. clear - H H' Hk. zdiv.
Qed.

Lemma twoYearsOfDays_range y m : 730 <= twoYearsOfDays y m <= 731.
Proof.
  unfold twoYearsOfDays. rewrite !DaysInYear_leapDays.
  pose proof (leapDays_range y). pose proof (leapDays_range (y - 1)).
  pose proof (leapDays_range (y - 2)).
  pose proof (leapDays_near y 1 ltac:(lia)).
  pose proof (leapDays_near (y - 1) 1 ltac:(lia)) as Hadj.
  replace (y - 1 - 1) with (y - 2) in Hadj by lia.
  destruct (2 <=? m); lia.
Qed.

Lemma daysBeforeMonth_leap m l l2 :
  0 <= m <= 11 ->
  daysBeforeMonth m l - daysBeforeMonth m l2
  = if 2 <=? m then l - l2 else 0.
Proof.
  intros Hm.
  assert (Hc : m = 0 \/ m = 1 \/ m = 2 \/ m = 3 \/ m = 4 \/ m = 5 \/ m = 6
               \/ m = 7 \/ m = 8 \/ m = 9 \/ m = 10 \/ m = 11) by lia.
  decompose [or] Hc; subst m;
    cbv beta iota delta [daysBeforeMonth Z.leb Z.compare Pos.compare
                         Pos.compare_cont]; lia.
Qed.

(** ** Two calendar years back, on local time values *)

(** [MakeDay] of the fields of a local time, in the year two before, is
    the day of that local time less the days of the two years. *)
Lemma MakeDay_two_years_back L :
  MakeDay (YearFromTime L - 2) (MonthFromTime L) (DateFromTime L)
  = Day L - twoYearsOfDays (YearFromTime L) (MonthFromTime L).
Proof.
  destruct (fields_range L) as [Hm _].
  pose proof (MakeDay_civil (YearFromTime L - 2) (MonthFromTime L + 1)
                (DateFromTime L) ltac:(lia)) as HMD.
  replace (MonthFromTime L + 1 - 1) with (MonthFromTime L) in HMD by lia.
  rewrite HMD. clear HMD.
  pose proof (DayFromYear_step (YearFromTime L - 2)) as S2.
  pose proof (DayFromYear_step (YearFromTime L - 1)) as S1.
  replace (YearFromTime L - 2 + 1) with (YearFromTime L - 1) in S2 by lia.
  replace (YearFromTime L - 1 + 1) with (YearFromTime L) in S1 by lia.
  pose proof (daysBeforeMonth_leap (MonthFromTime L)
                (leapDays (YearFromTime L)) (leapDays (YearFromTime L - 2))
                Hm) as Hdbm.
  unfold twoYearsOfDays.
  assert (Hd : DateFromTime L
               = Day L - DayFromYear (YearFromTime L)
                 - daysBeforeMonth (MonthFromTime L)
                                   (leapDays (YearFromTime L)) + 1)
    by reflexivity.
  fold (leapDays (YearFromTime L - 2)).
  revert Hd Hdbm S1 S2.
  generalize (DateFromTime L) (MonthFromTime L) (Day L)
             (DayFromYear (YearFromTime L))
             (DayFromYear (YearFromTime L - 1))
             (DayFromYear (YearFromTime L - 2))
             (DaysInYear (YearFromTime L - 1))
             (DaysInYear (YearFromTime L - 2))
             (leapDays (YearFromTime L)) (leapDays (YearFromTime L - 2)).
  intros d m D F0 F1 F2 N1 N2 l l2 Hd Hdbm S1 S2.
  revert Hd Hdbm. generalize (daysBeforeMonth m l) (daysBeforeMonth m l2).
  intros b b2 Hd Hdbm. destruct (2 <=? m); lia.
Qed.

Lemma local_two_years_back L :
  MakeDate (MakeDay (YearFromTime L - 2) (MonthFromTime L) (DateFromTime L))
           (TimeWithinDay L)
  = L - twoYearsOfDays (YearFromTime L) (MonthFromTime L) * msPerDay.
Proof.
  rewrite MakeDay_two_years_back.
  generalize (twoYearsOfDays (YearFromTime L) (MonthFromTime L)). intros k.
  unfold MakeDate, Day, TimeWithinDay, msPerDay. zdiv.
Qed.

(** A 29th of February goes to the first of March. *)
Lemma leap_day_two_years_back L :
  MonthFromTime L = 1 -> DateFromTime L = 29 ->
  let L2 := MakeDate (MakeDay (YearFromTime L - 2) 1 29) (TimeWithinDay L) in
  YearFromTime L2 = YearFromTime L - 2
  /\ TimeWithinDay L2 = TimeWithinDay L
  /\ MonthFromTime L2 = 2 /\ DateFromTime L2 = 1.
Proof.
  intros Hfeb H29. cbv zeta.
  pose proof (date_within_month L) as Hin.
  rewrite Hfeb, H29 in Hin.
  assert (Hleap : DaysInYear (YearFromTime L) = 366).
  { replace (1 + 1) with 2 in Hin by lia. unfold DaysInMonth in Hin.
    destruct (Z.eqb_spec (DaysInYear (YearFromTime L)) 366);
      [assumption | lia]. }
  apply leap_not_two_before in Hleap.
  assert (HT : 0 <= TimeWithinDay L < msPerDay)
    by (unfold TimeWithinDay, msPerDay; zdiv).
  clear Hin Hfeb H29.
  revert Hleap HT.
  generalize (YearFromTime L - 2) (TimeWithinDay L).
  intros y T Hy HT.
  assert (Hday : MakeDay y 1 29 = MakeDay y (3 - 1) 1).
  { pose proof (MakeDay_civil y 3 1 ltac:(lia)) as E3.
    pose proof (MakeDay_civil y 2 29 ltac:(lia)) as E2.
    rewrite Hy in E2, E3.
    replace (2 - 1) with 1 in E2 by lia.
    assert (B3 : daysBeforeMonth (3 - 1) 0 = 59) by reflexivity.
    assert (B2 : daysBeforeMonth 1 0 = 31) by reflexivity.
    assert (Hne : (365 =? 366) = false) by reflexivity.
    rewrite Hne in E2, E3. rewrite B2 in E2. rewrite B3 in E3.
    lia. }
  rewrite Hday.
  assert (H31 : 1 <= 1 <= DaysInMonth y 3) by (unfold DaysInMonth; lia).
  pose proof (civil_roundtrip y 3 1 T ltac:(lia) H31 HT) as HR.
  pose proof (TimeWithinDay_MakeDate (MakeDay y (3 - 1) 1) T HT) as HW.
  cbv zeta in HR.
  revert HR HW. generalize (MakeDate (MakeDay y (3 - 1) 1) T).
  intros u (HY & HM & HD) HW.
  replace (3 - 1) with 2 in HM by lia.
  repeat split; assumption.
Qed.

(** Any other day exists two years earlier. *)
Lemma other_days_fit y y' m d :
  0 <= m <= 11 -> d <= DaysInMonth y (m + 1) ->
  isLeapDay m d = false ->
  d <= DaysInMonth y' (m + 1).
Proof.
  intros Hm Hin Hleap.
  rewrite (DaysInMonth_succ y m Hm) in Hin.
  rewrite (DaysInMonth_succ y' m Hm).
  assert (Hc : m = 0 \/ m = 1 \/ m = 2 \/ m = 3 \/ m = 4 \/ m = 5
               \/ m = 6 \/ m = 7 \/ m = 8 \/ m = 9 \/ m = 10 \/ m = 11)
    by lia.
  decompose [or] Hc; subst m; try exact Hin.
  unfold isLeapDay in Hleap.
  destruct (Z.eqb_spec d 29); [discriminate Hleap |].
  destruct (DaysInYear y =? 366); destruct (DaysInYear y' =? 366); lia.
Qed.

Lemma other_day_two_years_back L :
  isLeapDay (MonthFromTime L) (DateFromTime L) = false ->
  let L2 := MakeDate (MakeDay (YearFromTime L - 2) (MonthFromTime L)
                              (DateFromTime L)) (TimeWithinDay L) in
  YearFromTime L2 = YearFromTime L - 2
  /\ TimeWithinDay L2 = TimeWithinDay L
  /\ MonthFromTime L2 = MonthFromTime L /\ DateFromTime L2 = DateFromTime L.
Proof.
  intros Hleap. cbv zeta.
  destruct (fields_range L) as [Hm H1].
  pose proof (other_days_fit _ (YearFromTime L - 2) _ _ Hm
                (date_within_month L) Hleap) as Hfit.
  assert (HT : 0 <= TimeWithinDay L < msPerDay)
    by (unfold TimeWithinDay, msPerDay; zdiv).
  revert Hfit HT Hm H1.
  generalize (YearFromTime L - 2) (TimeWithinDay L) (MonthFromTime L)
             (DateFromTime L).
  intros y T m d Hfit HT Hm H1.
  pose proof (civil_roundtrip y (m + 1) d T ltac:(lia) ltac:(lia) HT) as HR.
  pose proof (TimeWithinDay_MakeDate (MakeDay y (m + 1 - 1) d) T HT) as HW.
  cbv zeta in HR.
  replace (m + 1 - 1) with m in HR, HW by lia.
  revert HR HW. generalize (MakeDate (MakeDay y m d) T).
  intros u (HY & HM & HD) HW.
  repeat split; assumption.
Qed.

(** The calendar fields of the local time two years back. *)
Lemma two_years_back_fields L :
  let L2 := L - twoYearsOfDays (YearFromTime L) (MonthFromTime L) * msPerDay in
  YearFromTime L2 = YearFromTime L - 2
  /\ TimeWithinDay L2 = TimeWithinDay L
  /\ if isLeapDay (MonthFromTime L) (DateFromTime L)
     then MonthFromTime L2 = 2 /\ DateFromTime L2 = 1
     else MonthFromTime L2 = MonthFromTime L
          /\ DateFromTime L2 = DateFromTime L.
Proof.
  cbv zeta. rewrite <- local_two_years_back.
  destruct (isLeapDay (MonthFromTime L) (DateFromTime L)) eqn:Hleap.
  - unfold isLeapDay in Hleap. apply andb_true_iff in Hleap as [Hm Hd].
    apply Z.eqb_eq in Hm, Hd.
    pose proof (leap_day_two_years_back L Hm Hd) as H. cbv zeta in H.
    rewrite Hm, Hd. tauto.
  - pose proof (other_day_two_years_back L Hleap) as H. cbv zeta in H.
    tauto.
Qed.

Section Zoned.

Variable zone : Zone.

(** [twoYearsAgo] is the instant of the local time two years back. *)
Lemma twoYearsAgo_value now :
  twoYearsAgo zone now = TimeClip (UTC zone (twoYearsBack zone now)).
Proof.
  unfold twoYearsAgo, setFullYear, twoYearsBack, getFullYear, getMonth.
  now rewrite local_two_years_back.
Qed.

End Zoned.

End Recommend.

(** C6. [shouldRecommendUpdate] returns false for a null [similarSince],
    without reading the clock.  Otherwise it reads the clock once, and
    with [now] the time read it returns true exactly when [similarSince]
    lies before the instant two calendar years before [now] and the
    average similarity is strictly greater than 0.85.  That instant is
    the one of the local time of [now] moved back by the days of the two
    years, 730 or 731: the same time of day of the same date two years
    earlier, the first of March for a 29th of February.  So the answer is
    false for a [similarSince] one day after that instant with average
    0.90 (two years less a day before [now]), false at that instant, true
    one day before it (two years and a day before [now]), and false
    whenever the average is exactly 0.85. *)
Theorem recommendUpdate_rule env w :
  let now := clock w + Z.of_nat (elapsed env (reads w)) in
  let w' := mkWorld now (S (reads w)) (calls w) (requestTimestamps w)
                    (issued w) (timers w) in
  let L := LocalTime (zone env) now in
  let span := twoYearsOfDays (YearFromTime L) (MonthFromTime L) in
  let L2 := twoYearsBack (zone env) now in
  let twoYearsBefore := TimeClip (UTC (zone env) L2) in
  (forall avg, shouldRecommendUpdate env None avg w = (Ok false, w))
  /\ (forall since avg,
         shouldRecommendUpdate env (Some since) avg w
         = (Ok (number_ltb since twoYearsBefore
                && PrimFloat.ltb 0.85%float avg), w'))
  /\ (L2 = L - span * msPerDay /\ 730 <= span <= 731)
  /\ (YearFromTime L2 = YearFromTime L - 2
      /\ TimeWithinDay L2 = TimeWithinDay L
      /\ if isLeapDay (MonthFromTime L) (DateFromTime L)
         then MonthFromTime L2 = 2 /\ DateFromTime L2 = 1
         else MonthFromTime L2 = MonthFromTime L
              /\ DateFromTime L2 = DateFromTime L)
  /\ (forall t2,
         twoYearsBefore = Num t2 ->
         shouldRecommendUpdate env (Some (Num (t2 + msPerDay))) 0.90%float w
         = (Ok false, w')
         /\ shouldRecommendUpdate env (Some (Num t2)) 0.90%float w
            = (Ok false, w')
         /\ shouldRecommendUpdate env (Some (Num (t2 - msPerDay)))
                                  0.90%float w
            = (Ok true, w'))
  /\ (forall similarSince,
         fst (shouldRecommendUpdate env similarSince 0.85%float w)
         = Ok false).
Proof.
  cbv zeta.
  assert (Hrun : forall since avg,
             shouldRecommendUpdate env (Some since) avg w
             = (Ok (number_ltb since
                      (TimeClip (UTC (zone env)
                         (twoYearsBack (zone env)
                            (clock w + Z.of_nat (elapsed env (reads w))))))
                    && PrimFloat.ltb 0.85%float avg),
                mkWorld (clock w + Z.of_nat (elapsed env (reads w)))
                        (S (reads w)) (calls w) (requestTimestamps w)
                        (issued w) (timers w))).
  { intros since avg.
    unfold shouldRecommendUpdate, bind, Date_now, ret, recommendAt.
    now rewrite twoYearsAgo_value. }
  split; [reflexivity |]. split; [exact Hrun |].
  split; [split; [reflexivity | apply twoYearsOfDays_range] |].
  split; [apply two_years_back_fields |].
  split.
  - intros t2 H2. rewrite !Hrun, H2. cbn [number_ltb]. unfold msPerDay.
    change (PrimFloat.ltb 0.85%float 0.9%float) with true.
    destruct (Z.ltb_spec (t2 + 86400000) t2); [lia |].
    destruct (Z.ltb_spec t2 t2); [lia |].
    destruct (Z.ltb_spec (t2 - 86400000) t2); [| lia].
    repeat split.
  - intros [since|]; [| reflexivity].
    rewrite Hrun. cbn [fst].
    change (PrimFloat.ltb 0.85%float 0.85%float) with false.
    now rewrite andb_false_r.
Qed.

(** The rule on 2023-11-14T22:13:20.001Z, in UTC: the instant two years
    before is 2021-11-14T22:13:20.001Z. *)
Lemma recommendUpdate_rule_witness :
  let env := sampleEnv deadTransport in
  fst (shouldRecommendUpdate env (Some (Num (1636928000001 + msPerDay)))
                             0.90%float sampleStart) = Ok false
  /\ fst (shouldRecommendUpdate env (Some (Num 1636928000001))
                                0.90%float sampleStart) = Ok false
  /\ fst (shouldRecommendUpdate env (Some (Num (1636928000001 - msPerDay)))
                                0.90%float sampleStart) = Ok true.
Proof.
  cbv zeta.
  destruct (proj1 (proj2 (proj2 (proj2 (proj2
              (recommendUpdate_rule (sampleEnv deadTransport) sampleStart)))))
              1636928000001 ltac:(vm_compute; reflexivity))
    as (H1 & H2 & H3).
  split; [exact (f_equal fst H1) |].
  split; [exact (f_equal fst H2) | exact (f_equal fst H3)].
Defined.

Example twoYearsAgo_sample :
  (* 2023-11-14T22:13:20Z, and the same instant of 2021 *)
  twoYearsAgo (fixedZone 0) 1700000000000 = Num 1636928000000.
Proof. vm_compute. reflexivity. Qed.

Example twoYearsAgo_leap_day :
  (* 2024-02-29T12:00:00Z has no namesake in 2022: 2022-03-01T12:00:00Z *)
  twoYearsAgo (fixedZone 0) 1709208000000 = Num 1646136000000.
Proof. vm_compute. reflexivity. Qed.

(* ================================================================== *)
(** * RateLimitedFetcher.ts: the retry loop *)
(* ================================================================== *)

Section Retry.

Variable env : Env.
Variable config : RateLimiterConfig.

Lemma sleep_quiet ms : quiet (sleep ms).
Proof. intros w. eexists. split; reflexivity. Qed.

(** What [waitForRateLimit] does, step by step: [now] and [now'] are the
    two readings of the clock. *)
Lemma waitForRateLimit_run w :
  let now := clock w + Z.of_nat (elapsed env (reads w)) in
  let kept := keptAt now (requestTimestamps w) in
  let now' := now + Z.of_nat (elapsed env (S (reads w))) in
  waitForRateLimit env config w
  = (Ok tt,
     if Z.of_nat (List.length kept) >=? maxRequestsPerMinute config then
       match kept with
       | oldest :: _ =>
           let waitTime := 60000 - (now' - oldest) in
           if 0 <? waitTime
           then mkWorld (now' + timerDelay waitTime) (S (S (reads w))) (calls w)
                        kept (issued w) (waitTime :: timers w)
           else mkWorld now' (S (S (reads w))) (calls w)
                        kept (issued w) (timers w)
       | [] => mkWorld now' (S (S (reads w))) (calls w)
                       kept (issued w) (timers w)
       end
     else mkWorld now (S (reads w)) (calls w) kept (issued w) (timers w)).
Proof.
  cbv zeta. unfold waitForRateLimit, keptAt, bind, Date_now, getTimestamps,
    setTimestamps, sleep, ret.
  cbv beta iota zeta.
  cbn [clock reads calls requestTimestamps issued timers].
  destruct (_ >=? _); [| reflexivity].
  cbv beta iota zeta.
  cbn [clock reads calls requestTimestamps issued timers].
  destruct (filter _ _) as [|oldest rest]; [reflexivity |].
  destruct (0 <? _); reflexivity.
Qed.

Lemma waitForRateLimit_quiet : quiet (waitForRateLimit env config).
Proof.
  intros w. rewrite waitForRateLimit_run. cbv zeta.
  eexists. split; [reflexivity |].
  destruct (_ >=? _); [| reflexivity].
  destruct (keptAt _ _); [reflexivity |].
  destruct (0 <? _); reflexivity.
Qed.

Lemma admission_quiet : quiet (admission env config).
Proof.
  intros w. unfold admission, bind.
  destruct (waitForRateLimit_quiet w) as (w1 & -> & H1).
  unfold Date_now, pushTimestamp. cbn. eexists. split; [reflexivity |].
  exact H1.
Qed.

Lemma handleRateLimitResponse_quiet response :
  quiet (handleRateLimitResponse config response).
Proof.
  unfold handleRateLimitResponse.
  destruct (retryAfter response) as [[|c s]|];
    try apply sleep_quiet.
  destruct (JS.lift2 _ _ _); apply sleep_quiet.
Qed.

Lemma attemptCatch_quiet attempt : quiet (attemptCatch config attempt).
Proof.
  unfold attemptCatch. destruct (_ <? _); [apply sleep_quiet |].
  intros w. exists w. split; reflexivity.
Qed.

(** The [try] block makes one transport call and ends as the outcome of
    that call decides. *)
Lemma attemptBody_outcome url w :
  exists w1,
    calls w1 = S (calls w)
    /\ attemptBody env config url w
       = (match transport env (calls w) url with
          | Rejected c => Throw (NetworkError c)
          | Replied r =>
              if status r =? 429 then Ok Continued
              else if negb (ok r) then Throw (HttpError (status r))
              else Ok (Returned r)
          end, w1).
Proof.
  unfold attemptBody, bind.
  destruct (admission_quiet w) as (w0 & -> & H0).
  unfold globalFetch. cbv beta iota. rewrite H0.
  destruct (transport env (calls w) url) as [r | c]; cbv beta iota zeta.
  - destruct (status r =? 429).
    + match goal with
      | |- context [handleRateLimitResponse config r ?x] =>
          destruct (handleRateLimitResponse_quiet r x) as (w2 & -> & H2)
      end.
      exists w2. split; [rewrite H2; reflexivity | reflexivity].
    + destruct (negb (ok r)); eexists; (split; [| reflexivity]);
        reflexivity.
  - eexists. split; [| reflexivity]. reflexivity.
Qed.

(** One iteration of the [for] loop. *)
Lemma fetchFrom_iteration url n attempt lastError w :
  exists w1,
    calls w1 = S (calls w)
    /\ fetchFrom env config url (S n) attempt lastError w
       = match transport env (calls w) url with
         | Rejected c =>
             fetchFrom env config url n (attempt + 1)
                       (Some (NetworkError c)) w1
         | Replied r =>
             if status r =? 429 then
               fetchFrom env config url n (attempt + 1) lastError w1
             else if negb (ok r) then
               fetchFrom env config url n (attempt + 1)
                         (Some (HttpError (status r))) w1
             else (Ok r, w1)
         end.
Proof.
  destruct (attemptBody_outcome url w) as (w1 & H1 & Hb).
  cbn [fetchFrom]. unfold bind at 1. unfold tryCatch. unfold bind at 1.
  rewrite Hb.
  destruct (transport env (calls w) url) as [r | c].
  - destruct (status r =? 429); [exists w1; split; [exact H1 | reflexivity] |].
    destruct (negb (ok r)); [| exists w1; split; [exact H1 | reflexivity]].
    unfold bind.
    destruct (attemptCatch_quiet attempt w1) as (w2 & -> & H2).
    exists w2. split; [congruence | reflexivity].
  - unfold bind.
    destruct (attemptCatch_quiet attempt w1) as (w2 & -> & H2).
    exists w2. split; [congruence | reflexivity].
Qed.

Lemma ok_not_429 r : ok r = true -> (status r =? 429) = false.
Proof.
  unfold ok. intros H. apply andb_true_iff in H as [_ H].
  apply Z.leb_le in H. apply Z.eqb_neq. lia.
Qed.

Lemma failing_causeOf o acc n url attempt w1 :
  failing o ->
  match o with
  | Rejected c =>
      fetchFrom env config url n attempt (Some (NetworkError c)) w1
  | Replied r =>
      if status r =? 429 then fetchFrom env config url n attempt acc w1
      else if negb (ok r) then
        fetchFrom env config url n attempt (Some (HttpError (status r))) w1
      else (Ok r, w1)
  end
  = fetchFrom env config url n attempt
              (match causeOf o with Some e => Some e | None => acc end) w1.
Proof.
  destruct o as [r | c]; cbn; [| reflexivity].
  intros ->. cbn. destruct (status r =? 429); reflexivity.
Qed.

(** When every attempt fails the loop runs to its end. *)
Lemma fetchFrom_all_fail url n :
  forall attempt lastError w,
    (forall i, (i < n)%nat -> failing (transport env (calls w + i) url)) ->
    exists w',
      fetchFrom env config url n attempt lastError w
      = (Throw (exhaustedWith config url
                  (lastCause env url (calls w) n lastError)), w')
      /\ calls w' = (calls w + n)%nat.
Proof.
  induction n as [|n IH]; intros attempt lastError w Hfail.
  - exists w. split; [reflexivity | lia].
  - destruct (fetchFrom_iteration url n attempt lastError w)
      as (w1 & H1 & ->).
    pose proof (Hfail 0%nat ltac:(lia)) as H0.
    rewrite Nat.add_0_r in H0.
    rewrite (failing_causeOf _ lastError) by exact H0.
    destruct (IH (attempt + 1)
                 (match causeOf (transport env (calls w) url) with
                  | Some e => Some e
                  | None => lastError
                  end) w1) as (w' & Hw' & Hc).
    { intros i Hi. rewrite H1.
      replace (S (calls w) + i)%nat with (calls w + S i)%nat by lia.
      apply Hfail. lia. }
    exists w'. split.
    + rewrite Hw', H1. reflexivity.
    + lia.
Qed.

(** When [k] attempts fail and the next one succeeds, the loop returns
    its response after [k + 1] transport calls. *)
Lemma fetchFrom_success_after url k :
  forall n attempt lastError w r,
    (k < n)%nat ->
    (forall i, (i < k)%nat -> failing (transport env (calls w + i) url)) ->
    transport env (calls w + k) url = Replied r -> ok r = true ->
    exists w',
      fetchFrom env config url n attempt lastError w = (Ok r, w')
      /\ calls w' = (calls w + k + 1)%nat.
Proof.
  induction k as [|k IH]; intros n attempt lastError w r Hk Hfail Hr Hok;
    (destruct n as [|n]; [lia |]);
    destruct (fetchFrom_iteration url n attempt lastError w)
      as (w1 & H1 & ->).
  - rewrite Nat.add_0_r in Hr. rewrite Hr, (ok_not_429 r Hok), Hok. cbn.
    exists w1. split; [reflexivity | lia].
  - pose proof (Hfail 0%nat ltac:(lia)) as H0.
    rewrite Nat.add_0_r in H0.
    rewrite (failing_causeOf _ lastError) by exact H0.
    destruct (IH n (attempt + 1)
                 (match causeOf (transport env (calls w) url) with
                  | Some e => Some e
                  | None => lastError
                  end) w1 r) as (w' & Hw' & Hc).
    + lia.
    + intros i Hi. rewrite H1.
      replace (S (calls w) + i)%nat with (calls w + S i)%nat by lia.
      apply Hfail. lia.
    + rewrite H1.
      replace (S (calls w) + k)%nat with (calls w + S k)%nat by lia.
      exact Hr.
    + exact Hok.
    + exists w'. split; [exact Hw' | lia].
Qed.

(** Whatever the transport does, the loop makes at most [n] calls. *)
Lemma fetchFrom_calls_bound url n :
  forall attempt lastError w,
    (calls w <= calls (snd (fetchFrom env config url n attempt lastError w))
     <= calls w + n)%nat.
Proof.
  induction n as [|n IH]; intros attempt lastError w.
  - cbn. lia.
  - destruct (fetchFrom_iteration url n attempt lastError w)
      as (w1 & H1 & ->).
    destruct (transport env (calls w) url) as [r | c].
    + destruct (status r =? 429);
        [specialize (IH (attempt + 1) lastError w1); lia |].
      destruct (negb (ok r)); [| cbn; lia].
      specialize (IH (attempt + 1) (Some (HttpError (status r))) w1). lia.
    + specialize (IH (attempt + 1) (Some (NetworkError c)) w1). lia.
Qed.

End Retry.

(** C8. Through [fetch], with [retryAttempts] as the number of attempts:
    when the transport fails the first [k < retryAttempts] attempts
    (rejection, or a status that is not a success) and then answers with
    a success, [fetch] returns that response after exactly [k + 1]
    transport calls; when the transport fails every attempt, [fetch] makes
    exactly [retryAttempts] calls and then throws the last error caught,
    or, when none was caught (every attempt ended in a 429), the error
    "Failed to fetch ... after ... attempts"; whatever the transport does,
    [fetch] never makes more than [retryAttempts] calls. *)
Theorem fetch_retry_bounded env config url w :
  (forall k r,
      Z.of_nat k < retryAttempts config ->
      (forall i, (i < k)%nat -> failing (transport env (calls w + i) url)) ->
      transport env (calls w + k) url = Replied r -> ok r = true ->
      exists w',
        fetch env config url w = (Ok r, w')
        /\ calls w' = (calls w + k + 1)%nat)
  /\ ((forall i, Z.of_nat i < retryAttempts config ->
                 failing (transport env (calls w + i) url)) ->
      exists w',
        fetch env config url w
        = (Throw (exhaustedWith config url
                    (lastCause env url (calls w)
                               (Z.to_nat (retryAttempts config)) None)), w')
        /\ Z.of_nat (calls w')
           = Z.of_nat (calls w) + Z.max 0 (retryAttempts config))
  /\ (forall res w',
         fetch env config url w = (res, w') ->
         Z.of_nat (calls w')
         <= Z.of_nat (calls w) + Z.max 0 (retryAttempts config)).
Proof.
  unfold fetch. split; [| split].
  - intros k r Hk Hfail Hr Hok.
    apply (fetchFrom_success_after env config url k); auto. lia.
  - intros Hfail.
    destruct (fetchFrom_all_fail env config url
                (Z.to_nat (retryAttempts config)) 0 None w)
      as (w' & Hw' & Hc).
    { intros i Hi. apply Hfail. lia. }
    exists w'. split; [exact Hw' | lia].
  - intros res w' H.
    pose proof (fetchFrom_calls_bound env config url
                  (Z.to_nat (retryAttempts config)) 0 None w) as B.
    rewrite H in B. cbn in B. lia.
Qed.

(** Two failures, then a success, with three attempts allowed; and a
    transport that is down, with three attempts allowed. *)
Lemma fetch_retry_bounded_witness :
  let config := RateLimitedFetcher.new None in
  let up := sampleEnv (flakyTransport 2 (sampleResponse 200 [])) in
  let down := sampleEnv deadTransport in
  (exists w',
      fetch up config "https://example.com" (initialWorld 0)
      = (Ok (sampleResponse 200 []), w')
      /\ calls w' = 3%nat)
  /\ (exists w',
         fetch down config "https://example.com" (initialWorld 0)
         = (Throw (NetworkError "ENOTFOUND"), w')
         /\ Z.of_nat (calls w') = 3).
Proof.
  cbv zeta. split.
  - apply (proj1 (fetch_retry_bounded
                    (sampleEnv (flakyTransport 2 (sampleResponse 200 [])))
                    (RateLimitedFetcher.new None) "https://example.com"
                    (initialWorld 0)) 2%nat (sampleResponse 200 [])).
    + cbn. lia.
    + intros i Hi. cbn. unfold flakyTransport.
      destruct (Nat.ltb_spec i 2); [exact I | lia].
    + reflexivity.
    + reflexivity.
  - apply (proj1 (proj2 (fetch_retry_bounded
                           (sampleEnv deadTransport)
                           (RateLimitedFetcher.new None)
                           "https://example.com" (initialWorld 0)))).
    intros i Hi. exact I.
Defined.

(** Three answers 429 in a row: no error was caught, the loop ends with
    the error it makes up itself. *)
Example fetch_always_rate_limited :
  fst (fetch (sampleEnv (fun _ _ => Replied (sampleResponse 429 [])))
             (RateLimitedFetcher.new None) "https://example.com"
             (initialWorld 0))
  = Throw (ExhaustedError "https://example.com" 3).
Proof. vm_compute. reflexivity. Qed.

(** The timers of a fetch whose three attempts are rejected: the backoff
    doubles, and the last attempt is not followed by any. *)
Example fetch_backoff_timers :
  timers (snd (fetch (sampleEnv deadTransport) (RateLimitedFetcher.new None)
                     "https://example.com" (initialWorld 0)))
  = [10000; 5000].
Proof. vm_compute. reflexivity. Qed.

(* ================================================================== *)
(** * RateLimitedFetcher.ts: the rolling window *)
(* ================================================================== *)

Section Counting.

Variable A : Type.
Implicit Types (p q : A -> bool) (l : list A).

Lemma filter_length_bound p l :
  (List.length (filter p l) <= List.length l)%nat.
Proof.
  induction l as [|x l IH]; cbn; [lia |]. destruct (p x); cbn; lia.
Qed.

Lemma filter_filter_implied p q l :
  (forall x, p x = true -> q x = true) ->
  filter p (filter q l) = filter p l.
Proof.
  intros Hpq. induction l as [|x l IH]; cbn; [reflexivity |].
  destruct (q x) eqn:Eq; cbn; destruct (p x) eqn:Ep;
    try (now rewrite IH).
  rewrite (Hpq x Ep) in Eq. discriminate Eq.
Qed.

End Counting.

Section Window.

Variable env : Env.
Variable config : RateLimiterConfig.

Let max := maxRequestsPerMinute config.

(** A delay in the range of [setTimeout] runs as it is, and every timer
    runs for at least 1 ms. *)
Lemma timerDelay_in_range ms :
  1 <= ms <= TIMEOUT_MAX -> timerDelay ms = ms.
Proof.
  intros Hms. unfold timerDelay.
  destruct (Z.leb_spec 1 ms); [| lia].
  destruct (Z.leb_spec ms TIMEOUT_MAX); [reflexivity | lia].
Qed.

Lemma timerDelay_positive ms : 1 <= timerDelay ms.
Proof.
  unfold timerDelay.
  destruct (Z.leb_spec 1 ms); [| cbn [andb]; lia].
  destruct (Z.leb_spec ms TIMEOUT_MAX); cbn [andb]; lia.
Qed.

(** [admission] is [waitForRateLimit], one more reading of the clock, and the
    push of what was read. *)
Lemma admission_run w :
  exists w1,
    waitForRateLimit env config w = (Ok tt, w1)
    /\ let stamp := clock w1 + Z.of_nat (elapsed env (reads w1)) in
       admission env config w
       = (Ok tt, mkWorld stamp (S (reads w1)) (calls w1)
                         (requestTimestamps w1 ++ [stamp])
                         (stamp :: issued w1) (timers w1)).
Proof.
  destruct (waitForRateLimit_quiet env config w) as (w1 & Hw & _).
  exists w1. split; [exact Hw |].
  unfold admission, bind. rewrite Hw. reflexivity.
Qed.

(** Where [waitForRateLimit] leaves the world: the window is purged at the
    first reading [now]; the timeline is untouched; when the window was
    full and held nothing of the future, 60000 ms have passed since its
    oldest timestamp. *)
Lemma waitForRateLimit_effect w w1 :
  waitForRateLimit env config w = (Ok tt, w1) ->
  let now := clock w + Z.of_nat (elapsed env (reads w)) in
  let kept := keptAt now (requestTimestamps w) in
  requestTimestamps w1 = kept
  /\ issued w1 = issued w
  /\ now <= clock w1
  /\ ((forall x, In x (requestTimestamps w) -> x <= clock w) ->
      max <= Z.of_nat (List.length kept) ->
      forall oldest rest, kept = oldest :: rest ->
                          oldest + 60000 <= clock w1).
Proof.
  rewrite waitForRateLimit_run. cbv zeta. fold max.
  remember (clock w + Z.of_nat (elapsed env (reads w))) as now eqn:En.
  remember (keptAt now (requestTimestamps w)) as kept eqn:Ek.
  remember (now + Z.of_nat (elapsed env (S (reads w)))) as now' eqn:En'.
  intros H. apply (f_equal snd) in H. cbn [snd] in H. subst w1.
  destruct (Z.geb_spec (Z.of_nat (List.length kept)) max) as [Hfull | Hfree].
  - destruct kept as [|oldest rest].
    + cbn [clock requestTimestamps issued].
      repeat split; try reflexivity; try lia. intros _ _ o r Heq.
      discriminate Heq.
    + pose proof (timerDelay_positive (60000 - (now' - oldest))) as Hpos.
      destruct (Z.ltb_spec 0 (60000 - (now' - oldest))) as [Hwait | Hnone];
        cbn [clock requestTimestamps issued];
        (repeat split; try reflexivity; try lia);
        intros Hpast _ o r Heq; assert (Ho : o = oldest) by congruence;
        rewrite Ho; [| lia].
      assert (Hold : oldest <= clock w).
      { assert (Hin : In oldest (keptAt now (requestTimestamps w)))
          by (rewrite <- Ek; now left).
        unfold keptAt in Hin. apply filter_In in Hin as [Hin _].
        now apply Hpast. }
      rewrite timerDelay_in_range by (unfold TIMEOUT_MAX; lia). lia.
  - cbn [clock requestTimestamps issued].
    repeat split; try reflexivity; try lia.
Qed.

Lemma keptAt_In now stamps x :
  In x (keptAt now stamps) <-> In x stamps /\ now - 60000 < x.
Proof.
  unfold keptAt. rewrite filter_In, Z.ltb_lt. reflexivity.
Qed.

Lemma countIn_cons_outside t x l :
  inWindow t x = false -> countIn t (x :: l) = countIn t l.
Proof. unfold countIn. cbn. now intros ->. Qed.

Lemma countIn_cons_le t x l : (countIn t (x :: l) <= S (countIn t l))%nat.
Proof. unfold countIn. cbn. destruct (inWindow t x); cbn; lia. Qed.

Lemma WindowInv_fresh t0 : 0 <= max -> WindowInv max (initialWorld t0).
Proof.
  intros Hmax. unfold WindowInv, initialWorld. cbn.
  repeat split; try contradiction. intros t. unfold countIn. cbn. lia.
Qed.

Lemma WindowInv_idle w w' :
  WindowInv max w ->
  clock w <= clock w' ->
  requestTimestamps w' = requestTimestamps w ->
  issued w' = issued w ->
  WindowInv max w'.
Proof.
  intros (I1 & I2 & I3 & I4) Hc Hr Hi. unfold WindowInv.
  rewrite Hr, Hi. repeat split.
  - intros x Hx. specialize (I1 x Hx). lia.
  - intros x Hx. specialize (I2 x Hx). lia.
  - intros p Hp. apply I3. intros x Hx. specialize (Hp x Hx). lia.
  - exact I4.
Qed.

(** An admission keeps the invariant, provided the budget is at least one
    request. *)
Lemma WindowInv_admission w w' :
  1 <= max ->
  WindowInv max w ->
  admission env config w = (Ok tt, w') ->
  WindowInv max w'.
Proof.
  intros Hmax (I1 & I2 & I3 & I4) Hadm.
  destruct (admission_run w) as (w1 & Hwait & Hrun). cbv zeta in Hrun.
  rewrite Hrun in Hadm. injection Hadm as <-.
  destruct (waitForRateLimit_effect w w1 Hwait) as (Hk & Hi & Hnow & Hfull).
  cbv zeta in Hk, Hnow, Hfull.
  set (now := clock w + Z.of_nat (elapsed env (reads w))) in *.
  set (kept := keptAt now (requestTimestamps w)) in *.
  set (stamp := clock w1 + Z.of_nat (elapsed env (reads w1))).
  assert (Hnow0 : clock w <= now) by (subst now; lia).
  assert (Hstamp : clock w1 <= stamp) by (subst stamp; lia).
  assert (Hkept_le : forall x, In x kept -> x <= clock w).
  { intros x Hx. apply keptAt_In in Hx as [Hx _]. now apply I2. }
  (* what the window keeps is what the timeline has in the window *)
  assert (Hcount : forall p : Z -> bool,
             (forall x, p x = true -> now - 60000 < x) ->
             List.length (filter p (issued w))
             = List.length (filter p kept)).
  { intros p Hp. rewrite I3 by (intros x Hx; specialize (Hp x Hx); lia).
    subst kept. unfold keptAt. rewrite filter_filter_implied; [reflexivity |].
    intros x Hx. apply Z.ltb_lt. now apply Hp. }
  assert (Hlen : Z.of_nat (List.length kept) <= max).
  { specialize (I4 now). unfold countIn in I4.
    rewrite (filter_ext_in (inWindow now) (fun x => now - 60000 <? x)) in I4.
    - rewrite Hcount in I4 by (intros x Hx; now apply Z.ltb_lt).
      subst kept. unfold keptAt in *.
      rewrite filter_filter_implied in I4 by auto. exact I4.
    - intros x Hx. unfold inWindow. specialize (I1 x Hx).
      destruct (Z.leb_spec x now); [apply andb_true_r | lia]. }
  unfold WindowInv.
  cbn [clock requestTimestamps issued]. rewrite Hk, Hi.
  repeat split.
  - intros x [<- | Hx]; [lia |]. specialize (I1 x Hx). lia.
  - intros x Hx. apply in_app_or in Hx as [Hx | [<- | []]]; [| lia].
    specialize (Hkept_le x Hx). lia.
  - intros p Hp. cbn [filter]. rewrite filter_app, length_app. cbn [filter].
    rewrite <- (Hcount p) by (intros x Hx; specialize (Hp x Hx); lia).
    destruct (p stamp); cbn [List.length]; lia.
  - intros t. destruct (Z.lt_ge_cases t stamp) as [Hlt | Hge].
    + rewrite countIn_cons_outside; [apply I4 |].
      unfold inWindow. destruct (Z.leb_spec stamp t); [lia |].
      apply andb_false_r.
    + pose proof (countIn_cons_le t stamp (issued w)) as Hle.
      enough (Z.of_nat (countIn t (issued w)) <= max - 1) by lia.
      unfold countIn.
      rewrite (Hcount (inWindow t)).
      2:{ intros x Hx. unfold inWindow in Hx.
          apply andb_true_iff in Hx as [Hx _]. apply Z.ltb_lt in Hx. lia. }
      destruct (Z.lt_ge_cases (Z.of_nat (List.length kept)) max)
        as [Hfree | Hfilled].
      * pose proof (filter_length_bound _ (inWindow t) kept). lia.
      * destruct kept as [|oldest rest] eqn:Ek; [cbn in Hfilled; lia |].
        specialize (Hfull I2 ltac:(lia) oldest rest eq_refl).
        cbn [filter].
        replace (inWindow t oldest) with false.
        -- pose proof (filter_length_bound _ (inWindow t) rest).
           cbn [List.length] in Hlen. lia.
        -- symmetry. unfold inWindow.
           destruct (Z.ltb_spec (t - 60000) oldest); [lia | reflexivity].
Qed.

(** Every reachable world satisfies the invariant. *)
Lemma Reachable_WindowInv w :
  1 <= max -> Reachable env config w -> WindowInv max w.
Proof.
  intros Hmax H. induction H as [t0 | w w' _ IH Ha | w w' _ IH Hc Hr Hi].
  - apply WindowInv_fresh. lia.
  - eapply WindowInv_admission; eauto.
  - eapply WindowInv_idle; eauto.
Qed.

(** ** The retry loop goes through reachable worlds *)

Lemma Reachable_idle_step {A} (m : M A) w r w' :
  idle m -> Reachable env config w -> m w = (r, w') ->
  Reachable env config w'.
Proof.
  intros Hm Hw Hrun. destruct (Hm w r w' Hrun) as (Hc & Hr & Hi).
  eapply reach_idle; eauto.
Qed.

Lemma sleep_idle ms : idle (sleep ms).
Proof.
  intros w r w' H. injection H as _ <-. cbn [clock requestTimestamps issued].
  pose proof (timerDelay_positive ms). repeat split. lia.
Qed.

Lemma ret_idle {A} (a : A) : idle (ret a).
Proof. intros w r w' H. injection H as _ <-. repeat split. lia. Qed.

Lemma throw_idle {A} e : idle (@throw A e).
Proof. intros w r w' H. injection H as _ <-. repeat split. lia. Qed.

Lemma globalFetch_idle url : idle (globalFetch env url).
Proof.
  intros w r w' H. unfold globalFetch in H.
  destruct (transport env (calls w) url); injection H as _ <-;
    cbn; repeat split; lia.
Qed.

Lemma handleRateLimitResponse_idle response :
  idle (handleRateLimitResponse config response).
Proof.
  unfold handleRateLimitResponse.
  destruct (retryAfter response) as [[|c s]|]; try apply sleep_idle.
  destruct (JS.lift2 _ _ _); apply sleep_idle.
Qed.

Lemma attemptCatch_idle attempt : idle (attemptCatch config attempt).
Proof.
  unfold attemptCatch. destruct (_ <? _); [apply sleep_idle | apply ret_idle].
Qed.

Lemma attemptBody_reachable url w r w' :
  Reachable env config w ->
  attemptBody env config url w = (r, w') ->
  Reachable env config w'.
Proof.
  intros Hw H. unfold attemptBody, bind in H.
  destruct (admission_quiet env config w) as (w0 & Ha & _). rewrite Ha in H.
  assert (H0 : Reachable env config w0) by (eapply reach_admission; eauto).
  destruct (globalFetch env url w0) as [[response | e] w1] eqn:Ef.
  - assert (H1 : Reachable env config w1)
      by (eapply Reachable_idle_step; eauto using globalFetch_idle).
    destruct (status response =? 429).
    + destruct (handleRateLimitResponse config response w1)
        as [[[] | e] w2] eqn:Eh.
      * injection H as _ <-.
        eapply Reachable_idle_step; eauto using handleRateLimitResponse_idle.
      * injection H as _ <-.
        eapply Reachable_idle_step; eauto using handleRateLimitResponse_idle.
    + destruct (negb (ok response)); injection H as _ <-; exact H1.
  - injection H as _ <-.
    eapply Reachable_idle_step; eauto using globalFetch_idle.
Qed.

Lemma fetchFrom_reachable url n :
  forall attempt lastError w r w',
    Reachable env config w ->
    fetchFrom env config url n attempt lastError w = (r, w') ->
    Reachable env config w'.
Proof.
  induction n as [|n IH]; intros attempt lastError w r w' Hw H.
  - injection H as _ <-. exact Hw.
  - cbn [fetchFrom] in H. unfold bind at 1 in H. unfold tryCatch in H.
    unfold bind at 1 in H.
    destruct (attemptBody env config url w) as [[c | e] w1] eqn:Eb.
    + pose proof (attemptBody_reachable url w _ w1 Hw Eb) as H1.
      cbn in H. destruct c as [response |].
      * injection H as _ <-. exact H1.
      * eapply IH; eauto.
    + pose proof (attemptBody_reachable url w _ w1 Hw Eb) as H1.
      unfold bind in H.
      destruct (attemptCatch config attempt w1) as [[[] | e'] w2] eqn:Ec.
      * assert (H2 : Reachable env config w2)
          by (eapply Reachable_idle_step; eauto using attemptCatch_idle).
        cbn in H. eapply IH; eauto.
      * injection H as _ <-.
        eapply Reachable_idle_step; eauto using attemptCatch_idle.
Qed.

Lemma fetch_reachable url w r w' :
  Reachable env config w ->
  fetch env config url w = (r, w') ->
  Reachable env config w'.
Proof. unfold fetch. apply fetchFrom_reachable. Qed.

End Window.

Section Suspension.

Variable env : Env.
Variable config : RateLimiterConfig.

(** How long [waitForRateLimit] suspends its caller. *)
Lemma waitForRateLimit_suspends w :
  let now := clock w + Z.of_nat (elapsed env (reads w)) in
  let kept := keptAt now (requestTimestamps w) in
  let now' := now + Z.of_nat (elapsed env (S (reads w))) in
  exists w1,
    waitForRateLimit env config w = (Ok tt, w1)
    /\ requestTimestamps w1 = kept
    /\ (maxRequestsPerMinute config <= Z.of_nat (List.length kept) ->
        forall oldest rest,
          kept = oldest :: rest ->
          let waitTime := 60000 - (now' - oldest) in
          clock w1 = now' + (if waitTime <=? TIMEOUT_MAX
                             then Z.max 0 waitTime else 1)
          /\ ((forall x, In x (requestTimestamps w) -> x <= clock w) ->
              waitTime <= 60000)
          /\ timers w1 = if 0 <? waitTime then waitTime :: timers w
                         else timers w)
    /\ (Z.of_nat (List.length kept) < maxRequestsPerMinute config ->
        clock w1 = now /\ timers w1 = timers w).
Proof.
  cbv zeta. rewrite waitForRateLimit_run. cbv zeta.
  remember (clock w + Z.of_nat (elapsed env (reads w))) as now eqn:En.
  remember (keptAt now (requestTimestamps w)) as kept eqn:Ek.
  remember (now + Z.of_nat (elapsed env (S (reads w)))) as now' eqn:En'.
  eexists. split; [reflexivity |].
  destruct (Z.geb_spec (Z.of_nat (List.length kept))
                       (maxRequestsPerMinute config)) as [Hfull | Hfree].
  - destruct kept as [|oldest rest].
    + cbn [clock requestTimestamps timers].
      split; [reflexivity |]. split; [| lia].
      intros _ o r Heq. discriminate Heq.
    + assert (Hbound : (forall x, In x (requestTimestamps w) -> x <= clock w)
                       -> 60000 - (now' - oldest) <= 60000).
      { intros Hpast.
        assert (Hold : oldest <= clock w).
        { assert (Hin : In oldest (keptAt now (requestTimestamps w)))
            by (rewrite <- Ek; now left).
          unfold keptAt in Hin. apply filter_In in Hin as [Hin _].
          now apply Hpast. }
        lia. }
      destruct (Z.ltb_spec 0 (60000 - (now' - oldest))) as [Hpos | Hneg];
        cbn [clock requestTimestamps timers];
        (split; [reflexivity |]); (split; [| lia]);
        intros _ o r Heq; assert (Ho : o = oldest) by congruence;
        rewrite Ho.
      * destruct (Z.ltb_spec 0 (60000 - (now' - oldest))); [| lia].
        split; [| split; [exact Hbound | reflexivity]].
        unfold timerDelay.
        destruct (Z.leb_spec 1 (60000 - (now' - oldest))); [| lia].
        destruct (Z.leb_spec (60000 - (now' - oldest)) TIMEOUT_MAX);
          cbn [andb]; lia.
      * destruct (Z.ltb_spec 0 (60000 - (now' - oldest))); [lia |].
        split; [| split; [exact Hbound | reflexivity]].
        destruct (Z.leb_spec (60000 - (now' - oldest)) TIMEOUT_MAX);
          [lia | unfold TIMEOUT_MAX in *; lia].
  - cbn [clock requestTimestamps timers].
    split; [reflexivity |]. split; [lia |]. intros _. split; reflexivity.
Qed.

End Suspension.

(** C7 as amended. With a budget of at least one request per minute: in
    every world that one fetcher reaches by admissions issued one after the
    other, whatever happens between them, no trailing window of 60000 ms
    holds more than [maxRequestsPerMinute] of the recorded issuance
    timestamps, and [fetch] goes through such worlds only.  Whatever the
    budget: [waitForRateLimit] first drops from the window every timestamp
    that is 60000 ms old or older at the time [now] it reads; when the
    window is then full, with [oldest] its first timestamp, the caller is
    suspended for [60000 - (now' - oldest)] ms when that is positive and
    not at all otherwise, [now'] being the second reading of the clock
    (a wait above the 2^31 - 1 ms that [setTimeout] takes would run as
    1 ms, but the wait is at most 60000 ms whenever the window holds
    nothing of the future); when the window is not full there is no
    suspension; the issuance timestamp is read and recorded after
    that. *)
Theorem rolling_window_bound env config :
  (1 <= maxRequestsPerMinute config ->
   (forall w, Reachable env config w ->
              forall t, Z.of_nat (countIn t (issued w))
                        <= maxRequestsPerMinute config)
   /\ (forall w url r w',
          Reachable env config w ->
          fetch env config url w = (r, w') ->
          Reachable env config w'))
  /\ forall w,
       let now := clock w + Z.of_nat (elapsed env (reads w)) in
       let kept := keptAt now (requestTimestamps w) in
       let now' := now + Z.of_nat (elapsed env (S (reads w))) in
       (forall x, In x kept <-> In x (requestTimestamps w) /\ now - x < 60000)
       /\ exists w1,
            waitForRateLimit env config w = (Ok tt, w1)
            /\ requestTimestamps w1 = kept
            /\ (maxRequestsPerMinute config <= Z.of_nat (List.length kept) ->
                forall oldest rest,
                  kept = oldest :: rest ->
                  let waitTime := 60000 - (now' - oldest) in
                  clock w1 = now' + (if waitTime <=? TIMEOUT_MAX
                                     then Z.max 0 waitTime else 1)
                  /\ ((forall x, In x (requestTimestamps w) ->
                                 x <= clock w) ->
                      waitTime <= 60000)
                  /\ timers w1 = if 0 <? waitTime then waitTime :: timers w
                                 else timers w)
            /\ (Z.of_nat (List.length kept) < maxRequestsPerMinute config ->
                clock w1 = now /\ timers w1 = timers w)
            /\ exists stamp w2,
                 admission env config w = (Ok tt, w2)
                 /\ clock w1 <= stamp
                 /\ issued w2 = stamp :: issued w
                 /\ requestTimestamps w2 = kept ++ [stamp].
Proof.
  split.
  - intros Hmax. split.
    + intros w Hw.
      destruct (Reachable_WindowInv env config w Hmax Hw) as (_ & _ & _ & H).
      exact H.
    + intros w url r w'. apply fetch_reachable.
  - intros w. cbv zeta. split.
    + intros x. rewrite keptAt_In. intuition lia.
    + destruct (waitForRateLimit_suspends env config w)
        as (w1 & Hw & Hk & Hfull & Hfree).
      cbv zeta in Hk, Hfull, Hfree.
      exists w1. repeat (split; [assumption |]).
      destruct (admission_run env config w) as (w1' & Hw' & Hrun).
      assert (w1' = w1) by congruence. subst w1'. cbv zeta in Hrun.
      destruct (waitForRateLimit_effect env config w w1 Hw)
        as (_ & Hi & _ & _).
      eexists. eexists. split; [exact Hrun |].
      cbn [issued requestTimestamps]. rewrite Hi, Hk.
      repeat split. lia.
Qed.

(** Three admissions at once under a budget of two: the third one waits
    for the window to drain. *)
Lemma rolling_window_bound_witness :
  let config := mkConfig 2 3 5000 in
  let env := sampleEnv deadTransport in
  exists w,
    Reachable env config w
    /\ issued w = [60003; 4; 2]
    /\ forall t, Z.of_nat (countIn t (issued w)) <= 2.
Proof.
  cbv zeta.
  set (config := mkConfig 2 3 5000).
  set (env := sampleEnv deadTransport).
  set (w1 := snd (admission env config (initialWorld 0))).
  set (w2 := snd (admission env config w1)).
  set (w3 := snd (admission env config w2)).
  assert (H1 : Reachable env config w1)
    by (apply (reach_admission env config (initialWorld 0) w1);
        [apply reach_fresh | reflexivity]).
  assert (H2 : Reachable env config w2)
    by (apply (reach_admission env config w1 w2); [exact H1 | reflexivity]).
  assert (H3 : Reachable env config w3)
    by (apply (reach_admission env config w2 w3); [exact H2 | reflexivity]).
  exists w3. split; [exact H3 |]. split; [reflexivity |].
  exact (proj1 (proj1 (rolling_window_bound env config) ltac:(cbn; lia))
               w3 H3).
Defined.

(** C7 as stated fails under a budget of zero: the window is full while
    empty, there is no oldest timestamp to wait for, and the request is
    let through at once. *)
Lemma zero_budget_counterexample :
  let config := mkConfig 0 3 5000 in
  let env := sampleEnv deadTransport in
  exists w,
    Reachable env config w
    /\ issued w = [3]
    /\ ~ (forall t, Z.of_nat (countIn t (issued w))
                    <= maxRequestsPerMinute config).
Proof.
  cbv zeta.
  exists (snd (admission (sampleEnv deadTransport) (mkConfig 0 3 5000)
                     (initialWorld 0))).
  split.
  { apply (reach_admission _ _ (initialWorld 0)); [apply reach_fresh |].
    reflexivity. }
  split; [reflexivity |].
  intros H. specialize (H 3). vm_compute in H. apply H. reflexivity.
Qed.

(* ================================================================== *)
(** * WebScraper.ts: analyzeWebsiteHistory *)
(* ================================================================== *)

Section Analysis.

Variable env : Env.
Variable this : Scraper.

(** [fetchContent] never throws: a failed fetch yields the empty string. *)
Lemma fetchContent_total url w :
  exists content w',
    fetchContent env (fetcher this) url w = (Ok content, w').
Proof.
  unfold fetchContent, tryCatch, bind.
  destruct (fetchText env (fetcher this) url w) as [[html | e] w1];
    eexists; eexists; reflexivity.
Qed.

Lemma fetchContent_on_failure url w e w1 :
  fetchText env (fetcher this) url w = (Throw e, w1) ->
  fetchContent env (fetcher this) url w = (Ok EmptyString, w1).
Proof.
  intros H. unfold fetchContent, tryCatch, bind. rewrite H. reflexivity.
Qed.

(** With no capture at all, the analysis reads [captures[0].timestamp] and
    throws. *)
Lemma analyzeAgainst_empty currentContent yearRange maxYearlyCaptures w w1 :
  getAllCaptures env this yearRange maxYearlyCaptures w = (Ok [], w1) ->
  exists w2,
    analyzeAgainst env this currentContent yearRange maxYearlyCaptures w
    = (Throw undefinedTimestamp, w2).
Proof.
  intros H. unfold analyzeAgainst, bind at 1. rewrite H.
  cbn [analyzeCaptures]. unfold bind, ret, Date_now, throw.
  eexists. reflexivity.
Qed.

End Analysis.

(** C1, on the code: when the capture index yields no snapshot over the
    whole range of years, [analyzeWebsiteHistory] does fail, yet with the
    TypeError of reading [timestamp] of the undefined [captures[0]]: the
    list of captures is indexed without any check that it is not empty. *)
Theorem empty_index_throws_TypeError env this yearRange maxYearlyCaptures
  w currentContent w1 w2 :
  fetchContent env (fetcher this) (target this) w = (Ok currentContent, w1) ->
  getAllCaptures env this yearRange maxYearlyCaptures w1 = (Ok [], w2) ->
  exists w3,
    analyzeWebsiteHistory env this yearRange maxYearlyCaptures w
    = (Throw undefinedTimestamp, w3).
Proof.
  intros Hc Hg. unfold analyzeWebsiteHistory, bind at 1. rewrite Hc.
  eapply analyzeAgainst_empty; eauto.
Qed.

(** An index without captures, asked for the years 2023 and 2022. *)
Lemma empty_index_throws_TypeError_witness :
  exists w3,
    analyzeWebsiteHistory (sampleEnv emptyIndex) sampleScraper 1 1 sampleStart
    = (Throw undefinedTimestamp, w3).
Proof.
  eapply (empty_index_throws_TypeError (sampleEnv emptyIndex) sampleScraper
            1 1 sampleStart).
  - vm_compute. reflexivity.
  - vm_compute. reflexivity.
Defined.

(** C2 as amended. When the fetch of the live page fails after all its
    attempts, [fetchContent] catches the error and returns the empty
    string, and [analyzeWebsiteHistory] goes on with the empty string as
    the content of the current page. *)
Theorem live_fetch_failure_continues env this yearRange maxYearlyCaptures
  w e w1 :
  fetchText env (fetcher this) (target this) w = (Throw e, w1) ->
  fetchContent env (fetcher this) (target this) w = (Ok EmptyString, w1)
  /\ analyzeWebsiteHistory env this yearRange maxYearlyCaptures w
     = analyzeAgainst env this EmptyString yearRange maxYearlyCaptures w1.
Proof.
  intros H.
  pose proof (fetchContent_on_failure env this (target this) w e w1 H) as Hc.
  split; [exact Hc |].
  unfold analyzeWebsiteHistory, bind at 1. rewrite Hc. reflexivity.
Qed.

Lemma live_fetch_failure_continues_witness :
  let env := sampleEnv (flakyTransport 3 oneCapture) in
  exists w1,
    fetchContent env (fetcher sampleScraper) (target sampleScraper)
                 sampleStart = (Ok EmptyString, w1)
    /\ analyzeWebsiteHistory env sampleScraper 0 1 sampleStart
       = analyzeAgainst env sampleScraper EmptyString 0 1 w1.
Proof.
  cbv zeta. eexists.
  eapply (live_fetch_failure_continues
            (sampleEnv (flakyTransport 3 oneCapture)) sampleScraper 0 1
            sampleStart).
  vm_compute. reflexivity.
Defined.

(** C2 as stated fails: the three attempts at the live page are rejected,
    the index and the snapshot answer, and the run returns a result, the
    snapshot being scored against the empty string. *)
Lemma live_fetch_failure_counterexample :
  let env := sampleEnv (flakyTransport 3 oneCapture) in
  (exists w1,
      fetchText env (fetcher sampleScraper) (target sampleScraper) sampleStart
      = (Throw (NetworkError "ECONNRESET"), w1))
  /\ exists result w',
       analyzeWebsiteHistory env sampleScraper 0 1 sampleStart
       = (Ok result, w')
       /\ totalCaptures result = 1
       /\ similarityScore result
          = sampleSimilarity EmptyString "<html>page</html>".
Proof.
  cbv zeta. split.
  - eexists. vm_compute. reflexivity.
  - eexists. eexists. split; [vm_compute; reflexivity |].
    split; reflexivity.
Qed.

(* ================================================================== *)
(** * Further properties of RateLimitedFetcher.ts *)
(* ================================================================== *)

Section FetchOutcomes.

Variable env : Env.
Variable config : RateLimiterConfig.

Lemma fetchFrom_outcomes url n :
  forall attempt lastError w res w',
    match lastError with
    | Some e => fetchError config url e
    | None => True
    end ->
    fetchFrom env config url n attempt lastError w = (res, w') ->
    match res with
    | Ok r => ok r = true /\ status r <> 429
    | Throw e => fetchError config url e
    end.
Proof.
  induction n as [|n IH]; intros attempt lastError w res w' Hle H.
  - cbn in H. injection H as <- _.
    destruct lastError as [e|]; [exact Hle | cbn; auto].
  - destruct (fetchFrom_iteration env config url n attempt lastError w)
      as (w1 & _ & Hit).
    rewrite Hit in H. clear Hit.
    destruct (transport env (calls w) url) as [r | c].
    + destruct (Z.eqb_spec (status r) 429) as [E429 | E429].
      * eapply IH; eauto.
      * destruct (ok r) eqn:Eok; cbn [negb] in H.
        -- injection H as <- _. split; [exact Eok | exact E429].
        -- eapply IH; [| exact H]. cbn. split; [exact E429 |].
           unfold ok in Eok. apply andb_false_iff in Eok.
           destruct Eok as [Eok | Eok]; apply Z.leb_gt in Eok; lia.
    + eapply IH; [| exact H]. exact I.
Qed.

End FetchOutcomes.

(** X1. Whatever the transport does, a response that [fetch] returns is a
    success: its status is in the range 200 to 299 (so it is not a 429). *)
Theorem fetch_returns_success_only env config url w r w' :
  fetch env config url w = (Ok r, w') ->
  200 <= status r <= 299.
Proof.
  intros H. unfold fetch in H.
  pose proof (fetchFrom_outcomes env config url _ 0 None w (Ok r) w' I H)
    as [Hok _].
  unfold ok in Hok. apply andb_true_iff in Hok as [H1 H2].
  apply Z.leb_le in H1, H2. lia.
Qed.

Lemma fetch_returns_success_only_witness :
  exists w',
    fetch (sampleEnv (flakyTransport 2 (sampleResponse 200 [])))
          (RateLimitedFetcher.new None) "https://example.com" (initialWorld 0)
    = (Ok (sampleResponse 200 []), w')
    /\ 200 <= status (sampleResponse 200 []) <= 299.
Proof.
  eexists. split; [vm_compute; reflexivity |].
  eapply (fetch_returns_success_only
            (sampleEnv (flakyTransport 2 (sampleResponse 200 [])))
            (RateLimitedFetcher.new None) "https://example.com"
            (initialWorld 0)).
  vm_compute. reflexivity.
Defined.

(** X2. What [fetch] throws is the rejection of the transport, or the
    HTTP error of a status that is neither a success nor 429, or, when no
    attempt was caught, the error "Failed to fetch <url> after <n>
    attempts" for its own url and attempt count; nothing else. *)
Theorem fetch_throws_transport_errors_only env config url w e w' :
  fetch env config url w = (Throw e, w') ->
  (exists cause, e = NetworkError cause)
  \/ (exists s, e = HttpError s /\ s <> 429 /\ ~ (200 <= s <= 299))
  \/ e = ExhaustedError url (retryAttempts config).
Proof.
  intros H. unfold fetch in H.
  pose proof (fetchFrom_outcomes env config url _ 0 None w (Throw e) w' I H)
    as He.
  destruct e as [s | c | u n | | t]; cbn in He; try contradiction.
  - right. left. exists s. auto.
  - left. now exists c.
  - right. right. destruct He as [-> ->]. reflexivity.
Qed.

Lemma fetch_throws_transport_errors_only_witness :
  exists w',
    fetch (sampleEnv (fun _ _ => Replied (sampleResponse 503 [])))
          (RateLimitedFetcher.new None) "https://example.com" (initialWorld 0)
    = (Throw (HttpError 503), w')
    /\ ((exists cause, HttpError 503 = NetworkError cause)
        \/ (exists s, HttpError 503 = HttpError s
                      /\ s <> 429 /\ ~ (200 <= s <= 299))
        \/ HttpError 503
           = ExhaustedError "https://example.com"
                            (retryAttempts (RateLimitedFetcher.new None))).
Proof.
  eexists. split; [vm_compute; reflexivity |].
  eapply (fetch_throws_transport_errors_only
            (sampleEnv (fun _ _ => Replied (sampleResponse 503 [])))
            (RateLimitedFetcher.new None) "https://example.com"
            (initialWorld 0)).
  vm_compute. reflexivity.
Defined.

Section FetchAccounting.

Variable env : Env.
Variable config : RateLimiterConfig.

(** What an admission changes. *)
Lemma admission_effect w :
  exists stamp w',
    admission env config w = (Ok tt, w')
    /\ calls w' = calls w
    /\ issued w' = stamp :: issued w
    /\ (List.length (requestTimestamps w')
        <= S (List.length (requestTimestamps w)))%nat
    /\ (Z.of_nat (List.length (requestTimestamps w))
        < maxRequestsPerMinute config ->
        timers w' = timers w).
Proof.
  destruct (admission_run env config w) as (w1 & Hw & Hrun).
  cbv zeta in Hrun.
  destruct (waitForRateLimit_effect env config w w1 Hw) as (Hk & Hi & _ & _).
  destruct (waitForRateLimit_quiet env config w) as (w1' & Hw' & Hc).
  assert (w1' = w1) by congruence. subst w1'.
  destruct (waitForRateLimit_suspends env config w)
    as (w1' & Hw'' & _ & _ & Hfree).
  assert (w1' = w1) by congruence. subst w1'.
  cbv zeta in Hk, Hfree.
  pose proof (filter_length_bound _
                (fun timestamp =>
                   clock w + Z.of_nat (elapsed env (reads w)) - 60000
                   <? timestamp) (requestTimestamps w)) as Hlen.
  fold (keptAt (clock w + Z.of_nat (elapsed env (reads w)))
               (requestTimestamps w)) in Hlen.
  eexists. eexists. split; [exact Hrun |].
  cbn [calls issued requestTimestamps timers].
  rewrite Hk, Hi, length_app. cbn [List.length].
  repeat split; try lia.
  intros Hroom. apply Hfree. lia.
Qed.

(** One iteration of the loop, with what it leaves in the world. *)
Lemma fetchFrom_iteration_effect url n attempt lastError w :
  exists w1,
    fetchFrom env config url (S n) attempt lastError w
    = match transport env (calls w) url with
      | Rejected c =>
          fetchFrom env config url n (attempt + 1)
                    (Some (NetworkError c)) w1
      | Replied r =>
          if status r =? 429 then
            fetchFrom env config url n (attempt + 1) lastError w1
          else if negb (ok r) then
            fetchFrom env config url n (attempt + 1)
                      (Some (HttpError (status r))) w1
          else (Ok r, w1)
      end
    /\ calls w1 = S (calls w)
    /\ List.length (issued w1) = S (List.length (issued w))
    /\ (List.length (requestTimestamps w1)
        <= S (List.length (requestTimestamps w)))%nat
    /\ (Z.of_nat (List.length (requestTimestamps w))
        < maxRequestsPerMinute config ->
        hardFailing (transport env (calls w) url) ->
        timers w1 = if attempt <? retryAttempts config - 1
                    then calculateBackoff config attempt :: timers w
                    else timers w).
Proof.
  destruct (admission_effect w) as (stamp & w0 & Ha & Hc0 & Hi0 & Hr0 & Ht0).
  cbn [fetchFrom]. unfold bind at 1. unfold tryCatch. unfold bind at 1.
  unfold attemptBody. unfold bind at 1. rewrite Ha.
  unfold bind at 1. unfold globalFetch. rewrite Hc0.
  set (wf := mkWorld (clock w0) (reads w0) (S (calls w)) (requestTimestamps w0)
                     (issued w0) (timers w0)).
  assert (Hcatch : forall w2,
             attemptCatch config attempt wf = (Ok tt, w2) ->
             calls w2 = S (calls w)
             /\ List.length (issued w2) = S (List.length (issued w))
             /\ (List.length (requestTimestamps w2)
                 <= S (List.length (requestTimestamps w)))%nat
             /\ (Z.of_nat (List.length (requestTimestamps w))
                 < maxRequestsPerMinute config ->
                 timers w2 = if attempt <? retryAttempts config - 1
                             then calculateBackoff config attempt :: timers w
                             else timers w)).
  { intros w2 H2. unfold attemptCatch in H2.
    destruct (attempt <? retryAttempts config - 1);
      apply (f_equal snd) in H2; cbn [snd sleep ret] in H2; subst w2;
      cbn [calls issued requestTimestamps timers wf];
      rewrite Hi0; cbn [List.length];
      (repeat split; try lia);
      intros Hroom; rewrite (Ht0 Hroom); reflexivity. }
  destruct (transport env (calls w) url) as [r | c].
  - destruct (Z.eqb_spec (status r) 429) as [E429 | E429].
    + cbv beta iota zeta. unfold bind at 1.
      destruct (handleRateLimitResponse_quiet config r wf) as (w2 & H2 & Hc2).
      rewrite H2.
      destruct (handleRateLimitResponse_idle config r wf (Ok tt) w2 H2)
        as (_ & Hr2 & Hi2).
      exists w2. split; [reflexivity |].
      rewrite Hc2, Hi2, Hr2. cbn [calls issued requestTimestamps wf].
      rewrite Hi0. cbn [List.length].
      repeat split; try lia.
      intros _ [Hn _]. apply Z.eqb_neq in Hn. contradiction.
    + destruct (negb (ok r)) eqn:Eok.
      * cbv beta iota zeta. unfold throw. unfold bind at 1.
        destruct (attemptCatch_quiet config attempt wf) as (w2 & H2 & _).
        rewrite H2. destruct (Hcatch w2 H2) as (A1 & A2 & A3 & A4).
        exists w2. split; [reflexivity |]. repeat split; auto.
      * cbv beta iota zeta. unfold ret.
        exists wf. split; [reflexivity |].
        cbn [calls issued requestTimestamps wf]. rewrite Hi0.
        cbn [List.length]. repeat split; try lia.
        intros _ [_ Hok]. rewrite Hok in Eok. discriminate Eok.
  - cbv beta iota zeta. unfold bind at 1.
    destruct (attemptCatch_quiet config attempt wf) as (w2 & H2 & _).
    rewrite H2. destruct (Hcatch w2 H2) as (A1 & A2 & A3 & A4).
    exists w2. split; [reflexivity |]. repeat split; auto.
Qed.

(** Every call of the transport has its issuance timestamp. *)
Lemma fetchFrom_accounting url n :
  forall attempt lastError w res w',
    fetchFrom env config url n attempt lastError w = (res, w') ->
    (List.length (issued w') + calls w
     = List.length (issued w) + calls w')%nat.
Proof.
  induction n as [|n IH]; intros attempt lastError w res w' H.
  - apply (f_equal snd) in H. cbn in H. subst w'. lia.
  - destruct (fetchFrom_iteration_effect url n attempt lastError w)
      as (w1 & Hit & Hc & Hi & _).
    rewrite Hit in H. clear Hit.
    destruct (transport env (calls w) url) as [r | c].
    + destruct (status r =? 429); [apply IH in H; lia |].
      destruct (negb (ok r)); [apply IH in H; lia |].
      apply (f_equal snd) in H. cbn in H. subst w'. lia.
    + apply IH in H. lia.
Qed.

Lemma zrange_cons lo hi : lo <= hi -> zrange lo hi = lo :: zrange (lo + 1) hi.
Proof.
  intros H. unfold zrange.
  replace (Z.to_nat (hi - lo + 1)) with (S (Z.to_nat (hi - (lo + 1) + 1)))
    by lia.
  cbn [seq map]. rewrite <- seq_shift, map_map. f_equal; [lia |].
  apply map_ext. intros k. lia.
Qed.

Lemma zrange_empty lo hi : hi < lo -> zrange lo hi = [].
Proof.
  intros H. unfold zrange. replace (Z.to_nat (hi - lo + 1)) with 0%nat by lia.
  reflexivity.
Qed.

(** With room in the window and nothing but hard failures, the timers of
    the loop are those of the backoff. *)
Lemma fetchFrom_backoff url n :
  forall attempt lastError w res w',
    attempt + Z.of_nat n = Z.max attempt (retryAttempts config) ->
    Z.of_nat (List.length (requestTimestamps w)) + Z.of_nat n
    <= maxRequestsPerMinute config ->
    (forall i, (i < n)%nat ->
               hardFailing (transport env (calls w + i) url)) ->
    fetchFrom env config url n attempt lastError w = (res, w') ->
    timers w'
    = rev (map (calculateBackoff config)
               (zrange attempt (retryAttempts config - 2)))
      ++ timers w.
Proof.
  induction n as [|n IH]; intros attempt lastError w res w' Hn Hroom Hfail H.
  - apply (f_equal snd) in H. cbn in H. subst w'.
    rewrite zrange_empty by lia. reflexivity.
  - destruct (fetchFrom_iteration_effect url n attempt lastError w)
      as (w1 & Hit & Hc & _ & Hr & Ht).
    rewrite Hit in H. clear Hit.
    pose proof (Hfail 0%nat ltac:(lia)) as H0. rewrite Nat.add_0_r in H0.
    specialize (Ht ltac:(lia) H0).
    assert (Hrest : fetchFrom env config url n (attempt + 1)
                      (match transport env (calls w) url with
                       | Rejected c => Some (NetworkError c)
                       | Replied r => Some (HttpError (status r))
                       end) w1 = (res, w')).
    { destruct (transport env (calls w) url) as [r | c]; [| exact H].
      destruct H0 as [E429 Eok]. rewrite E429, Eok in H. exact H. }
    apply IH in Hrest.
    + rewrite Hrest, Ht.
      destruct (Z.ltb_spec attempt (retryAttempts config - 1)).
      * rewrite (zrange_cons attempt) by lia. cbn [map rev].
        rewrite <- app_assoc. reflexivity.
      * rewrite (zrange_empty attempt), (zrange_empty (attempt + 1)) by lia.
        reflexivity.
    + lia.
    + lia.
    + intros i Hi. rewrite Hc.
      replace (S (calls w) + i)%nat with (calls w + S i)%nat by lia.
      apply Hfail. lia.
Qed.

End FetchAccounting.

(** X3. [fetch] records one issuance timestamp for every call of the
    transport, whatever the outcome: the timeline grows by exactly the
    number of calls made. *)
Theorem fetch_records_every_call env config url w res w' :
  fetch env config url w = (res, w') ->
  (List.length (issued w') + calls w
   = List.length (issued w) + calls w')%nat
  /\ (calls w <= calls w')%nat.
Proof.
  intros H. unfold fetch in H.
  pose proof (fetchFrom_accounting env config url _ _ _ _ _ _ H) as Ha.
  pose proof (fetchFrom_calls_bound env config url
                (Z.to_nat (retryAttempts config)) 0 None w) as Hb.
  rewrite H in Hb. cbn [snd] in Hb. lia.
Qed.

Lemma fetch_records_every_call_witness :
  let run := fetch (sampleEnv deadTransport) (RateLimitedFetcher.new None)
                   "https://example.com" (initialWorld 0) in
  (List.length (issued (snd run)) + 0 = 0 + calls (snd run))%nat
  /\ (0 <= calls (snd run))%nat
  /\ calls (snd run) = 3%nat.
Proof.
  cbv zeta. refine ((fun H => conj (proj1 H) (conj (proj2 H) eq_refl)) _).
  exact (fetch_records_every_call (sampleEnv deadTransport)
           (RateLimitedFetcher.new None) "https://example.com"
           (initialWorld 0) _ _ (surjective_pairing _)).
Defined.

(** X4. When every attempt ends in the [catch] block (rejection, or a
    status that is neither a success nor 429) and the window has room for
    all the attempts, the timers that [fetch] awaits are exactly those of
    the backoff, [retryDelay * 2^a] after attempt [a] for every attempt but
    the last: the delay doubles from one attempt to the next and no timer
    follows the last attempt. *)
Theorem fetch_backoff_schedule env config url w res w' :
  Z.of_nat (List.length (requestTimestamps w)) + Z.max 0 (retryAttempts config)
  <= maxRequestsPerMinute config ->
  (forall i, Z.of_nat i < retryAttempts config ->
             hardFailing (transport env (calls w + i) url)) ->
  fetch env config url w = (res, w') ->
  timers w' = backoffSchedule config ++ timers w
  /\ forall a, 0 <= a ->
               calculateBackoff config (a + 1)
               = 2 * calculateBackoff config a.
Proof.
  intros Hroom Hfail H. split.
  - unfold fetch in H. unfold backoffSchedule.
    eapply (fetchFrom_backoff env config url); [| | | exact H].
    + lia.
    + lia.
    + intros i Hi. apply Hfail. lia.
  - intros a Ha. unfold calculateBackoff.
    rewrite Z.pow_add_r by lia. lia.
Qed.

(** Four attempts, a delay of 1000 ms, a transport that is down. *)
Lemma fetch_backoff_schedule_witness :
  let config := mkConfig 15 4 1000 in
  let run := fetch (sampleEnv deadTransport) config "https://example.com"
                   (initialWorld 0) in
  timers (snd run) = [4000; 2000; 1000] ++ [].
Proof.
  cbv zeta.
  refine (proj1 (fetch_backoff_schedule (sampleEnv deadTransport)
                   (mkConfig 15 4 1000) "https://example.com"
                   (initialWorld 0) _ _ _ _ (surjective_pairing _))).
  - cbn. lia.
  - intros i _. exact I.
Defined.

(* ------------------------------------------------------------------ *)
(** ** Numbers written and read back *)









(* ================================================================== *)
(** * Further properties of WebScraper.ts: the capture index *)
(* ================================================================== *)

Section DayCaptures.

Variable env : Env.
Variable this : Scraper.

(** [getDayCaptures] in terms of the answer to its query. *)
Lemma getDayCaptures_result identifier w :
  getDayCaptures env this identifier w
  = match fetchJson env (fetcher this) (dayUrl env this identifier) w with
    | (Ok items, w') =>
        (Ok (map (snapshotOf env this identifier) (filter is200 items)), w')
    | (Throw _, w') => (Ok [], w')
    end.
Proof.
  unfold getDayCaptures, tryCatch, bind, dayUrl.
  destruct (fetchJson env (fetcher this) _ w) as [[items | e] w'];
    [| reflexivity].
  reflexivity.
Qed.

Lemma getDayCaptures_total identifier : total (getDayCaptures env this identifier).
Proof.
  intros w. rewrite getDayCaptures_result.
  destruct (fetchJson _ _ _ w) as [[items | e] w']; eauto.
Qed.

End DayCaptures.

Section FetchJson.

Variable env : Env.
Variable config : RateLimiterConfig.

(** A query whose every attempt fails throws, after all the attempts. *)
Lemma fetchJson_all_fail url w :
  (forall i, Z.of_nat i < retryAttempts config ->
             failing (transport env (calls w + i) url)) ->
  exists e w',
    fetchJson env config url w = (Throw e, w')
    /\ calls w' = (calls w + Z.to_nat (retryAttempts config))%nat.
Proof.
  intros Hfail. unfold fetchJson, bind, fetch.
  destruct (fetchFrom_all_fail env config url
              (Z.to_nat (retryAttempts config)) 0 None w)
    as (w' & Hw' & Hc).
  { intros i Hi. apply Hfail. lia. }
  rewrite Hw'. eauto.
Qed.

Lemma fetchText_all_fail url w :
  (forall i, Z.of_nat i < retryAttempts config ->
             failing (transport env (calls w + i) url)) ->
  exists e w',
    fetchText env config url w = (Throw e, w')
    /\ calls w' = (calls w + Z.to_nat (retryAttempts config))%nat.
Proof.
  intros Hfail. unfold fetchText, bind, fetch.
  destruct (fetchFrom_all_fail env config url
              (Z.to_nat (retryAttempts config)) 0 None w)
    as (w' & Hw' & Hc).
  { intros i Hi. apply Hfail. lia. }
  rewrite Hw'. eauto.
Qed.

End FetchJson.

(** X6. [getDayCaptures] never throws.  When its query is answered, it
    returns one snapshot for every entry of status 200, in the order of the
    answer, with the timestamp and the archive URL built from the day
    identifier and the entry's time code.  When every attempt of the query
    fails, the day counts as a day without captures: the result is the
    empty list, after all the attempts that [retryAttempts] allows. *)
Theorem getDayCaptures_behaviour env this identifier w :
  (exists captures w',
      getDayCaptures env this identifier w = (Ok captures, w'))
  /\ (forall items w',
         fetchJson env (fetcher this) (dayUrl env this identifier) w
         = (Ok items, w') ->
         getDayCaptures env this identifier w
         = (Ok (map (snapshotOf env this identifier) (filter is200 items)),
            w'))
  /\ ((forall i, Z.of_nat i < retryAttempts (fetcher this) ->
                 failing (transport env (calls w + i)
                                    (dayUrl env this identifier))) ->
      exists w',
        getDayCaptures env this identifier w = (Ok [], w')
        /\ Z.of_nat (calls w')
           = Z.of_nat (calls w) + Z.max 0 (retryAttempts (fetcher this))).
Proof.
  split; [apply getDayCaptures_total |]. split.
  - intros items w' H. rewrite getDayCaptures_result, H. reflexivity.
  - intros Hfail.
    destruct (fetchJson_all_fail env (fetcher this) _ w Hfail)
      as (e & w' & He & Hc).
    exists w'. rewrite getDayCaptures_result, He. split; [reflexivity | lia].
Qed.

(** A day with two captures and one redirect; and a day whose query
    fails. *)
Lemma getDayCaptures_behaviour_witness :
  let day := sampleResponse 200 [(101, 200, 0); (202, 301, 0); (303, 200, 0)] in
  let up := sampleEnv (fun _ _ => Replied day) in
  (exists w',
      getDayCaptures up sampleScraper "20230101" sampleStart
      = (Ok (map (snapshotOf up sampleScraper "20230101")
                 [(101, 200, 0); (303, 200, 0)]), w'))
  /\ exists w',
       getDayCaptures (sampleEnv deadTransport) sampleScraper "20230101"
                      sampleStart = (Ok [], w')
       /\ Z.of_nat (calls w') = 3.
Proof.
  cbv zeta. split.
  - eexists.
    apply (proj1 (proj2 (getDayCaptures_behaviour
                           (sampleEnv (fun _ _ => Replied
                              (sampleResponse 200
                                 [(101, 200, 0); (202, 301, 0);
                                  (303, 200, 0)])))
                           sampleScraper "20230101" sampleStart))
                 [(101, 200, 0); (202, 301, 0); (303, 200, 0)]).
    vm_compute. reflexivity.
  - apply (proj2 (proj2 (getDayCaptures_behaviour
                           (sampleEnv deadTransport) sampleScraper
                           "20230101" sampleStart))).
    intros i _. exact I.
Defined.

Section YearCaptures.

Variable env : Env.
Variable this : Scraper.

Lemma mapSet_keys key value m k :
  In k (map fst (mapSet key value m)) <-> k = key \/ In k (map fst m).
Proof.
  induction m as [|[k0 v0] m IH]; cbn.
  - intuition.
  - destruct (String.eqb_spec k0 key) as [-> | Hne]; cbn.
    + intuition.
    + rewrite IH. intuition.
Qed.

Lemma mapSet_NoDup key value m :
  NoDup (map fst m) -> NoDup (map fst (mapSet key value m)).
Proof.
  induction m as [|[k0 v0] m IH]; cbn; intros Hnd.
  - constructor; [intros [] | constructor].
  - inversion Hnd as [|? ? Hnin Hnd']; subst.
    destruct (String.eqb_spec k0 key) as [-> | Hne]; cbn.
    + now constructor.
    + constructor; [| now apply IH].
      rewrite mapSet_keys. intros [-> | Hin]; [now apply Hne | now apply Hnin].
Qed.

Lemma mapSet_length key value m :
  (List.length (mapSet key value m) <= S (List.length m))%nat.
Proof.
  induction m as [|[k0 v0] m IH]; cbn; [lia |].
  destruct (String.eqb k0 key); cbn; lia.
Qed.

Lemma mapSet_values (P : list Snapshot -> Prop) key value m :
  P value -> Forall (fun kv => P (snd kv)) m ->
  Forall (fun kv => P (snd kv)) (mapSet key value m).
Proof.
  intros Hv. induction m as [|[k0 v0] m IH]; cbn; intros Hm.
  - now constructor.
  - inversion Hm; subst.
    destruct (String.eqb k0 key); constructor; auto.
Qed.

Lemma yearLoop_inv year maxYearlyCaptures all items :
  forall captures w,
    incl items all ->
    yearMapInv year all captures ->
    Z.of_nat (List.length captures) < Z.max 1 maxYearlyCaptures ->
    exists result w',
      yearLoop env this year maxYearlyCaptures items captures w
      = (Ok result, w')
      /\ yearMapInv year all result
      /\ Z.of_nat (List.length result) <= Z.max 1 maxYearlyCaptures.
Proof.
  induction items as [|[[dateNum status] count] items IH];
    intros captures w Hincl Hinv Hlen.
  - exists captures, w. split; [reflexivity |]. split; [exact Hinv | lia].
  - assert (Hincl' : incl items all)
      by (intros x Hx; apply Hincl; now right).
    cbn [yearLoop].
    destruct ((status =? 301) || (count =? 0)) eqn:Eskip;
      [now apply IH |].
    assert (Hid : formatIdentifier (Num year)
                    (fst (parseCalendarDate (Num dateNum)))
                    (snd (parseCalendarDate (Num dateNum)))
                  = identifierOf year (dateNum, status, count)).
    { unfold identifierOf.
      destruct (parseCalendarDate (Num dateNum)); reflexivity. }
    destruct (parseCalendarDate (Num dateNum)) as [month day].
    cbn [fst snd] in Hid. unfold bind.
    destruct (getDayCaptures_total env this
                (formatIdentifier (Num year) month day) w)
      as (dayCaptures & w1 & ->).
    destruct dayCaptures as [|c dayCaptures]; [now apply IH |].
    cbn [List.length Nat.ltb Nat.leb].
    set (captures' := mapSet (formatIdentifier (Num year) month day)
                             (c :: dayCaptures) captures).
    assert (Hinv' : yearMapInv year all captures').
    { destruct Hinv as (Hnd & Hne & Hkeys). subst captures'.
      split; [now apply mapSet_NoDup |]. split.
      - apply (mapSet_values (fun v => v <> [])); [discriminate | exact Hne].
      - intros key Hkey. apply mapSet_keys in Hkey as [-> | Hkey];
          [| now apply Hkeys].
        exists (dateNum, status, count). split; [apply Hincl; now left |].
        split; [exact Eskip | exact Hid]. }
    pose proof (mapSet_length (formatIdentifier (Num year) month day)
                              (c :: dayCaptures) captures) as Hl.
    fold captures' in Hl.
    destruct (Z.geb_spec (Z.of_nat (List.length captures')) maxYearlyCaptures).
    + exists captures', w1. split; [reflexivity |]. split; [exact Hinv' | lia].
    + apply IH; auto. lia.
Qed.

(** Entries that are redirects or count no capture cost no query. *)
Lemma yearLoop_skips year maxYearlyCaptures items :
  forall captures w,
    yearLoop env this year maxYearlyCaptures items captures w
    = yearLoop env this year maxYearlyCaptures
               (filter (fun item => negb (skipped item)) items) captures w.
Proof.
  induction items as [|[[dateNum status] count] items IH]; intros captures w.
  - reflexivity.
  - cbn [yearLoop filter skipped].
    destruct ((status =? 301) || (count =? 0)) eqn:Eskip; cbn [negb].
    + apply IH.
    + cbn [yearLoop]. rewrite Eskip.
      destruct (parseCalendarDate (Num dateNum)) as [month day].
      unfold bind.
      destruct (getDayCaptures env this _ w) as [[dayCaptures | e] w1];
        [| reflexivity].
      destruct (0 <? List.length dayCaptures)%nat; [| apply IH].
      destruct (_ >=? _); [reflexivity | apply IH].
Qed.

Lemma getYearCaptures_result year maxYearlyCaptures w :
  getYearCaptures env this year maxYearlyCaptures w
  = match fetchJson env (fetcher this) (yearUrl env this year) w with
    | (Ok items, w') => yearLoop env this year maxYearlyCaptures items [] w'
    | (Throw e, w') => (Throw e, w')
    end.
Proof.
  unfold getYearCaptures, tryCatch, bind, yearUrl.
  destruct (fetchJson env (fetcher this) _ w) as [[items | e] w'];
    [| reflexivity].
  destruct (yearLoop_inv year maxYearlyCaptures items items [] w')
    as (result & w2 & -> & _).
  - apply incl_refl.
  - split; [constructor |]. split; [constructor | intros key []].
  - cbn. lia.
  - reflexivity.
Qed.

End YearCaptures.

(** X7. The map that [getYearCaptures] returns has distinct day
    identifiers, each made of an entry of the year's answer that is neither
    a redirect (301) nor without capture; no day of the map is empty; and
    the map has at most [maxYearlyCaptures] days, or one day when
    [maxYearlyCaptures] is zero or negative (the cap is only looked at
    after a day has been put in). *)
Theorem getYearCaptures_cap env this year maxYearlyCaptures w captures w' :
  getYearCaptures env this year maxYearlyCaptures w = (Ok captures, w') ->
  NoDup (map fst captures)
  /\ Forall (fun kv => snd kv <> []) captures
  /\ Z.of_nat (List.length captures) <= Z.max 1 maxYearlyCaptures
  /\ exists items w0,
       fetchJson env (fetcher this) (yearUrl env this year) w = (Ok items, w0)
       /\ forall key, In key (map fst captures) ->
                      exists item, In item items /\ skipped item = false
                                   /\ key = identifierOf year item.
Proof.
  rewrite getYearCaptures_result.
  destruct (fetchJson env (fetcher this) _ w) as [[items | e] w0];
    [| discriminate].
  intros H.
  destruct (yearLoop_inv env this year maxYearlyCaptures items items [] w0)
    as (result & w2 & Hrun & (Hnd & Hne & Hkeys) & Hlen).
  - apply incl_refl.
  - split; [constructor |]. split; [constructor | intros key []].
  - cbn. lia.
  - assert (result = captures) by congruence. subst result.
    repeat split; auto. exists items, w0. split; [reflexivity | exact Hkeys].
Qed.

(** A year whose every query answers with the first of January and two
    more days, under a cap of 0. *)
Lemma getYearCaptures_cap_witness :
  let env := sampleEnv (fun _ _ => Replied
               (sampleResponse 200 [(101, 200, 5); (202, 200, 1);
                                    (303, 200, 1)])) in
  let run := getYearCaptures env sampleScraper 2023 0 sampleStart in
  exists captures,
    fst run = Ok captures
    /\ map fst captures = ["20230101"%string]
    /\ Z.of_nat (List.length captures) <= Z.max 1 0.
Proof.
  cbv zeta. eexists. split; [vm_compute; reflexivity |].
  split; [reflexivity |].
  match goal with
  | |- Z.of_nat (List.length ?c) <= _ =>
      refine (proj1 (proj2 (proj2
                (getYearCaptures_cap
                   (sampleEnv (fun _ _ => Replied
                      (sampleResponse 200 [(101, 200, 5); (202, 200, 1);
                                           (303, 200, 1)])))
                   sampleScraper 2023 0 sampleStart c _ _))))
  end.
  vm_compute. reflexivity.
Defined.

(** X8. [getYearCaptures] throws exactly when the query for the year
    throws, and then the same error; the queries for the days never make
    it throw.  Entries that are redirects (301) or count no capture are
    passed over without any query for their day. *)
Theorem getYearCaptures_errors env this year maxYearlyCaptures w :
  (forall e w',
      getYearCaptures env this year maxYearlyCaptures w = (Throw e, w')
      <-> fetchJson env (fetcher this) (yearUrl env this year) w
          = (Throw e, w'))
  /\ (forall items w0,
         fetchJson env (fetcher this) (yearUrl env this year) w
         = (Ok items, w0) ->
         getYearCaptures env this year maxYearlyCaptures w
         = yearLoop env this year maxYearlyCaptures
                    (filter (fun item => negb (skipped item)) items) [] w0)
  /\ (forall items w0,
         fetchJson env (fetcher this) (yearUrl env this year) w
         = (Ok items, w0) ->
         (forall item, In item items -> skipped item = true) ->
         getYearCaptures env this year maxYearlyCaptures w = (Ok [], w0)).
Proof.
  split; [| split].
  - intros e w'. rewrite getYearCaptures_result.
    destruct (fetchJson env (fetcher this) _ w) as [[items | e0] w0].
    + destruct (yearLoop_inv env this year maxYearlyCaptures items items []
                  w0) as (result & w2 & -> & _).
      * apply incl_refl.
      * split; [constructor |]. split; [constructor | intros key []].
      * cbn. lia.
      * split; discriminate.
    + split; intros H; injection H as -> ->; reflexivity.
  - intros items w0 H. rewrite getYearCaptures_result, H.
    apply yearLoop_skips.
  - intros items w0 H Hall. rewrite getYearCaptures_result, H.
    rewrite yearLoop_skips.
    replace (filter (fun item => negb (skipped item)) items) with
      (@nil (Z * Z * Z)); [reflexivity |].
    symmetry. clear H. induction items as [|item items IH]; [reflexivity |].
    cbn. rewrite (Hall item (or_introl eq_refl)). cbn.
    apply IH. intros x Hx. apply Hall. now right.
Qed.

(** A year of redirects only: one call, for the year. *)
Lemma getYearCaptures_errors_witness :
  let env := sampleEnv (fun _ _ => Replied
               (sampleResponse 200 [(101, 301, 5); (202, 200, 0)])) in
  exists w0,
    getYearCaptures env sampleScraper 2023 1 sampleStart = (Ok [], w0)
    /\ calls w0 = 1%nat.
Proof.
  cbv zeta. eexists. split.
  - apply (proj2 (proj2 (getYearCaptures_errors
             (sampleEnv (fun _ _ => Replied
                (sampleResponse 200 [(101, 301, 5); (202, 200, 0)])))
             sampleScraper 2023 1 sampleStart))
             [(101, 301, 5); (202, 200, 0)]).
    + vm_compute. reflexivity.
    + intros item [<- | [<- | []]]; reflexivity.
  - reflexivity.
Defined.

(* ================================================================== *)
(** * Further properties of WebScraper.ts: all the captures *)
(* ================================================================== *)

Section Sorting.

Lemma insertSorted_perm x l : Permutation (x :: l) (insertSorted x l).
Proof.
  induction l as [|y l IH]; cbn; [apply Permutation_refl |].
  destruct (before x y); [apply Permutation_refl |].
  eapply perm_trans; [apply perm_swap |]. now apply perm_skip.
Qed.

Lemma sortInto_perm l :
  forall acc,
    Permutation (l ++ acc) (fold_left (fun acc x => insertSorted x acc) l acc).
Proof.
  induction l as [|x l IH]; intros acc; cbn [fold_left app];
    [apply Permutation_refl |].
  eapply perm_trans; [| apply IH].
  eapply perm_trans; [apply Permutation_middle |].
  apply Permutation_app_head, insertSorted_perm.
Qed.

Lemma sortByTimestamp_perm l : Permutation l (sortByTimestamp l).
Proof.
  unfold sortByTimestamp.
  pose proof (sortInto_perm l []) as H. now rewrite app_nil_r in H.
Qed.

Lemma notAfter_trans a b c :
  notAfter a b -> notAfter b c -> notAfter a c.
Proof.
  unfold notAfter, number_leb.
  destruct (timestamp a), (timestamp b), (timestamp c);
    try discriminate; rewrite !Z.leb_le; lia.
Qed.

Lemma before_notAfter x y : before x y = true -> notAfter x y.
Proof.
  unfold before, notAfter, number_leb.
  destruct (timestamp x), (timestamp y); try discriminate.
  rewrite Z.ltb_lt, Z.leb_le. lia.
Qed.

Lemma not_before_notAfter x y :
  hasTime x -> hasTime y -> before x y = false -> notAfter y x.
Proof.
  unfold hasTime, before, notAfter, number_leb.
  destruct (timestamp x), (timestamp y); try contradiction.
  intros _ _. rewrite Z.ltb_ge, Z.leb_le. lia.
Qed.

Lemma insertSorted_sorted x l :
  hasTime x -> Forall hasTime l ->
  StronglySorted notAfter l -> StronglySorted notAfter (insertSorted x l).
Proof.
  intros Hx. induction l as [|y l IH]; intros Hl Hs; cbn.
  - constructor; constructor.
  - inversion Hl as [|? ? Hy Hl']; subst.
    inversion Hs as [|? ? Hs' Hall]; subst.
    destruct (before x y) eqn:Eb.
    + constructor; [exact Hs |].
      pose proof (before_notAfter x y Eb) as Hxy.
      constructor; [exact Hxy |].
      eapply Forall_impl; [| exact Hall].
      intros z Hz. eapply notAfter_trans; eauto.
    + constructor; [now apply IH |].
      eapply Permutation_Forall; [apply insertSorted_perm |].
      constructor; [| exact Hall].
      now apply not_before_notAfter.
Qed.

Lemma sortInto_sorted l :
  forall acc,
    Forall hasTime l -> Forall hasTime acc ->
    StronglySorted notAfter acc ->
    StronglySorted notAfter
      (fold_left (fun acc x => insertSorted x acc) l acc).
Proof.
  induction l as [|x l IH]; intros acc Hl Hacc Hs; cbn [fold_left];
    [exact Hs |].
  inversion Hl; subst.
  apply IH; auto.
  - eapply Permutation_Forall; [apply insertSorted_perm |]. now constructor.
  - now apply insertSorted_sorted.
Qed.

Lemma sorted_ascendingFrom lo l :
  Forall hasTime l ->
  Forall (fun c => number_leb (Num lo) (timestamp c) = true) l ->
  StronglySorted notAfter l ->
  ascendingFrom lo l.
Proof.
  revert lo. induction l as [|c l IH]; intros lo Hl Hlo Hs; cbn; [trivial |].
  inversion Hl as [|? ? Hc Hl']; subst.
  inversion Hlo as [|? ? Hc0 Hlo']; subst.
  inversion Hs as [|? ? Hs' Hall]; subst.
  unfold hasTime in Hc. destruct (timestamp c) as [t|] eqn:Et;
    [| contradiction].
  cbn in Hc0. apply Z.leb_le in Hc0. split; [exact Hc0 |].
  apply IH; auto.
  eapply Forall_impl; [| exact Hall].
  intros z Hz. unfold notAfter in Hz. now rewrite Et in Hz.
Qed.

Lemma sorted_ascending l :
  Forall hasTime l -> StronglySorted notAfter l -> ascending l.
Proof.
  destruct l as [|c l]; intros Hl Hs; cbn; [trivial |].
  inversion Hl as [|? ? Hc Hl']; subst.
  inversion Hs as [|? ? Hs' Hall]; subst.
  unfold hasTime in Hc. destruct (timestamp c) as [t|] eqn:Et;
    [| contradiction].
  apply sorted_ascendingFrom; auto.
  eapply Forall_impl; [| exact Hall].
  intros z Hz. unfold notAfter in Hz. now rewrite Et in Hz.
Qed.

Lemma sortByTimestamp_ascending l :
  Forall hasTime l -> ascending (sortByTimestamp l).
Proof.
  intros Hl. apply sorted_ascending.
  - eapply Permutation_Forall; [apply sortByTimestamp_perm | exact Hl].
  - unfold sortByTimestamp. apply sortInto_sorted; auto; constructor.
Qed.

End Sorting.

Section AllCaptures.

Variable env : Env.
Variable this : Scraper.

Lemma getYearCaptures_outcome year maxYearlyCaptures w :
  exists more w',
    tryCatch
      (yearCaptures <- getYearCaptures env this year maxYearlyCaptures ;;
       ret (List.concat (map snd yearCaptures)))
      (fun _ => ret []) w = (Ok more, w').
Proof.
  unfold tryCatch, bind.
  destruct (getYearCaptures env this year maxYearlyCaptures w)
    as [[yearCaptures | e] w']; eexists; eexists; reflexivity.
Qed.

(** The loop over the years never throws; what it returns extends what
    it was given. *)
Lemma yearsFrom_total maxYearlyCaptures n :
  forall year allCaptures w,
    exists more w',
      yearsFrom env this maxYearlyCaptures n year allCaptures w
      = (Ok (allCaptures ++ more), w').
Proof.
  induction n as [|n IH]; intros year allCaptures w.
  - exists [], w. now rewrite app_nil_r.
  - cbn [yearsFrom]. unfold bind at 1.
    destruct (getYearCaptures_outcome year maxYearlyCaptures w)
      as (more & w1 & ->).
    destruct (IH (year - 1) (allCaptures ++ more) w1) as (more' & w2 & ->).
    exists (more ++ more'), w2. now rewrite app_assoc.
Qed.

Lemma getAllCaptures_sorted yearRange maxYearlyCaptures w :
  exists collected w',
    getAllCaptures env this yearRange maxYearlyCaptures w
    = (Ok (sortByTimestamp collected), w').
Proof.
  unfold getAllCaptures, bind at 1, Date_now. unfold bind.
  match goal with
  | |- context [yearsFrom env this maxYearlyCaptures ?n ?y [] ?w0] =>
      destruct (yearsFrom_total maxYearlyCaptures n y [] w0)
        as (more & w1 & ->)
  end.
  eexists. eexists. reflexivity.
Qed.

(** With the network down, every year costs its attempts and brings
    nothing. *)
Lemma yearsFrom_down maxYearlyCaptures n :
  networkDown env ->
  forall year allCaptures w,
    exists w',
      yearsFrom env this maxYearlyCaptures n year allCaptures w
      = (Ok allCaptures, w')
      /\ calls w'
         = (calls w + n * Z.to_nat (retryAttempts (fetcher this)))%nat.
Proof.
  intros Hdown. induction n as [|n IH]; intros year allCaptures w.
  - exists w. split; [reflexivity | lia].
  - cbn [yearsFrom]. unfold bind at 1. unfold tryCatch. unfold bind at 1.
    rewrite getYearCaptures_result.
    destruct (fetchJson_all_fail env (fetcher this) (yearUrl env this year) w)
      as (e & w1 & -> & Hc1); [intros i _; apply Hdown |].
    cbv beta iota. unfold ret at 1. rewrite app_nil_r.
    destruct (IH (year - 1) allCaptures w1) as (w2 & -> & Hc2).
    exists w2. split; [reflexivity | lia].
Qed.

Lemma getAllCaptures_down yearRange maxYearlyCaptures w :
  networkDown env ->
  exists w',
    getAllCaptures env this yearRange maxYearlyCaptures w = (Ok [], w')
    /\ calls w'
       = (calls w + Z.to_nat (yearRange + 1)
                    * Z.to_nat (retryAttempts (fetcher this)))%nat.
Proof.
  intros Hdown. unfold getAllCaptures, bind at 1, Date_now. unfold bind.
  match goal with
  | |- context [yearsFrom env this maxYearlyCaptures ?n ?y [] ?w0] =>
      destruct (yearsFrom_down maxYearlyCaptures n Hdown y [] w0)
        as (w1 & -> & Hc);
      replace n with (Z.to_nat (yearRange + 1)) in Hc by (f_equal; lia)
  end.
  exists w1. split; [reflexivity |]. cbn [calls] in Hc. exact Hc.
Qed.

(** A negative range of years leaves no year to ask for. *)
Lemma getAllCaptures_negative_range yearRange maxYearlyCaptures w :
  yearRange < 0 ->
  exists w',
    getAllCaptures env this yearRange maxYearlyCaptures w = (Ok [], w')
    /\ calls w' = calls w.
Proof.
  intros Hneg. unfold getAllCaptures, bind at 1, Date_now. unfold bind.
  match goal with
  | |- context [yearsFrom env this maxYearlyCaptures ?n ?y [] ?w0] =>
      replace n with 0%nat by lia
  end.
  cbn [yearsFrom]. unfold ret. eexists. split; reflexivity.
Qed.

End AllCaptures.

(** X9. [getAllCaptures] never throws, whatever the index does: a year
    whose query fails brings no capture and the loop goes on.  The list it
    returns is sorted by time, oldest first, whenever no timestamp in it
    is NaN. *)
Theorem getAllCaptures_sorted_total env this yearRange maxYearlyCaptures w :
  exists captures w',
    getAllCaptures env this yearRange maxYearlyCaptures w
    = (Ok captures, w')
    /\ (Forall hasTime captures -> ascending captures).
Proof.
  destruct (getAllCaptures_sorted env this yearRange maxYearlyCaptures w)
    as (collected & w' & H).
  exists (sortByTimestamp collected), w'. split; [exact H |].
  intros Hall. apply sortByTimestamp_ascending.
  eapply Permutation_Forall;
    [apply Permutation_sym, sortByTimestamp_perm | exact Hall].
Qed.

(** X10. The sort of [getAllCaptures] neither loses nor invents a
    capture: its result is a permutation of the list it is given, in
    ascending order of time when no timestamp is NaN. *)
Theorem sortByTimestamp_sorted_permutation l :
  Permutation l (sortByTimestamp l)
  /\ (Forall hasTime l ->
      StronglySorted notAfter (sortByTimestamp l)
      /\ ascending (sortByTimestamp l)).
Proof.
  split; [apply sortByTimestamp_perm |].
  intros Hl. split; [| now apply sortByTimestamp_ascending].
  unfold sortByTimestamp. apply sortInto_sorted; auto; constructor.
Qed.

Lemma sortByTimestamp_sorted_permutation_witness :
  let l := [capturedAt 3000; capturedAt 1000; capturedAt 2000] in
  sortByTimestamp l = [capturedAt 1000; capturedAt 2000; capturedAt 3000]
  /\ ascending (sortByTimestamp l).
Proof.
  cbv zeta. split; [reflexivity |].
  apply (proj2 (sortByTimestamp_sorted_permutation
                  [capturedAt 3000; capturedAt 1000; capturedAt 2000])).
  repeat constructor.
Defined.

(** X11. With a negative [yearRange] the loop over the years does not
    run: [getAllCaptures] returns the empty list without any call of the
    transport, and [analyzeWebsiteHistory] then throws on the missing first
    capture. *)
Theorem negative_yearRange_queries_nothing env this yearRange
  maxYearlyCaptures w :
  yearRange < 0 ->
  (exists w',
      getAllCaptures env this yearRange maxYearlyCaptures w = (Ok [], w')
      /\ calls w' = calls w)
  /\ exists w',
       analyzeWebsiteHistory env this yearRange maxYearlyCaptures w
       = (Throw undefinedTimestamp, w').
Proof.
  intros Hneg. split; [now apply getAllCaptures_negative_range |].
  unfold analyzeWebsiteHistory, bind at 1.
  destruct (fetchContent_total env this (target this) w)
    as (content & w1 & ->).
  destruct (getAllCaptures_negative_range env this yearRange
              maxYearlyCaptures w1 Hneg) as (w2 & H2 & _).
  eapply analyzeAgainst_empty; eauto.
Qed.

Lemma negative_yearRange_queries_nothing_witness :
  exists w',
    getAllCaptures (sampleEnv (fun _ _ => Replied oneCapture)) sampleScraper
                   (-1) 1 sampleStart = (Ok [], w')
    /\ calls w' = 0%nat.
Proof.
  apply (proj1 (negative_yearRange_queries_nothing
                  (sampleEnv (fun _ _ => Replied oneCapture)) sampleScraper
                  (-1) 1 sampleStart ltac:(lia))).
Defined.

(** The analysis with the network down. *)
Lemma analyzeWebsiteHistory_down env this yearRange maxYearlyCaptures w :
  networkDown env ->
  exists w',
    analyzeWebsiteHistory env this yearRange maxYearlyCaptures w
    = (Throw undefinedTimestamp, w')
    /\ calls w'
       = (calls w + (1 + Z.to_nat (yearRange + 1))
                    * Z.to_nat (retryAttempts (fetcher this)))%nat.
Proof.
  intros Hdown. unfold analyzeWebsiteHistory, bind at 1.
  destruct (fetchText_all_fail env (fetcher this) (target this) w)
    as (e & w1 & He & Hc1); [intros i _; apply Hdown |].
  rewrite (fetchContent_on_failure env this _ w e w1 He).
  destruct (getAllCaptures_down env this yearRange maxYearlyCaptures w1 Hdown)
    as (w2 & H2 & Hc2).
  unfold analyzeAgainst, bind at 1. rewrite H2.
  cbn [analyzeCaptures]. unfold bind, ret, Date_now, throw.
  eexists. split; [reflexivity |]. cbn [calls]. lia.
Qed.

(** X12. With the network down (every call of the transport fails), the
    analysis makes all the attempts for the live page and for every year
    from the current one back, [(yearRange + 2) * retryAttempts] calls in
    all for a range that is not negative, and then throws: not the network
    error, but the TypeError of reading the missing first capture. *)
Theorem network_down_analysis env this yearRange maxYearlyCaptures w :
  networkDown env ->
  exists w',
    analyzeWebsiteHistory env this yearRange maxYearlyCaptures w
    = (Throw undefinedTimestamp, w')
    /\ calls w'
       = (calls w + (1 + Z.to_nat (yearRange + 1))
                    * Z.to_nat (retryAttempts (fetcher this)))%nat.
Proof.
  exact (analyzeWebsiteHistory_down env this yearRange maxYearlyCaptures w).
Qed.

(** Seven years back with the default three attempts: 27 calls. *)
Lemma network_down_analysis_witness :
  exists w',
    analyzeWebsiteHistory (sampleEnv deadTransport) sampleScraper 7 1
                          sampleStart = (Throw undefinedTimestamp, w')
    /\ calls w' = 27%nat.
Proof.
  apply (network_down_analysis (sampleEnv deadTransport) sampleScraper 7 1
           sampleStart).
  intros k url. exact I.
Defined.

(* ================================================================== *)
(** * Further properties of WebScraper.ts: the result of the analysis *)
(* ================================================================== *)

Section ScanInvariants.

Variable threshold : float.
Variable now : Date.

Lemma changeOk_cons c l e : changeOk now l e -> changeOk now (c :: l) e.
Proof.
  intros (Hd & (c1 & H1 & G1 & E1) & Ho). split; [exact Hd |]. split.
  - exists c1. repeat split; auto. now right.
  - destruct Ho as [Ho | (c2 & H2 & G2 & E2)]; [now left |].
    right. exists c2. repeat split; auto. now right.
Qed.

Lemma scan_invariants l :
  let st := scan threshold now l in
  Forall (changeOk now l) (scan_changes st)
  /\ (previousDate st = now
      \/ exists c, In c l /\ passesGuard c = true
                   /\ previousDate st = dateOf c)
  /\ (List.length (scan_changes st)
      <= List.length (filter passesGuard l))%nat.
Proof.
  induction l as [|c l IH]; cbv zeta.
  - rewrite scan_nil. cbn. repeat split; [constructor | now left | lia].
  - rewrite scan_app. cbv zeta in IH. destruct IH as (Hall & Hprev & Hlen).
    assert (Hall' : Forall (changeOk now (c :: l))
                           (scan_changes (scan threshold now l)))
      by (eapply Forall_impl; [apply changeOk_cons | exact Hall]).
    assert (Hprev' : previousDate (scan threshold now l) = now
                     \/ exists c0, In c0 (c :: l) /\ passesGuard c0 = true
                                   /\ previousDate (scan threshold now l)
                                      = dateOf c0).
    { destruct Hprev as [Hp | (c0 & H0 & G0 & E0)]; [now left |].
      right. exists c0. repeat split; auto. now right. }
    cbn [filter]. unfold scanStep.
    destruct (passesGuard c) eqn:Hg; unfold passesGuard in Hg;
      destruct (similarity c) as [s|] eqn:Es; try discriminate;
      rewrite ?Hg; [| repeat split; auto | repeat split; auto].
    assert (Hg' : passesGuard c = true)
      by (unfold passesGuard; now rewrite Es).
    cbn [scan_changes previousDate List.length].
    split; [| split].
    + destruct (PrimFloat.ltb 0.15%float _) eqn:Ed; [| exact Hall'].
      apply Forall_app. split; [exact Hall' |].
      constructor; [| constructor].
      split; [exact Ed |]. split.
      * exists c. repeat split; auto. now left.
      * exact Hprev'.
    + right. exists c. repeat split; auto. now left.
    + destruct (PrimFloat.ltb 0.15%float _); [| lia].
      rewrite length_app. cbn [List.length]. lia.
Qed.

End ScanInvariants.

(** X13. Every significant change that the backward walk records has a
    drop above 0.15, is dated at a capture that passed the guard, and has
    as other date either [now] or the date of a capture that passed the
    guard; there are no more changes than such captures; and
    [similarSince], when it is set, is the date of a capture that passed
    the guard and meets the threshold. *)
Theorem scan_records_real_drops threshold now l :
  let st := scan threshold now l in
  Forall (changeOk now l) (scan_changes st)
  /\ (List.length (scan_changes st)
      <= List.length (filter passesGuard l))%nat
  /\ forall d, scan_similarSince st = Some d ->
               exists c, In c l /\ qualifies threshold c = true
                         /\ d = dateOf c.
Proof.
  cbv zeta.
  destruct (scan_invariants threshold now l) as (Hall & _ & Hlen).
  split; [exact Hall |]. split; [exact Hlen |].
  intros d Hd. rewrite scan_similarSince_find in Hd.
  destruct (find (qualifies threshold) l) as [c|] eqn:Ef; [| discriminate].
  apply find_some in Ef as [Hin Hq].
  exists c. repeat split; auto. cbn in Hd. congruence.
Qed.

Section Results.

Variable env : Env.
Variable this : Scraper.

(** The first loop of the analysis never throws and scores every capture,
    keeping timestamps and order. *)
Lemma analyzeCaptures_total currentContent captures :
  forall w,
    exists analyzed w',
      analyzeCaptures env this currentContent captures w = (Ok analyzed, w')
      /\ map timestamp analyzed = map timestamp captures
      /\ Forall (fun c => similarity c <> None) analyzed.
Proof.
  induction captures as [|c captures IH]; intros w.
  - exists [], w. repeat split; constructor.
  - cbn [analyzeCaptures]. unfold bind at 1.
    destruct (fetchContent_total env this (url c) w) as (content & w1 & ->).
    unfold bind at 1.
    destruct (IH w1) as (analyzed & w2 & -> & Hm & Hs).
    eexists. eexists. split; [reflexivity |]. split.
    + cbn. now rewrite Hm.
    + constructor; [discriminate | exact Hs].
Qed.

(** The outcome of [analyzeWebsiteHistory], piece by piece: [w'] is the
    world in which [now] has just been read. *)
Lemma analyzeWebsiteHistory_outcome yearRange maxYearlyCaptures w :
  exists captures analyzed w',
    List.length analyzed = List.length captures
    /\ analyzeWebsiteHistory env this yearRange maxYearlyCaptures w
       = match captures with
         | [] => (Throw undefinedTimestamp, w')
         | first :: _ =>
             let st := scan (similarityThreshold this) (Num (clock w'))
                            analyzed in
             let average := averageSimilarity analyzed in
             let later := clock w' + Z.of_nat (elapsed env (reads w')) in
             (Ok (mkResult (target this)
                           (Date_ofNumber (timestamp first))
                           (Date_ofNumber (timestamp (last captures first)))
                           (Z.of_nat (List.length captures))
                           (scan_similarSince st) average (scan_changes st)
                           (match scan_similarSince st with
                            | Some _ =>
                                recommendAt (zone env) later
                                  (scan_similarSince st) average
                            | None => false
                            end)),
              match scan_similarSince st with
              | Some _ =>
                  mkWorld later (S (reads w')) (calls w')
                          (requestTimestamps w') (issued w') (timers w')
              | None => w'
              end)
         end.
Proof.
  unfold analyzeWebsiteHistory, bind at 1.
  destruct (fetchContent_total env this (target this) w)
    as (content & w1 & ->).
  unfold analyzeAgainst, bind at 1.
  destruct (getAllCaptures_sorted env this yearRange maxYearlyCaptures w1)
    as (collected & w2 & ->).
  unfold bind at 1.
  destruct (analyzeCaptures_total content (sortByTimestamp collected) w2)
    as (analyzed & w3 & -> & Hm & _).
  assert (Hlen : List.length analyzed
                 = List.length (sortByTimestamp collected))
    by (rewrite <- (length_map timestamp analyzed), Hm; apply length_map).
  exists (sortByTimestamp collected), analyzed,
         (mkWorld (clock w3 + Z.of_nat (elapsed env (reads w3)))
                  (S (reads w3)) (calls w3)
                  (requestTimestamps w3) (issued w3) (timers w3)).
  split; [exact Hlen |].
  unfold bind at 1. unfold Date_now at 1. cbv beta iota zeta.
  destruct (sortByTimestamp collected) as [|first rest].
  - reflexivity.
  - unfold bind, shouldRecommendUpdate, ret.
    destruct (scan_similarSince _) as [since|]; reflexivity.
Qed.

(** X14. [analyzeWebsiteHistory] has two outcomes only: a result over at
    least one capture, or the [TypeError] of reading [timestamp] of
    [undefined].  No network, HTTP or JSON error of the fetches inside it
    reaches the caller. *)
Theorem analysis_outcomes yearRange maxYearlyCaptures w :
  match fst (analyzeWebsiteHistory env this yearRange maxYearlyCaptures w) with
  | Ok r => 1 <= totalCaptures r
  | Throw e => e = undefinedTimestamp
  end.
Proof.
  destruct (analyzeWebsiteHistory_outcome yearRange maxYearlyCaptures w)
    as (captures & analyzed & w' & _ & ->).
  destruct captures as [|first rest]; cbn [fst]; [reflexivity |].
  cbv zeta. cbn [totalCaptures List.length]. lia.
Qed.

(** X15. What every returned result satisfies: it is about the scraper's
    target; each significant change has a drop above 0.15; there are no
    more significant changes than captures; and an update is recommended
    only when [similarSince] is set and the average similarity is above
    0.85. *)
Theorem analysis_result_invariants yearRange maxYearlyCaptures w :
  match fst (analyzeWebsiteHistory env this yearRange maxYearlyCaptures w) with
  | Ok r =>
      result_url r = target this
      /\ Forall (fun e => PrimFloat.ltb 0.15%float (similarityDrop e) = true)
                (significantChanges r)
      /\ Z.of_nat (List.length (significantChanges r)) <= totalCaptures r
      /\ (recommendUpdate r = false
          \/ (exists since, similarSince r = Some since)
             /\ PrimFloat.ltb 0.85%float (similarityScore r) = true)
  | Throw _ => True
  end.
Proof.
  destruct (analyzeWebsiteHistory_outcome yearRange maxYearlyCaptures w)
    as (captures & analyzed & w' & Hlen & ->).
  destruct captures as [|first rest]; cbn [fst]; [exact I |].
  cbv zeta.
  cbn [result_url significantChanges totalCaptures recommendUpdate
       similarSince similarityScore].
  destruct (scan_invariants (similarityThreshold this) (Num (clock w'))
                            analyzed) as (Hall & _ & Hcount).
  split; [reflexivity |]. split; [| split].
  - eapply Forall_impl; [| exact Hall]. intros e He. exact (proj1 He).
  - pose proof (filter_length_le passesGuard analyzed) as Hf.
    rewrite <- Hlen. lia.
  - destruct (scan_similarSince _) as [since|]; [| now left].
    unfold recommendAt.
    destruct (number_ltb since _); cbn [andb]; [| now left].
    destruct (PrimFloat.ltb 0.85%float _) eqn:Ea; [| now left].
    right. split; [now exists since | reflexivity].
Qed.

End Results.


(* ================================================================== *)
(** * index.ts: [analyzeWebsite] and [analyzeBatch] *)
(* ================================================================== *)

Section ResultsMap.

Lemma resultsSet_keys key value m :
  forall k, In k (map fst (resultsSet key value m))
            <-> In k (map fst m) \/ k = key.
Proof.
  induction m as [|[k0 v0] m IH]; intros k; cbn [resultsSet].
  - cbn. intuition.
  - destruct (String.eqb k0 key) eqn:E.
    + apply String.eqb_eq in E. subst k0. cbn. intuition.
    + cbn [map fst In]. rewrite IH. intuition.
Qed.

Lemma resultsSet_NoDup key value m :
  NoDup (map fst m) -> NoDup (map fst (resultsSet key value m)).
Proof.
  induction m as [|[k0 v0] m IH]; intros Hnd; cbn [resultsSet].
  - cbn. constructor; [intros [] | constructor].
  - cbn [map fst] in Hnd. inversion Hnd as [|? ? Hnin Hnd']; subst.
    destruct (String.eqb k0 key) eqn:E.
    + cbn [map fst]. constructor; assumption.
    + cbn [map fst]. constructor; [| now apply IH].
      rewrite resultsSet_keys. intros [H | H]; [now apply Hnin |].
      subst k0. now rewrite String.eqb_refl in E.
Qed.

Lemma resultsSet_entries key value m :
  entryOk (key, value) -> Forall entryOk m ->
  Forall entryOk (resultsSet key value m).
Proof.
  intros Hv. induction m as [|[k0 v0] m IH]; intros Hall; cbn [resultsSet].
  - constructor; [exact Hv | constructor].
  - inversion Hall as [|? ? H0 Hall']; subst.
    destruct (String.eqb k0 key) eqn:E.
    + apply String.eqb_eq in E. subst k0. constructor; assumption.
    + constructor; [exact H0 | now apply IH].
Qed.

End ResultsMap.

Section IndexProperties.

Variable env : Env.

(** [analyzeWebsite] is the analysis of a scraper built for [url], run on
    a fresh window after one reading of the clock; on success the clock
    is read once more, and an error is thrown again as it is. *)
Lemma analyzeWebsite_run url yearRange maxYearlyCaptures w :
  let scraper := WaybackScraper.new url (Some 0.85%float)
                   (Some (mkPartial (Some 10) (Some 6) (Some 5000))) in
  let w0 := mkWorld (clock w + Z.of_nat (elapsed env (reads w)))
                    (S (reads w)) (calls w) [] (issued w) (timers w) in
  analyzeWebsite env url yearRange maxYearlyCaptures w
  = match analyzeWebsiteHistory env scraper yearRange maxYearlyCaptures w0
    with
    | (Ok analysis, w1) =>
        (Ok analysis,
         mkWorld (clock w1 + Z.of_nat (elapsed env (reads w1)))
                 (S (reads w1)) (calls w1) (requestTimestamps w1)
                 (issued w1) (timers w1))
    | (Throw e, w1) => (Throw e, w1)
    end.
Proof.
  cbv zeta. unfold analyzeWebsite, newScraper, bind at 1.
  unfold bind at 1. unfold setTimestamps at 1. unfold ret at 1.
  unfold bind at 1. unfold Date_now at 1. cbv beta iota zeta.
  cbn [clock reads calls requestTimestamps issued timers].
  unfold tryCatch, bind at 1.
  destruct (analyzeWebsiteHistory env _ yearRange maxYearlyCaptures _)
    as [[analysis | e] w1]; reflexivity.
Qed.

Lemma analyzeWebsite_outcome url yearRange maxYearlyCaptures w :
  match fst (analyzeWebsite env url yearRange maxYearlyCaptures w) with
  | Ok r => entryOk (url, r)
  | Throw e => e = undefinedTimestamp
  end.
Proof.
  rewrite analyzeWebsite_run. cbv zeta.
  set (scraper := WaybackScraper.new url _ _).
  set (w0 := mkWorld _ _ _ _ _ _).
  destruct (analyzeWebsiteHistory_outcome env scraper yearRange
              maxYearlyCaptures w0)
    as (captures & analyzed & w' & _ & ->).
  destruct captures as [|first rest]; cbn [fst]; [reflexivity |].
  cbv zeta. split; cbn [snd fst result_url totalCaptures List.length].
  - reflexivity.
  - lia.
Qed.

Lemma analyzeWebsite_down url yearRange maxYearlyCaptures w :
  networkDown env ->
  exists w',
    analyzeWebsite env url yearRange maxYearlyCaptures w
    = (Throw undefinedTimestamp, w')
    /\ calls w' = (calls w + attemptsPerUrl yearRange)%nat.
Proof.
  intros Hdown. rewrite analyzeWebsite_run. cbv zeta.
  set (scraper := WaybackScraper.new url _ _).
  set (w0 := mkWorld _ _ _ _ _ _).
  destruct (analyzeWebsiteHistory_down env scraper yearRange
              maxYearlyCaptures w0 Hdown) as (w' & -> & Hc).
  exists w'. split; [reflexivity |]. rewrite Hc. reflexivity.
Qed.

Lemma batchLoop_inv yearRange urls :
  forall results w,
    NoDup (map fst results) -> Forall entryOk results ->
    exists results' w',
      batchLoop env yearRange urls results w = (Ok results', w')
      /\ NoDup (map fst results')
      /\ Forall entryOk results'
      /\ (forall k, In k (map fst results')
                    -> In k (map fst results) \/ In k urls).
Proof.
  induction urls as [|url rest IH]; intros results w Hnd Hall.
  - exists results, w. repeat split; auto.
  - cbn [batchLoop]. unfold bind at 1. unfold tryCatch at 1.
    unfold bind at 1.
    pose proof (analyzeWebsite_outcome url yearRange 1 w) as Hout.
    destruct (analyzeWebsite env url yearRange 1 w) as [[r | e] w1];
      cbn [fst] in Hout.
    + unfold ret at 1.
      destruct (IH (resultsSet url r results) w1
                   (resultsSet_NoDup url r results Hnd)
                   (resultsSet_entries url r results Hout Hall))
        as (results' & w' & Hrun & Hnd' & Hall' & Hkeys).
      exists results', w'. repeat split; auto.
      intros k Hk. apply Hkeys in Hk as [Hk | Hk].
      * apply resultsSet_keys in Hk as [Hk | ->]; [now left |].
        right. now left.
      * right. now right.
    + unfold ret at 1.
      destruct (IH results w1 Hnd Hall)
        as (results' & w' & Hrun & Hnd' & Hall' & Hkeys).
      exists results', w'. repeat split; auto.
      intros k Hk. apply Hkeys in Hk as [Hk | Hk]; [now left |].
      right. now right.
Qed.

Lemma batchLoop_down yearRange urls :
  networkDown env ->
  forall results w,
    exists w',
      batchLoop env yearRange urls results w = (Ok results, w')
      /\ calls w'
         = (calls w + List.length urls * attemptsPerUrl yearRange)%nat.
Proof.
  intros Hdown. induction urls as [|url rest IH]; intros results w.
  - exists w. split; [reflexivity |]. cbn. lia.
  - cbn [batchLoop]. unfold bind at 1. unfold tryCatch at 1.
    unfold bind at 1.
    destruct (analyzeWebsite_down url yearRange 1 w Hdown)
      as (w1 & -> & Hc1).
    unfold ret at 1.
    destruct (IH results w1) as (w' & -> & Hc).
    exists w'. split; [reflexivity |].
    rewrite Hc, Hc1. cbn [List.length]. lia.
Qed.

End IndexProperties.

(** X16. [analyzeWebsite] either returns a result for the URL it was
    given, over at least one capture, or throws again the error of the
    analysis, which can only be the TypeError of the empty capture list. *)
Theorem analyzeWebsite_outcomes env url yearRange maxYearlyCaptures w :
  match fst (analyzeWebsite env url yearRange maxYearlyCaptures w) with
  | Ok r => result_url r = url /\ 1 <= totalCaptures r
  | Throw e => e = undefinedTimestamp
  end.
Proof.
  exact (analyzeWebsite_outcome env url yearRange maxYearlyCaptures w).
Qed.

(** X17. [analyzeBatch] never throws.  The map it returns has each key
    once, every key is one of the URLs given, and the result under a key
    is the analysis of that URL over at least one capture. *)
Theorem analyzeBatch_total env urls yearRange w :
  exists results w',
    analyzeBatch env urls yearRange w = (Ok results, w')
    /\ NoDup (map fst results)
    /\ incl (map fst results) urls
    /\ Forall entryOk results.
Proof.
  destruct (batchLoop_inv env yearRange urls [] w)
    as (results & w' & Hrun & Hnd & Hall & Hkeys);
    [constructor | constructor |].
  exists results, w'. repeat split; auto.
  intros k Hk. destruct (Hkeys k Hk) as [[] | H]. exact H.
Qed.

(** X18. With the network down, [analyzeBatch] returns the empty map
    after six attempts for the live page and for each year of every URL:
    the failures are swallowed one URL at a time. *)
Theorem analyzeBatch_network_down env urls yearRange w :
  networkDown env ->
  exists w',
    analyzeBatch env urls yearRange w = (Ok [], w')
    /\ calls w'
       = (calls w + List.length urls * attemptsPerUrl yearRange)%nat.
Proof.
  intros Hdown. exact (batchLoop_down env yearRange urls Hdown [] w).
Qed.

(** Two URLs, seven years back: 2 * 9 * 6 = 108 calls. *)
Lemma analyzeBatch_network_down_witness :
  exists w',
    analyzeBatch (sampleEnv deadTransport)
                 ["https://example.com"%string; "https://example.org"%string]
                 7 sampleStart = (Ok [], w')
    /\ calls w' = 108%nat.
Proof.
  apply (analyzeBatch_network_down (sampleEnv deadTransport)
           ["https://example.com"%string; "https://example.org"%string]
           7 sampleStart).
  intros k url. exact I.
Defined.

(* ================================================================== *)
(** * Further properties of utils/date.ts and of the calendar *)
(* ================================================================== *)

Section CalendarOrder.

Lemma dayInYear_range y m d :
  1 <= m <= 12 -> 1 <= d <= DaysInMonth y m ->
  DayFromYear y <= MakeDay y (m - 1) d < DayFromYear (y + 1).
Proof.
  intros Hm Hd. rewrite (MakeDay_civil y m d Hm).
  destruct (monthOfDay_spec (DaysInYear y =? 366) m d Hm Hd) as [_ HR].
  cbv zeta in HR.
  pose proof (DayFromYear_step y) as Hs.
  pose proof (DaysInYear_range y) as Hr.
  destruct (Z.eqb_spec (DaysInYear y) 366); lia.
Qed.

(** Within a year, the day number grows with (month, day). *)
Lemma dayInYear_mono (b : bool) m d m' d' :
  1 <= m <= 12 -> 1 <= m' <= 12 -> m < m' ->
  1 <= d <= match m with
            | 1 => 31 | 2 => if b then 29 else 28 | 3 => 31 | 4 => 30
            | 5 => 31 | 6 => 30 | 7 => 31 | 8 => 31 | 9 => 30 | 10 => 31
            | 11 => 30 | 12 => 31 | _ => 0 end ->
  1 <= d' ->
  let l := if b then 1 else 0 in
  daysBeforeMonth (m - 1) l + d - 1 < daysBeforeMonth (m' - 1) l + d' - 1.
Proof.
  intros Hm Hm' Hlt Hd Hd' l. subst l.
  assert (Hc : m = 1 \/ m = 2 \/ m = 3 \/ m = 4 \/ m = 5 \/ m = 6 \/ m = 7
               \/ m = 8 \/ m = 9 \/ m = 10 \/ m = 11) by lia.
  assert (Hc' : m' = 2 \/ m' = 3 \/ m' = 4 \/ m' = 5 \/ m' = 6
                \/ m' = 7 \/ m' = 8 \/ m' = 9 \/ m' = 10 \/ m' = 11
                \/ m' = 12) by lia.
  clear Hm Hm'.
  destruct b; decompose [or] Hc; subst m; cbn iota in Hd;
    decompose [or] Hc'; subst m'; try lia; eval_dbm; lia.
Qed.

Lemma MakeDay_mono y m d y' m' d' :
  validDate y m d -> validDate y' m' d' ->
  y * 10000 + compactDate m d < y' * 10000 + compactDate m' d' ->
  MakeDay y (m - 1) d < MakeDay y' (m' - 1) d'.
Proof.
  intros (Hy & Hm & Hd) (Hy' & Hm' & Hd') Hlt.
  pose proof (DaysInMonth_le_31 y m) as H31.
  pose proof (DaysInMonth_le_31 y' m') as H31'.
  unfold compactDate in Hlt.
  destruct (Z.lt_trichotomy y y') as [Hyy | [Hyy | Hyy]]; [| | lia].
  - pose proof (dayInYear_range y m d Hm Hd) as R.
    pose proof (dayInYear_range y' m' d' Hm' Hd') as R'.
    pose proof (DayFromYear_mono (y + 1) y' ltac:(lia)). lia.
  - subst y'.
    rewrite (MakeDay_civil y m d Hm), (MakeDay_civil y m' d' Hm').
    destruct (Z.lt_trichotomy m m') as [Hmm | [Hmm | Hmm]]; [| | lia].
    + pose proof (dayInYear_mono (DaysInYear y =? 366) m d m' d'
                    Hm Hm' Hmm Hd ltac:(lia)) as H.
      cbv zeta in H. lia.
    + subst m'. lia.
Qed.

(** The time value of a valid identifier and time code is in the range of
    [Date]: [createTimestamp] does not yield NaN. *)
Lemma createTimestamp_value zone y m d h mi s :
  validDate y m d -> validTime h mi s ->
  Z.abs (offsetAtLocal zone (localInstant y m d h mi s)) <= msPerDay ->
  createTimestamp zone (formatIdentifier (Num y) (Num m) (Num d))
                  (Num (timeCode h mi s))
  = Num (UTC zone (localInstant y m d h mi s)).
Proof.
  intros Hdate Htime Htz.
  rewrite (createTimestamp_formatIdentifier zone y m d h mi s Hdate Htime).
  destruct Hdate as (Hy & Hm & Hd).
  pose proof (MakeTime_range h mi s Htime) as HT.
  pose proof (dayInYear_range y m d Hm Hd) as R.
  pose proof (DayFromYear_four_digits y Hy) as B1.
  pose proof (DayFromYear_step y) as B2.
  pose proof (DaysInYear_range y) as B3.
  unfold localInstant in *.
  revert HT R Htz. generalize (MakeDay y (m - 1) d) (MakeTime h mi s 0).
  intros D T HT R Htz.
  unfold TimeClip, UTC, MakeDate in *.
  revert Htz. generalize (offsetAtLocal zone (D * msPerDay + T)).
  intros o Htz.
  destruct (Z.leb_spec (Z.abs (D * msPerDay + T - o)) 8640000000000000)
    as [_ | Hbig]; [reflexivity |].
  unfold msPerDay in *. lia.
Qed.

(** The local time values are in the order of the fourteen digits. *)
Lemma localInstant_lt y m d h mi s y' m' d' h' mi' s' :
  validDate y m d -> validTime h mi s ->
  validDate y' m' d' -> validTime h' mi' s' ->
  stamp14 y m d h mi s < stamp14 y' m' d' h' mi' s' ->
  localInstant y m d h mi s < localInstant y' m' d' h' mi' s'.
Proof.
  intros Hdate Htime Hdate' Htime' Hlt. unfold localInstant.
  pose proof (MakeTime_range h mi s Htime) as HT.
  pose proof (MakeTime_range h' mi' s' Htime') as HT'.
  assert (Hcase : y * 10000 + compactDate m d
                  < y' * 10000 + compactDate m' d'
                  \/ (y = y' /\ m = m' /\ d = d'
                      /\ timeCode h mi s < timeCode h' mi' s')).
  { destruct Hdate as (Hy & Hm & Hd), Hdate' as (Hy' & Hm' & Hd').
    pose proof (DaysInMonth_le_31 y m). pose proof (DaysInMonth_le_31 y' m').
    unfold stamp14, compactDate, timeCode, validTime in *. lia. }
  destruct Hcase as [Hday | (-> & -> & -> & Htc)].
  - pose proof (MakeDay_mono y m d y' m' d' Hdate Hdate' Hday) as HD.
    revert HT HT' HD.
    generalize (MakeDay y (m - 1) d) (MakeTime h mi s 0)
               (MakeDay y' (m' - 1) d') (MakeTime h' mi' s' 0).
    intros D T D' T' HT HT' HD. unfold MakeDate, msPerDay in *. lia.
  - assert (MakeTime h mi s 0 < MakeTime h' mi' s' 0).
    { unfold MakeTime, timeCode, validTime, msPerHour, msPerMinute,
        msPerSecond in *. lia. }
    unfold MakeDate. lia.
Qed.

Lemma stamp14_inj y m d h mi s y' m' d' h' mi' s' :
  validDate y m d -> validTime h mi s ->
  validDate y' m' d' -> validTime h' mi' s' ->
  stamp14 y m d h mi s = stamp14 y' m' d' h' mi' s' ->
  y = y' /\ m = m' /\ d = d' /\ h = h' /\ mi = mi' /\ s = s'.
Proof.
  intros (Hy & Hm & Hd) Ht (Hy' & Hm' & Hd') Ht' Heq.
  pose proof (DaysInMonth_le_31 y m). pose proof (DaysInMonth_le_31 y' m').
  unfold stamp14, compactDate, timeCode, validTime in *. lia.
Qed.

Lemma localInstant_order y m d h mi s y' m' d' h' mi' s' :
  validDate y m d -> validTime h mi s ->
  validDate y' m' d' -> validTime h' mi' s' ->
  stamp14 y m d h mi s < stamp14 y' m' d' h' mi' s'
  <-> localInstant y m d h mi s < localInstant y' m' d' h' mi' s'.
Proof.
  intros Hdate Htime Hdate' Htime'. split.
  - apply localInstant_lt; assumption.
  - intros Hlt.
    destruct (Z.lt_trichotomy (stamp14 y m d h mi s)
                              (stamp14 y' m' d' h' mi' s'))
      as [H | [H | H]]; [exact H | |].
    + apply stamp14_inj in H as (-> & -> & -> & -> & -> & ->);
        try assumption. lia.
    + pose proof (localInstant_lt _ _ _ _ _ _ _ _ _ _ _ _
                    Hdate' Htime' Hdate Htime H). lia.
Qed.

End CalendarOrder.

(** X19. [createTimestamp] and the order of the captures.  On valid dates
    and times, read with offsets of at most a day, it yields the instants
    of the two local times (never NaN); the local times are in the order
    of the fourteen digits YYYYMMDDhhmmss; and so are the instants, when
    the zone reads both local times with the same offset. *)
Theorem createTimestamp_order zone y m d h mi s y' m' d' h' mi' s' :
  validDate y m d -> validTime h mi s ->
  validDate y' m' d' -> validTime h' mi' s' ->
  Z.abs (offsetAtLocal zone (localInstant y m d h mi s)) <= msPerDay ->
  Z.abs (offsetAtLocal zone (localInstant y' m' d' h' mi' s')) <= msPerDay ->
  exists t t',
    createTimestamp zone (formatIdentifier (Num y) (Num m) (Num d))
                    (Num (timeCode h mi s)) = Num t
    /\ createTimestamp zone (formatIdentifier (Num y') (Num m') (Num d'))
                       (Num (timeCode h' mi' s')) = Num t'
    /\ t = UTC zone (localInstant y m d h mi s)
    /\ t' = UTC zone (localInstant y' m' d' h' mi' s')
    /\ (stamp14 y m d h mi s < stamp14 y' m' d' h' mi' s'
        <-> localInstant y m d h mi s < localInstant y' m' d' h' mi' s')
    /\ (offsetAtLocal zone (localInstant y' m' d' h' mi' s')
        = offsetAtLocal zone (localInstant y m d h mi s) ->
        (stamp14 y m d h mi s < stamp14 y' m' d' h' mi' s' <-> t < t')).
Proof.
  intros Hdate Htime Hdate' Htime' Htz Htz'.
  pose proof (localInstant_order y m d h mi s y' m' d' h' mi' s'
                Hdate Htime Hdate' Htime') as Hord.
  eexists. eexists.
  split; [apply createTimestamp_value; assumption |].
  split; [apply createTimestamp_value; assumption |].
  split; [reflexivity |]. split; [reflexivity |].
  split; [exact Hord |].
  intros Hsame. rewrite Hord. unfold UTC. rewrite Hsame. lia.
Qed.

(** The last second of 2023 and the first of 2024, in Copenhagen. *)
Lemma createTimestamp_order_witness :
  exists t t',
    createTimestamp copenhagen
                    (formatIdentifier (Num 2023) (Num 12) (Num 31))
                    (Num (timeCode 23 59 59)) = Num t
    /\ createTimestamp copenhagen
                       (formatIdentifier (Num 2024) (Num 1) (Num 1))
                       (Num (timeCode 0 0 0)) = Num t'
    /\ t = 1704063599000
    /\ t' = 1704063600000
    /\ (stamp14 2023 12 31 23 59 59 < stamp14 2024 1 1 0 0 0 <-> t < t').
Proof.
  destruct (createTimestamp_order copenhagen 2023 12 31 23 59 59
                                  2024 1 1 0 0 0)
    as (t & t' & H1 & H2 & E1 & E2 & _ & Hsame);
    try (unfold validDate, validTime; cbn; lia);
    try (vm_compute; discriminate).
  exists t, t'. split; [exact H1 |]. split; [exact H2 |].
  split; [rewrite E1; vm_compute; reflexivity |].
  split; [rewrite E2; vm_compute; reflexivity |].
  apply Hsame. vm_compute. reflexivity.
Defined.

(** Where the clocks are moved forward the instants are not in the order
    of the digits: in Copenhagen, 02:30 on the 31st of March 2024 is read
    as 01:30Z, and 03:00 of the same day is 01:00Z. *)
Example createTimestamp_order_in_gap :
  createTimestamp copenhagen (formatIdentifier (Num 2024) (Num 3) (Num 31))
                  (Num (timeCode 2 30 0)) = Num 1711848600000
  /\ createTimestamp copenhagen
                     (formatIdentifier (Num 2024) (Num 3) (Num 31))
                     (Num (timeCode 3 0 0)) = Num 1711846800000.
Proof. split; vm_compute; reflexivity. Qed.

Section Identifier.

Lemma string_length_append (a b : string) :
  String.length (a ++ b) = (String.length a + String.length b)%nat.
Proof. induction a as [|c a IH]; cbn; [reflexivity | now rewrite IH]. Qed.

Lemma checkFourDigits_all : forallb checkFourDigits (zrange 0 9999) = true.
Proof. vm_compute. reflexivity. Qed.

Lemma formatIdentifier_split y m d :
  validDate y m d ->
  splitIdentifier 0 (EmptyString, EmptyString, EmptyString)
                  (formatIdentifier (Num y) (Num m) (Num d))
  = (toString (Num y), padStart0 2 (toString (Num m)),
     padStart0 2 (toString (Num d))).
Proof.
  intros (Hy & Hm & Hd).
  pose proof (DaysInMonth_le_31 y m) as H31.
  destruct (toString_year y Hy) as [Ly _].
  destruct (padStart_twoDigits m ltac:(lia)) as [Lm _].
  unfold formatIdentifier. now apply splitIdentifier_concat.
Qed.

End Identifier.

(** X20. The identifier that [formatIdentifier] makes of a valid date has
    eight characters, and two valid dates with the same identifier are
    the same date. *)
Theorem formatIdentifier_injective y m d y' m' d' :
  validDate y m d -> validDate y' m' d' ->
  String.length (formatIdentifier (Num y) (Num m) (Num d)) = 8%nat
  /\ (formatIdentifier (Num y) (Num m) (Num d)
      = formatIdentifier (Num y') (Num m') (Num d')
      -> y = y' /\ m = m' /\ d = d').
Proof.
  intros Hdate Hdate'.
  pose proof Hdate as (Hy & Hm & Hd). pose proof Hdate' as (Hy' & Hm' & Hd').
  pose proof (DaysInMonth_le_31 y m) as H31.
  pose proof (DaysInMonth_le_31 y' m') as H31'.
  destruct (toString_year y Hy) as [Ly Py].
  destruct (padStart_twoDigits m ltac:(lia)) as [Lm Pm].
  destruct (padStart_twoDigits d ltac:(lia)) as [Ld Pd].
  destruct (toString_year y' Hy') as [_ Py'].
  destruct (padStart_twoDigits m' ltac:(lia)) as [_ Pm'].
  destruct (padStart_twoDigits d' ltac:(lia)) as [_ Pd'].
  split.
  - unfold formatIdentifier.
    now rewrite !string_length_append, Ly, Lm, Ld.
  - intros Heq.
    pose proof (formatIdentifier_split y m d Hdate) as S1.
    pose proof (formatIdentifier_split y' m' d' Hdate') as S2.
    rewrite Heq, S2 in S1.
    assert (E1 : toString (Num y') = toString (Num y)) by congruence.
    assert (E2 : padStart0 2 (toString (Num m'))
                 = padStart0 2 (toString (Num m))) by congruence.
    assert (E3 : padStart0 2 (toString (Num d'))
                 = padStart0 2 (toString (Num d))) by congruence.
    rewrite E1 in Py'. rewrite E2 in Pm'. rewrite E3 in Pd'.
    repeat split; congruence.
Qed.

(** The first and the second of March 2024. *)
Lemma formatIdentifier_injective_witness :
  String.length (formatIdentifier (Num 2024) (Num 3) (Num 1)) = 8%nat
  /\ (formatIdentifier (Num 2024) (Num 3) (Num 1)
      = formatIdentifier (Num 2024) (Num 3) (Num 2)
      -> 2024 = 2024 /\ 3 = 3 /\ 1 = 2).
Proof.
  apply (formatIdentifier_injective 2024 3 1 2024 3 2);
    unfold validDate; cbn; lia.
Defined.

(** X21. [parseCalendarDate] reads a value of at most four digits as
    MMDD: the month is the value divided by 100 and the day is the
    remainder, also where these are no month or no day of the calendar. *)
Theorem parseCalendarDate_four_digits n :
  0 <= n <= 9999 ->
  parseCalendarDate (Num n) = (Num (n / 100), Num (n mod 100)).
Proof.
  intros Hn.
  pose proof (forallb_zrange _ _ _ checkFourDigits_all n ltac:(lia)) as H.
  unfold checkFourDigits in H.
  destruct (parseCalendarDate (Num n)) as [month day].
  apply andb_true_iff in H as [H1 H2].
  apply number_eqb_eq in H1, H2. now subst.
Qed.

(** The value 7 is month 0, day 7. *)
Lemma parseCalendarDate_four_digits_witness :
  parseCalendarDate (Num 7) = (Num 0, Num 7).
Proof.
  apply (parseCalendarDate_four_digits 7). lia.
Defined.

(** X22. The date two years before [now], as [shouldRecommendUpdate]
    builds it with [setFullYear(getFullYear() - 2)], when it is a local
    time that the clocks of the zone show: the local year is two less
    and the time of day is kept; the month and the day are kept too,
    except on a 29th of February, which becomes the first of March. *)
Theorem twoYearsAgo_calendar zone now t2 :
  twoYearsAgo zone now = Num t2 ->
  existsLocally zone (twoYearsBack zone now) ->
  getFullYear zone t2 = getFullYear zone now - 2
  /\ TimeWithinDay (LocalTime zone t2) = TimeWithinDay (LocalTime zone now)
  /\ if isLeapDay (getMonth zone now) (getDate zone now)
     then getMonth zone t2 = 2 /\ getDate zone t2 = 1
     else getMonth zone t2 = getMonth zone now
          /\ getDate zone t2 = getDate zone now.
Proof.
  intros H2 Hex. rewrite twoYearsAgo_value in H2.
  unfold TimeClip in H2.
  destruct (Z.abs (UTC zone (twoYearsBack zone now)) <=? 8640000000000000);
    [| discriminate H2].
  assert (Ht2 : t2 = UTC zone (twoYearsBack zone now)) by congruence.
  unfold existsLocally in Hex. rewrite <- Ht2 in Hex.
  unfold getFullYear, getMonth, getDate. rewrite Hex.
  exact (two_years_back_fields (LocalTime zone now)).
Qed.

(** In Copenhagen: 13:00 of the 29th of February 2024, and 13:00 of the
    first of March 2022. *)
Lemma twoYearsAgo_calendar_witness :
  getFullYear copenhagen 1646136000000
  = getFullYear copenhagen 1709208000000 - 2
  /\ TimeWithinDay (LocalTime copenhagen 1646136000000)
     = TimeWithinDay (LocalTime copenhagen 1709208000000)
  /\ (getMonth copenhagen 1646136000000 = 2
      /\ getDate copenhagen 1646136000000 = 1).
Proof.
  apply (twoYearsAgo_calendar copenhagen 1709208000000 1646136000000).
  - vm_compute. reflexivity.
  - vm_compute. reflexivity.
Defined.

(* ================================================================== *)
(** * Further properties of the rolling window *)
(* ================================================================== *)

Section WindowOrder.

Variable env : Env.
Variable config : RateLimiterConfig.

Lemma StronglySorted_filter (R : Z -> Z -> Prop) (p : Z -> bool) l :
  StronglySorted R l -> StronglySorted R (filter p l).
Proof.
  induction 1 as [|x l Hs IH Hall]; cbn [filter]; [constructor |].
  destruct (p x); [| exact IH].
  constructor; [exact IH |].
  apply Forall_forall. intros y Hy. apply filter_In in Hy as [Hy _].
  rewrite Forall_forall in Hall. now apply Hall.
Qed.

Lemma StronglySorted_snoc l x :
  StronglySorted Z.le l -> (forall y, In y l -> y <= x) ->
  StronglySorted Z.le (l ++ [x]).
Proof.
  induction 1 as [|a l Hs IH Hall]; intros Hle; cbn [app].
  - constructor; constructor.
  - constructor.
    + apply IH. intros y Hy. apply Hle. now right.
    + apply Forall_app. split; [exact Hall |].
      constructor; [apply Hle; now left | constructor].
Qed.

Lemma Chronological_admission w w' :
  Chronological w ->
  admission env config w = (Ok tt, w') ->
  Chronological w'.
Proof.
  intros (S1 & S2 & B1 & B2 & Hin) Hadm.
  destruct (admission_run env config w) as (w1 & Hwait & Hrun).
  cbv zeta in Hrun. rewrite Hrun in Hadm. injection Hadm as <-.
  destruct (waitForRateLimit_effect env config w w1 Hwait)
    as (Hk & Hi & Hnow & _).
  cbv zeta in Hk, Hnow.
  set (stamp := clock w1 + Z.of_nat (elapsed env (reads w1))).
  assert (Hstamp : clock w <= stamp) by (subst stamp; lia).
  assert (Hkept : forall x, In x (requestTimestamps w1)
                            -> In x (requestTimestamps w)).
  { intros x Hx. rewrite Hk in Hx. now apply keptAt_In in Hx as [Hx _]. }
  unfold Chronological. cbn [clock requestTimestamps issued].
  split; [| split; [| split; [| split]]].
  - apply StronglySorted_snoc.
    + rewrite Hk. now apply StronglySorted_filter.
    + intros y Hy. specialize (B1 y (Hkept y Hy)). lia.
  - rewrite Hi. constructor; [exact S2 |].
    apply Forall_forall. intros y Hy. specialize (B2 y Hy). lia.
  - intros x Hx. apply in_app_or in Hx as [Hx | [<- | []]]; [| lia].
    specialize (B1 x (Hkept x Hx)). lia.
  - rewrite Hi. intros x [<- | Hx]; [lia |]. specialize (B2 x Hx). lia.
  - rewrite Hi. intros x Hx.
    apply in_app_or in Hx as [Hx | [<- | []]]; [| now left].
    right. apply Hin. now apply Hkept.
Qed.

Lemma Reachable_Chronological w :
  Reachable env config w -> Chronological w.
Proof.
  induction 1 as [t0 | w w' _ IH Ha | w w' _ IH Hc Hr Hi].
  - unfold Chronological, initialWorld. cbn.
    repeat split; try constructor; try contradiction.
    intros x [].
  - eapply Chronological_admission; eauto.
  - destruct IH as (S1 & S2 & B1 & B2 & Hin).
    unfold Chronological. rewrite Hr, Hi.
    repeat split; auto.
    + intros x Hx. specialize (B1 x Hx). lia.
    + intros x Hx. specialize (B2 x Hx). lia.
Qed.

(** What the window keeps at a later time, under the invariant of the
    window, is within the budget. *)
Lemma kept_within_budget w now :
  WindowInv (maxRequestsPerMinute config) w -> clock w <= now ->
  Z.of_nat (List.length (keptAt now (requestTimestamps w)))
  <= maxRequestsPerMinute config.
Proof.
  intros (I1 & I2 & I3 & I4) Hnow.
  specialize (I4 now). unfold countIn in I4.
  rewrite (filter_ext_in (inWindow now) (fun x => now - 60000 <? x)) in I4.
  - rewrite I3 in I4
      by (intros x Hx; apply Z.ltb_lt in Hx; lia).
    exact I4.
  - intros x Hx. unfold inWindow. specialize (I1 x Hx).
    destruct (Z.leb_spec x now); [apply andb_true_r | lia].
Qed.

(** The timer of [waitForRateLimit] in a world where nothing lies in the
    future. *)
Lemma waitForRateLimit_timer w :
  (forall x, In x (requestTimestamps w) -> x <= clock w) ->
  exists w1,
    waitForRateLimit env config w = (Ok tt, w1)
    /\ clock w <= clock w1
    /\ (timers w1 = timers w
        \/ exists waitTime,
             timers w1 = waitTime :: timers w /\ 0 < waitTime <= 60000).
Proof.
  intros B1.
  destruct (waitForRateLimit_suspends env config w)
    as (w1 & Hw & Hk & Hfull & Hfree).
  cbv zeta in Hk, Hfull, Hfree.
  destruct (waitForRateLimit_effect env config w w1 Hw) as (_ & _ & Hnow & _).
  cbv zeta in Hnow.
  exists w1. split; [exact Hw |]. split; [lia |].
  destruct (Z.lt_ge_cases
              (Z.of_nat (List.length
                 (keptAt (clock w + Z.of_nat (elapsed env (reads w)))
                         (requestTimestamps w))))
              (maxRequestsPerMinute config)) as [Hlt | Hge].
  - left. exact (proj2 (Hfree Hlt)).
  - destruct (keptAt _ (requestTimestamps w)) as [|oldest rest] eqn:Ek.
    + (* a budget of zero or less: no oldest timestamp, no timer *)
      left. revert Hw. rewrite waitForRateLimit_run. cbv zeta. rewrite Ek.
      destruct (_ >=? _); intros Hw; apply (f_equal snd) in Hw;
        cbn [snd] in Hw; subst w1; reflexivity.
    + destruct (Hfull Hge oldest rest eq_refl) as (_ & _ & Ht).
      assert (Hold : oldest <= clock w).
      { apply B1. apply (keptAt_In
                           (clock w + Z.of_nat (elapsed env (reads w)))).
        rewrite Ek. now left. }
      destruct (Z.ltb_spec 0
                  (60000 - (clock w + Z.of_nat (elapsed env (reads w))
                            + Z.of_nat (elapsed env (S (reads w)))
                            - oldest))) as [Hpos | Hneg].
      * right. eexists. split; [exact Ht |]. lia.
      * left. exact Ht.
Qed.

Lemma reach_next w :
  Reachable env config w -> Reachable env config (snd (admission env config w)).
Proof.
  intros H. destruct (admission_run env config w) as (w1 & _ & Hrun).
  eapply reach_admission; [exact H |]. cbv zeta in Hrun.
  rewrite Hrun. reflexivity.
Qed.

End WindowOrder.

(** X23. In every world that a fetcher reaches, the window is in the
    order of time, oldest first, so that [requestTimestamps[0]] is the
    oldest timestamp of the window; no timestamp lies in the future; and
    the window holds timestamps of issued requests only. *)
Theorem window_is_chronological env config w :
  Reachable env config w ->
  Chronological w
  /\ forall oldest rest,
       requestTimestamps w = oldest :: rest ->
       forall x, In x rest -> oldest <= x.
Proof.
  intros Hw.
  pose proof (Reachable_Chronological env config w Hw) as Hc.
  split; [exact Hc |].
  destruct Hc as (S1 & _). intros oldest rest Heq x Hx.
  rewrite Heq in S1. apply StronglySorted_inv in S1 as [_ Hall].
  rewrite Forall_forall in Hall. now apply Hall.
Qed.

(** After three admissions at once under a budget of two. *)
Lemma window_is_chronological_witness :
  Chronological thirdAdmission
  /\ forall oldest rest,
       requestTimestamps thirdAdmission = oldest :: rest ->
       forall x, In x rest -> oldest <= x.
Proof.
  apply (window_is_chronological (sampleEnv deadTransport)
                                 (mkConfig 2 3 5000) thirdAdmission).
  unfold thirdAdmission. cbv zeta.
  do 3 apply reach_next. apply reach_fresh.
Defined.

(** X24. With a budget of at least one request per minute, the window of
    a fetcher never holds more than [maxRequestsPerMinute + 1]
    timestamps: what is kept at an admission is within the budget, and
    the admission adds one. *)
Theorem window_size_bound env config w :
  1 <= maxRequestsPerMinute config ->
  Reachable env config w ->
  Z.of_nat (List.length (requestTimestamps w))
  <= maxRequestsPerMinute config + 1.
Proof.
  intros Hmax. induction 1 as [t0 | w w' Hw IH Ha | w w' _ IH Hc Hr Hi].
  - cbn. lia.
  - destruct (admission_run env config w) as (w1 & Hwait & Hrun).
    cbv zeta in Hrun. rewrite Hrun in Ha. injection Ha as <-.
    destruct (waitForRateLimit_effect env config w w1 Hwait)
      as (Hk & _ & _ & _).
    cbv zeta in Hk. cbn [requestTimestamps].
    rewrite length_app, Hk. cbn [List.length].
    pose proof (kept_within_budget config w
                  (clock w + Z.of_nat (elapsed env (reads w)))
                  (Reachable_WindowInv env config w Hmax Hw)
                  ltac:(lia)).
    lia.
  - now rewrite Hr.
Qed.

(** The bound is reached: three timestamps under a budget of two. *)
Lemma window_size_bound_witness :
  Z.of_nat (List.length (requestTimestamps thirdAdmission)) <= 2 + 1
  /\ List.length (requestTimestamps thirdAdmission) = 3%nat.
Proof.
  split; [| reflexivity].
  apply (window_size_bound (sampleEnv deadTransport) (mkConfig 2 3 5000)
                           thirdAdmission).
  - cbn. lia.
  - unfold thirdAdmission. cbv zeta.
    do 3 apply reach_next. apply reach_fresh.
Defined.

(** X25. In every world that a fetcher reaches, [waitForRateLimit] does
    not throw, and it sets no timer or one timer of more than 0 and at
    most 60000 ms: the rate limiter never holds a request back for more
    than a minute. *)
Theorem rate_limit_wait_bounded env config w :
  Reachable env config w ->
  exists w1,
    waitForRateLimit env config w = (Ok tt, w1)
    /\ clock w <= clock w1
    /\ (timers w1 = timers w
        \/ exists waitTime,
             timers w1 = waitTime :: timers w /\ 0 < waitTime <= 60000).
Proof.
  intros Hw. apply waitForRateLimit_timer.
  destruct (Reachable_Chronological env config w Hw) as (_ & _ & B1 & _).
  exact B1.
Qed.

(** The third request under a budget of two, right after the first two. *)
Lemma rate_limit_wait_bounded_witness :
  let config := mkConfig 2 3 5000 in
  let env := sampleEnv deadTransport in
  let w := snd (admission env config
                  (snd (admission env config (initialWorld 0)))) in
  exists w1,
    waitForRateLimit env config w = (Ok tt, w1)
    /\ clock w <= clock w1
    /\ (timers w1 = timers w
        \/ exists waitTime,
             timers w1 = waitTime :: timers w /\ 0 < waitTime <= 60000).
Proof.
  cbv zeta.
  apply (rate_limit_wait_bounded (sampleEnv deadTransport)
                                 (mkConfig 2 3 5000)).
  do 2 apply reach_next. apply reach_fresh.
Defined.
